(** * indexed-allocator: slab arenas and handle encodings

    A shallow embedding of the arena classes [ArrayArena] and
    [ArrayArenaMT], of the buffer sources [BufAlloc] and [NewAlloc], and
    of the handle encodings [SingleArenaConfig] and
    [SingleArenaConfigUniversal], and of [Pointer] and [Allocator],
    followed by the properties the specification states about them and
    by further properties of the code.

    Conventions.
    - C++ unsigned integers are [Z] values kept in range by an explicit
      wrap-around ([to_Index], [to_uint16], [to_uint32], [to_size_t]);
      [ptrdiff_t] is the signed 64-bit wrap [to_ptrdiff].
    - A pointer is its address, a [Z] in [0, 2^64); [nullptr] is [0].
    - Process memory is a finite map from byte addresses to bytes.
    - A member function is a computation in the monad [comp]: it
      receives the object (and the memory) and returns an [outcome]
      with the object as the call leaves it, also when it throws.
    - Dereferencing the null pointer is the outcome [Fault].
    - [indexed_assert] aborts in a debug build and is compiled away
      otherwise; the Boolean [INDEXED_DEBUG] selects the build. *)

From Stdlib Require Import ZArith Lia Bool List.
From stdpp Require Import base option gmap.

Open Scope Z_scope.

(** ** Machine integers *)

Inductive IndexType := uint16_t | uint32_t.

Definition bits (k : IndexType) : Z :=
  match k with uint16_t => 16 | uint32_t => 32 end.

(** [sizeof(Index)] *)
Definition sizeof (k : IndexType) : Z :=
  match k with uint16_t => 2 | uint32_t => 4 end.

Definition to_Index (k : IndexType) (x : Z) : Z := x mod 2 ^ bits k.
Definition to_uint16 (x : Z) : Z := x mod 2 ^ 16.
Definition to_uint32 (x : Z) : Z := x mod 2 ^ 32.
Definition to_size_t (x : Z) : Z := x mod 2 ^ 64.
Definition to_ptrdiff (x : Z) : Z := (x + 2 ^ 63) mod 2 ^ 64 - 2 ^ 63.

(** [1u << (sizeof(Index) * 8 - 1)] and [1u << (sizeof(Index) * 8 - 2)] *)
Definition kOnStackFlag (k : IndexType) : Z := Z.shiftl 1 (sizeof k * 8 - 1).
Definition kContainerFlag (k : IndexType) : Z := Z.shiftl 1 (sizeof k * 8 - 2).

(** [2 * 1024 * 1024] *)
Definition kMaxStackSize : Z := 2 * 1024 * 1024.

(** The value of [index - 1] once it is converted to [size_t]: a
    [uint16_t] operand is promoted to [int], a [uint32_t] operand stays
    unsigned and wraps at 32 bits. *)
Definition index_minus_1 (k : IndexType) (index : Z) : Z :=
  match k with
  | uint16_t => to_size_t (index - 1)
  | uint32_t => to_uint32 (index - 1)
  end.

(** ** Outcomes and the state monad of member functions *)

(** [bad_alloc] is the specification's OutOfMemory, [length_error] its
    CapacityTooLarge and [runtime_error] its AllocationInProgress. *)
Inductive exception := bad_alloc | length_error | runtime_error.

Inductive outcome (T : Type) :=
  | Ret (v : T)            (* normal return *)
  | Throw (e : exception)  (* a C++ exception leaves the call *)
  | Abort                  (* a failed indexed_assert *)
  | Spin                   (* a retry loop that used up its fuel *)
  | Fault.                 (* a dereference of the null pointer *)
Arguments Ret {T} v.
Arguments Throw {T} e.
Arguments Abort {T}.
Arguments Spin {T}.
Arguments Fault {T}.

Definition comp (S T : Type) : Type := S → outcome T * S.

Definition ret {S T} (v : T) : comp S T := λ s, (Ret v, s).
Definition throw {S T} (e : exception) : comp S T := λ s, (Throw e, s).
Definition abort {S T} : comp S T := λ s, (Abort, s).
Definition spin {S T} : comp S T := λ s, (Spin, s).
Definition fault {S T} : comp S T := λ s, (Fault, s).

Definition bind {S T U} (c : comp S T) (f : T → comp S U) : comp S U :=
  λ s, match c s with
       | (Ret v, s') => f v s'
       | (Throw e, s') => (Throw e, s')
       | (Abort, s') => (Abort, s')
       | (Spin, s') => (Spin, s')
       | (Fault, s') => (Fault, s')
       end.

(** [try { body } catch (const std::exception&) { handler; throw; }] *)
Definition try_rethrow {S T} (body : comp S T) (handler : comp S unit)
  : comp S T :=
  λ s, match body s with
       | (Throw e, s') =>
           match handler s' with
           | (Ret _, s'') => (Throw e, s'')
           | (Throw e', s'') => (Throw e', s'')
           | (Abort, s'') => (Abort, s'')
           | (Spin, s'') => (Spin, s'')
           | (Fault, s'') => (Fault, s'')
           end
       | r => r
       end.

Definition get {S} : comp S S := λ s, (Ret s, s).
Definition put {S} (s : S) : comp S unit := λ _, (Ret tt, s).
Definition when {S} (b : bool) (c : comp S unit) : comp S unit :=
  if b then c else ret tt.

(** [indexed_assert(c)]: [std::abort] in a debug build, nothing otherwise. *)
Definition indexed_assert {S} (debug c : bool) : comp S unit :=
  if debug && negb c then abort else ret tt.

(** [indexed_warning(c)] only prints to [stderr]; the stream is not part
    of the model. *)
Definition indexed_warning {S} (debug c : bool) : comp S unit := ret tt.

Declare Scope comp_scope.
Delimit Scope comp_scope with comp.
Notation "x <- c ;; k" := (bind c (λ x, k))
  (at level 100, c at next level, right associativity) : comp_scope.
Notation "c ;;; k" := (bind c (λ _, k))
  (at level 100, right associativity) : comp_scope.

(** ** Process memory, byte addressed, little endian *)

Definition load_byte (m : gmap Z Z) (p : Z) : Z := default 0 (m !! p).

(** [*static_cast<Index*>(p)] *)
Definition load (k : IndexType) (m : gmap Z Z) (p : Z) : Z :=
  match k with
  | uint16_t => load_byte m p + 2 ^ 8 * load_byte m (p + 1)
  | uint32_t => load_byte m p + 2 ^ 8 * load_byte m (p + 1)
                + 2 ^ 16 * load_byte m (p + 2) + 2 ^ 24 * load_byte m (p + 3)
  end.

(** [*static_cast<Index*>(p) = v] *)
Definition store (k : IndexType) (m : gmap Z Z) (p v : Z) : gmap Z Z :=
  match k with
  | uint16_t => <[p + 1 := (v / 2 ^ 8) mod 2 ^ 8]> (<[p := v mod 2 ^ 8]> m)
  | uint32_t =>
      <[p + 3 := (v / 2 ^ 24) mod 2 ^ 8]>
        (<[p + 2 := (v / 2 ^ 16) mod 2 ^ 8]>
           (<[p + 1 := (v / 2 ^ 8) mod 2 ^ 8]> (<[p := v mod 2 ^ 8]> m)))
  end.

(** ** Buffer sources: the [Alloc] template parameter

    An arena derives from its buffer source and uses three protected
    members of it. [malloc] may throw and is therefore a computation on
    the source; the state it leaves is kept also when it throws. *)

Class Alloc (A : Type) := {
  malloc : Z → comp A unit;
  getPtr : A → Z;
  free : A → A
}.

(** What the arenas rely on: a released source holds no buffer, and a
    [malloc] that throws leaves the held buffer as it was. *)
Class AllocLaws (A : Type) `{Alloc A} := {
  getPtr_free : ∀ a, getPtr (free a) = 0;
  getPtr_malloc_throw :
    ∀ bytes a e a', malloc bytes a = (Throw e, a') → getPtr a' = getPtr a
}.

Module BufAlloc.

Record t := {
  m_ptr : Z;
  m_bufBegin : Z;
  m_bufSize : Z
}.

(** [BufAlloc(void* bufBegin, size_t bufSize)] *)
Definition make (bufBegin bufSize : Z) : t :=
  {| m_ptr := 0; m_bufBegin := bufBegin; m_bufSize := bufSize |}.

Definition malloc (bytes : Z) : comp t unit :=
  λ a, if m_bufSize a <? bytes then (Throw bad_alloc, a)
       else (Ret tt, {| m_ptr := m_bufBegin a;
                        m_bufBegin := m_bufBegin a;
                        m_bufSize := m_bufSize a |}).

Definition getPtr (a : t) : Z := m_ptr a.

Definition free (a : t) : t :=
  {| m_ptr := 0; m_bufBegin := m_bufBegin a; m_bufSize := m_bufSize a |}.

End BufAlloc.

#[export] Instance BufAlloc_Alloc : Alloc BufAlloc.t :=
{| malloc := BufAlloc.malloc; getPtr := BufAlloc.getPtr;
   free := BufAlloc.free |}.

Module NewAlloc.

(** [operator_new] stands for the global [new char[bytes]] of the run:
    the address it returns, or [None] when it throws [bad_alloc]. *)
Record t := {
  m_memBlock : Z;
  operator_new : Z → option Z
}.

Definition malloc (bytes : Z) : comp t unit :=
  λ a, match operator_new a bytes with
       | Some p => (Ret tt, {| m_memBlock := p;
                               operator_new := operator_new a |})
       | None => (Throw bad_alloc, a)
       end.

Definition getPtr (a : t) : Z := m_memBlock a.

Definition free (a : t) : t :=
  {| m_memBlock := 0; operator_new := operator_new a |}.

End NewAlloc.

#[export] Instance NewAlloc_Alloc : Alloc NewAlloc.t :=
{| malloc := NewAlloc.malloc; getPtr := NewAlloc.getPtr;
   free := NewAlloc.free |}.

(** A source wrapped with a count of the [malloc] calls made on it; the
  count is not in the C++ code, it makes "the source was called"
  observable. *)
Module Counted.

Record t (A : Type) := { inner : A; acquire_calls : nat }.
Arguments inner {A} _.
Arguments acquire_calls {A} _.

Definition malloc {A} `{Alloc A} (bytes : Z) : comp (t A) unit :=
  λ c, let '(r, a') := malloc bytes (inner c) in
       (r, {| inner := a'; acquire_calls := S (acquire_calls c) |}).

Definition getPtr {A} `{Alloc A} (c : t A) : Z := getPtr (inner c).

Definition free {A} `{Alloc A} (c : t A) : t A :=
  {| inner := free (inner c); acquire_calls := acquire_calls c |}.

End Counted.

#[export] Instance Counted_Alloc {A} `{Alloc A} : Alloc (Counted.t A) :=
{| malloc := Counted.malloc; getPtr := Counted.getPtr;
   free := Counted.free |}.

(** ** [ArrayArena<Index, Alloc>]: the single-threaded arena *)

Module ArrayArena.
Section ArrayArena.
Context {A : Type} `{Alloc A}.
Variable Index : IndexType.
Variable INDEXED_DEBUG : bool.

Record t := mk {
  alloc : A;                  (* the Alloc base-class subobject *)
  m_capacity : Z;             (* Index *)
  m_elementSizeInIndex : Z;   (* uint16_t: size / sizeof(Index) *)
  m_doDelete : bool;
  m_nextFree : Z;             (* Index: slist of free elements *)
  m_allocatedCount : Z;       (* Index *)
  m_usedCapacity : Z          (* Index *)
}.

(** What a member function works on: the arena object and the memory. *)
Record state := { this : t; mem : gmap Z Z }.

Definition set_alloc (v : A) (a : t) : t :=
  mk v (m_capacity a) (m_elementSizeInIndex a) (m_doDelete a)
     (m_nextFree a) (m_allocatedCount a) (m_usedCapacity a).
Definition set_capacity (v : Z) (a : t) : t :=
  mk (alloc a) v (m_elementSizeInIndex a) (m_doDelete a)
     (m_nextFree a) (m_allocatedCount a) (m_usedCapacity a).
Definition set_elementSizeInIndex (v : Z) (a : t) : t :=
  mk (alloc a) (m_capacity a) v (m_doDelete a)
     (m_nextFree a) (m_allocatedCount a) (m_usedCapacity a).
Definition set_doDelete (v : bool) (a : t) : t :=
  mk (alloc a) (m_capacity a) (m_elementSizeInIndex a) v
     (m_nextFree a) (m_allocatedCount a) (m_usedCapacity a).
Definition set_nextFree (v : Z) (a : t) : t :=
  mk (alloc a) (m_capacity a) (m_elementSizeInIndex a) (m_doDelete a)
     v (m_allocatedCount a) (m_usedCapacity a).
Definition set_allocatedCount (v : Z) (a : t) : t :=
  mk (alloc a) (m_capacity a) (m_elementSizeInIndex a) (m_doDelete a)
     (m_nextFree a) v (m_usedCapacity a).
Definition set_usedCapacity (v : Z) (a : t) : t :=
  mk (alloc a) (m_capacity a) (m_elementSizeInIndex a) (m_doDelete a)
     (m_nextFree a) (m_allocatedCount a) v.

Definition update (f : t → t) : comp state unit :=
  λ s, (Ret tt, {| this := f (this s); mem := mem s |}).

(** [*static_cast<Index*>(p) = v] and [*static_cast<Index*>(p)];
    the null pointer cannot be dereferenced. *)
Definition write (p v : Z) : comp state unit :=
  λ s, if p =? 0 then fault s
       else (Ret tt, {| this := this s; mem := store Index (mem s) p v |}).

Definition read (p : Z) : comp state Z :=
  λ s, if p =? 0 then fault s else (Ret (load Index (mem s) p), s).

(** [Alloc::malloc(bytes)] on the base-class subobject *)
Definition Alloc_malloc (bytes : Z) : comp state unit :=
  λ s, let '(r, a') := malloc bytes (alloc (this s)) in
       (r, {| this := set_alloc a' (this s); mem := mem s |}).

Definition begin (a : t) : Z := getPtr (alloc a).

Definition elementSize (a : t) : Z :=
  to_size_t (m_elementSizeInIndex a * sizeof Index).

Definition end_ (a : t) : Z :=
  to_size_t (begin a + to_size_t (elementSize a * m_capacity a)).

Definition capacity (a : t) : Z := m_capacity a.
Definition usedCapacity (a : t) : Z := m_usedCapacity a.
Definition allocatedCount (a : t) : Z := m_allocatedCount a.
Definition deleteIsEnabled (a : t) : bool := m_doDelete a.

Definition getElementInt (index elementSize : Z) : comp state Z :=
  (s <- get;;
   indexed_assert INDEXED_DEBUG
     ((0 <? index) && (index <=? m_usedCapacity (this s)));;;
   ret (to_size_t (begin (this s)
                   + to_size_t (elementSize * index_minus_1 Index index))))%comp.

Definition getElement (index : Z) : comp state Z :=
  (s <- get;; getElementInt index (elementSize (this s)))%comp.

Definition enableDelete (enable : bool) : comp state unit :=
  update (set_doDelete enable).

Definition setCapacity (capacity : Z) : comp state unit :=
  (s <- get;;
   when (Z.shiftl 1 (sizeof Index * 8 - 1) <=? capacity)
        (throw length_error);;;
   when (negb (begin (this s) =? 0)) (throw runtime_error);;;
   update (set_capacity (to_Index Index capacity)))%comp.

(** The quotient by [m_elementSizeInIndex] is an unsigned 32-bit
    division; when the divisor is 0 the C++ behaviour is undefined and
    the model takes [Z]'s quotient 0. *)
Definition pointer_to (ptr : Z) : comp state Z :=
  (s <- get;;
   let offset := to_size_t (ptr - begin (this s)) in
   let pos := to_Index Index
                (to_uint32 (offset / sizeof Index)
                 / m_elementSizeInIndex (this s)) in
   indexed_assert INDEXED_DEBUG
     (to_size_t (elementSize (this s) * pos) =? offset);;;
   ret (to_Index Index (pos + 1)))%comp.

Definition allocate (typeSize : Z) : comp state Z :=
  (s <- get;;
   indexed_assert INDEXED_DEBUG
     ((elementSize (this s) =? typeSize) || (elementSize (this s) =? 0));;;
   index <-
     (if negb (m_nextFree (this s) =? 0) then
        let index := m_nextFree (this s) in
        outPtr <- getElementInt index typeSize;;
        next <- read outPtr;;
        update (set_nextFree next);;;
        ret index
      else
        when (m_usedCapacity (this s) =? m_capacity (this s))
             (throw bad_alloc);;;
        when (begin (this s) =? 0)
             (indexed_assert INDEXED_DEBUG (typeSize mod sizeof Index =? 0);;;
              Alloc_malloc (to_size_t (typeSize * m_capacity (this s)));;;
              update (set_elementSizeInIndex
                        (to_uint16 (typeSize / sizeof Index))));;;
        update (λ a, set_usedCapacity (to_Index Index (m_usedCapacity a + 1)) a);;;
        s' <- get;;
        ret (m_usedCapacity (this s')));;
   update (λ a, set_allocatedCount (to_Index Index (m_allocatedCount a + 1)) a);;;
   ret index)%comp.

Definition reset : comp state unit :=
  (s <- get;;
   indexed_warning INDEXED_DEBUG (m_allocatedCount (this s) =? 0);;;
   update (set_nextFree 0);;;
   update (set_allocatedCount 0);;;
   update (set_usedCapacity 0))%comp.

Definition deallocate (index typeSize : Z) : comp state unit :=
  (update (λ a, set_allocatedCount (to_Index Index (m_allocatedCount a - 1)) a);;;
   s <- get;;
   if m_allocatedCount (this s) =? 0 then
     reset
   else
     when (m_doDelete (this s))
          (ptr <- getElementInt index typeSize;;
           write ptr (m_nextFree (this s));;;
           update (set_nextFree index)))%comp.

Definition freeMemory : comp state unit :=
  (update (set_elementSizeInIndex 0);;;
   reset;;;
   update (λ a, set_alloc (free (alloc a)) a))%comp.

(** The member initialisers of the constructor, before its body. *)
Definition init (enableDelete : bool) (alloc : A) : t :=
  mk alloc 0 0 enableDelete 0 0 0.

(** [ArrayArena(capacity, enableDelete, alloc)]: the object is built only
    when the body, [setCapacity(capacity)], returns. *)
Definition construct (capacity : Z) (enableDelete : bool) (alloc : A)
    (m : gmap Z Z) : outcome unit * state :=
  setCapacity capacity {| this := init enableDelete alloc; mem := m |}.

End ArrayArena.

Arguments t : clear implicits.
Arguments state : clear implicits.

End ArrayArena.

(** ** [ArrayArenaMT<Index, Alloc>]: the thread-safe arena

    The model runs one call at a time: [m_allocMutex] is then always
    free and is left out, and an atomic is its value. The retry loops
    around [compare_exchange_strong] are kept, bounded by [fuel]. *)

Module ArrayArenaMT.
Section ArrayArenaMT.
Context {A : Type} `{Alloc A}.
Variable Index : IndexType.
Variable INDEXED_DEBUG : bool.

Record t := mk {
  alloc : A;                  (* the Alloc base-class subobject *)
  m_capacity : Z;             (* Index *)
  m_elementSizeInIndex : Z;   (* uint16_t: size / sizeof(Index) *)
  m_doDelete : bool;
  m_isAllocError : bool;
  m_freeList : Z;             (* LockFreeSList::m_head, atomic DoubleIndex *)
  m_usedCapacity : Z          (* atomic Index *)
}.

Record state := { this : t; mem : gmap Z Z }.

Definition set_alloc (v : A) (a : t) : t :=
  mk v (m_capacity a) (m_elementSizeInIndex a) (m_doDelete a)
     (m_isAllocError a) (m_freeList a) (m_usedCapacity a).
Definition set_capacity (v : Z) (a : t) : t :=
  mk (alloc a) v (m_elementSizeInIndex a) (m_doDelete a)
     (m_isAllocError a) (m_freeList a) (m_usedCapacity a).
Definition set_elementSizeInIndex (v : Z) (a : t) : t :=
  mk (alloc a) (m_capacity a) v (m_doDelete a)
     (m_isAllocError a) (m_freeList a) (m_usedCapacity a).
Definition set_doDelete (v : bool) (a : t) : t :=
  mk (alloc a) (m_capacity a) (m_elementSizeInIndex a) v
     (m_isAllocError a) (m_freeList a) (m_usedCapacity a).
Definition set_isAllocError (v : bool) (a : t) : t :=
  mk (alloc a) (m_capacity a) (m_elementSizeInIndex a) (m_doDelete a)
     v (m_freeList a) (m_usedCapacity a).
Definition set_freeList (v : Z) (a : t) : t :=
  mk (alloc a) (m_capacity a) (m_elementSizeInIndex a) (m_doDelete a)
     (m_isAllocError a) v (m_usedCapacity a).
Definition set_usedCapacity (v : Z) (a : t) : t :=
  mk (alloc a) (m_capacity a) (m_elementSizeInIndex a) (m_doDelete a)
     (m_isAllocError a) (m_freeList a) v.

Definition update (f : t → t) : comp state unit :=
  λ s, (Ret tt, {| this := f (this s); mem := mem s |}).

(** [*static_cast<Index*>(p) = v] and [*static_cast<Index*>(p)];
    the null pointer cannot be dereferenced. *)
Definition write (p v : Z) : comp state unit :=
  λ s, if p =? 0 then fault s
       else (Ret tt, {| this := this s; mem := store Index (mem s) p v |}).

Definition read (p : Z) : comp state Z :=
  λ s, if p =? 0 then fault s else (Ret (load Index (mem s) p), s).

Definition Alloc_malloc (bytes : Z) : comp state unit :=
  λ s, let '(r, a') := malloc bytes (alloc (this s)) in
       (r, {| this := set_alloc a' (this s); mem := mem s |}).

Definition begin (a : t) : Z := getPtr (alloc a).

Definition elementSize (a : t) : Z :=
  to_size_t (m_elementSizeInIndex a * sizeof Index).

Definition end_ (a : t) : Z :=
  to_size_t (begin a + to_size_t (elementSize a * m_capacity a)).

Definition capacity (a : t) : Z := m_capacity a.
Definition usedCapacity (a : t) : Z := m_usedCapacity a.
Definition deleteIsEnabled (a : t) : bool := m_doDelete a.

Definition getElementInt (index elementSize : Z) : comp state Z :=
  (s <- get;;
   indexed_assert INDEXED_DEBUG
     ((0 <? index) && (index <=? m_usedCapacity (this s)));;;
   ret (to_size_t (begin (this s)
                   + to_size_t (elementSize * index_minus_1 Index index))))%comp.

Definition getElement (index : Z) : comp state Z :=
  (s <- get;; getElementInt index (elementSize (this s)))%comp.

(** *** [detail::LockFreeSList]: the head word is (stamp, index) *)

Definition kBits : Z := sizeof Index * 8.
Definition to_DoubleIndex (x : Z) : Z := x mod 2 ^ (2 * kBits).

Definition toStamp (indexD : Z) : Z := Z.shiftr indexD kBits.

Definition toDoubleIndex (index stamp : Z) : Z :=
  Z.lor (to_DoubleIndex (Z.shiftl stamp kBits)) index.

(** [m_head.compare_exchange_strong(expected, desired)]: the result and
    the value [expected] holds afterwards. *)
Definition compare_exchange_strong (expected desired : Z)
  : comp state (bool * Z) :=
  (s <- get;;
   if m_freeList (this s) =? expected then
     update (set_freeList desired);;; ret (true, expected)
   else ret (false, m_freeList (this s)))%comp.

Fixpoint listLength_loop (fuel : nat) (len next : Z) : comp state Z :=
  match fuel with
  | O => spin
  | S fuel' =>
      if negb (next =? 0) then
        (freeSlot <- getElement next;;
         next' <- read freeSlot;;
         listLength_loop fuel' (to_Index Index (len + 1)) next')%comp
      else ret len
  end.

Definition listLength (fuel : nat) : comp state Z :=
  (s <- get;;
   listLength_loop fuel 0 (to_Index Index (m_freeList (this s))))%comp.

Fixpoint pull_loop (fuel : nat) (headD : Z) : comp state Z :=
  match fuel with
  | O => spin
  | S fuel' =>
      let head := to_Index Index headD in
      if head =? 0 then ret 0
      else
        (freeSlot <- getElement head;;
         futureHead <- read freeSlot;;
         let futureHeadD :=
           toDoubleIndex futureHead (to_DoubleIndex (toStamp headD + 1)) in
         r <- compare_exchange_strong headD futureHeadD;;
         if fst r then ret head else pull_loop fuel' (snd r))%comp
  end.

Definition pull (fuel : nat) : comp state Z :=
  (s <- get;; pull_loop fuel (m_freeList (this s)))%comp.

Fixpoint push_loop (fuel : nat) (free freeSlot headD : Z) : comp state unit :=
  match fuel with
  | O => spin
  | S fuel' =>
      (write freeSlot (to_Index Index headD);;;
       let futureHeadD :=
         toDoubleIndex free (to_DoubleIndex (toStamp headD + 1)) in
       r <- compare_exchange_strong headD futureHeadD;;
       if fst r then ret tt else push_loop fuel' free freeSlot (snd r))%comp
  end.

Definition push (fuel : nat) (free : Z) : comp state unit :=
  (freeSlot <- getElement free;;
   s <- get;;
   push_loop fuel free freeSlot (m_freeList (this s)))%comp.

(** *** The arena's members *)

Definition enableDelete (enable : bool) : comp state unit :=
  update (set_doDelete enable).

Definition setCapacity (capacity : Z) : comp state unit :=
  (s <- get;;
   when (Z.shiftl 1 (sizeof Index * 8 - 1) <=? capacity)
        (throw length_error);;;
   when (negb (begin (this s) =? 0)) (throw runtime_error);;;
   update (set_capacity (to_Index Index capacity)))%comp.

Definition pointer_to (ptr : Z) : comp state Z :=
  (s <- get;;
   let offset := to_size_t (ptr - begin (this s)) in
   let pos := to_Index Index
                (to_uint32 (offset / sizeof Index)
                 / m_elementSizeInIndex (this s)) in
   indexed_assert INDEXED_DEBUG
     (to_size_t (elementSize (this s) * pos) =? offset);;;
   ret (to_Index Index (pos + 1)))%comp.

Definition allocateBuffer (typeSize : Z) : comp state unit :=
  (s <- get;;
   when (m_isAllocError (this s)) (throw bad_alloc);;;
   if negb (begin (this s) =? 0) then ret tt
   else
     indexed_assert INDEXED_DEBUG (typeSize mod sizeof Index =? 0);;;
     try_rethrow
       (Alloc_malloc (to_size_t (typeSize * m_capacity (this s))))
       (update (set_isAllocError true));;;
     update (set_elementSizeInIndex (to_uint16 (typeSize / sizeof Index)));;;
     s' <- get;;
     indexed_assert INDEXED_DEBUG
       (m_elementSizeInIndex (this s') =? typeSize / sizeof Index))%comp.

Definition allocate (fuel : nat) (typeSize : Z) : comp state Z :=
  (s <- get;;
   indexed_assert INDEXED_DEBUG
     ((elementSize (this s) =? 0) || (elementSize (this s) =? typeSize));;;
   index <- pull fuel;;
   if index =? 0 then
     update (λ a, set_usedCapacity (to_Index Index (m_usedCapacity a + 1)) a);;;
     s1 <- get;;
     let futureCapacity := m_usedCapacity (this s1) in
     try_rethrow
       (when (m_capacity (this s1) <? futureCapacity) (throw bad_alloc);;;
        when (begin (this s1) =? 0) (allocateBuffer typeSize))
       (update (λ a, set_usedCapacity
                       (to_Index Index (m_usedCapacity a - 1)) a));;;
     ret futureCapacity
   else ret index)%comp.

Definition deallocate (fuel : nat) (index typeSize : Z) : comp state unit :=
  (s <- get;;
   when (m_doDelete (this s)) (push fuel index))%comp.

(** In a debug build the warning's condition walks the free list. *)
Definition reset (fuel : nat) : comp state unit :=
  (when INDEXED_DEBUG
     (len <- listLength fuel;;
      s <- get;;
      indexed_warning INDEXED_DEBUG (m_usedCapacity (this s) =? len));;;
   update (set_freeList 0);;;
   update (set_usedCapacity 0))%comp.

Definition freeMemory (fuel : nat) : comp state unit :=
  (update (λ a, set_alloc (free (alloc a)) a);;;
   update (set_elementSizeInIndex 0);;;
   update (set_isAllocError false);;;
   reset fuel)%comp.

Definition init (enableDelete : bool) (alloc : A) : t :=
  mk alloc 0 0 enableDelete false 0 0.

Definition construct (capacity : Z) (enableDelete : bool) (alloc : A)
    (m : gmap Z Z) : outcome unit * state :=
  setCapacity capacity {| this := init enableDelete alloc; mem := m |}.

End ArrayArenaMT.

Arguments t : clear implicits.
Arguments state : clear implicits.

End ArrayArenaMT.

(** ** Handle encodings

    A config keeps, in static or thread-local members, a pointer to the
    arena, the top of the stack and (universal encoding) the container.
    Its [getElement] and [pointer_to] run against the arena that pointer
    designates: they are computations on that arena's state. The
    template parameters are section variables. A quotient by a
    [kNodeAlignment] of 0 is undefined in C++ and 0 in the model. *)

Module SingleArenaConfig.
Section SingleArenaConfig.
Context {A : Type} `{Alloc A}.
Variable Index : IndexType.
Variable INDEXED_DEBUG : bool.
Variable kNodeAlignment : Z.

(** [ConfigStoreStatic] / [ConfigStorePerThread]: [arena] is the address
    of the arena object. *)
Record t := { arena : Z; stackTop : Z }.

Definition getElement (c : t) (index : Z)
  : comp (ArrayArena.state A) Z :=
  if negb (Z.land index (kOnStackFlag Index) =? 0) then
    ret (to_size_t (stackTop c
                    - to_size_t (kNodeAlignment
                                 * Z.lxor index (kOnStackFlag Index))))
  else ArrayArena.getElement Index INDEXED_DEBUG index.

Definition pointer_to (c : t) (ptr : Z)
  : comp (ArrayArena.state A) Z :=
  let stackOffset := to_ptrdiff (stackTop c - ptr) in
  if (0 <=? stackOffset) && (stackOffset <? kMaxStackSize) then
    let offset := to_size_t stackOffset / kNodeAlignment in
    (indexed_assert INDEXED_DEBUG (offset <? kOnStackFlag Index);;;
     indexed_assert INDEXED_DEBUG
       (to_size_t (offset * kNodeAlignment) =? to_size_t stackOffset);;;
     ret (Z.lor (to_Index Index offset) (kOnStackFlag Index)))%comp
  else ArrayArena.pointer_to Index INDEXED_DEBUG ptr.

Definition setContainer (containerPtr : Z) (c : t) : t := c.
Definition getContainer (c : t) : Z := 0.
Definition setArena (arenaPtr : Z) (c : t) : t :=
  {| arena := arenaPtr; stackTop := stackTop c |}.
Definition getArena (c : t) : Z := arena c.
Definition setStackTop (stackTopPtr : Z) (c : t) : t :=
  {| arena := arena c; stackTop := stackTopPtr |}.
Definition getStackTop (c : t) : Z := stackTop c.

End SingleArenaConfig.
End SingleArenaConfig.

Module SingleArenaConfigUniversal.
Section SingleArenaConfigUniversal.
Context {A : Type} `{Alloc A}.
Variable Index : IndexType.
Variable INDEXED_DEBUG : bool.
Variable kObjectSize : Z.
Variable kNodeAlignment : Z.

(** [ConfigStoreUniversalStatic] / [ConfigStoreUniversalPerThread] *)
Record t := { arena : Z; stackTop : Z; container : Z }.

Definition getElement (c : t) (index : Z)
  : comp (ArrayArena.state A) Z :=
  if Z.land index (Z.lor (kContainerFlag Index) (kOnStackFlag Index)) =? 0
  then ArrayArena.getElement Index INDEXED_DEBUG index
  else if negb (Z.land index (kOnStackFlag Index) =? 0) then
    ret (to_size_t (stackTop c
                    - to_size_t (kNodeAlignment
                                 * Z.lxor index (kOnStackFlag Index))))
  else
    ret (to_size_t (container c + Z.lxor index (kContainerFlag Index))).

Definition pointer_to (c : t) (ptr : Z)
  : comp (ArrayArena.state A) Z :=
  (s <- get;;
   if (kObjectSize =? 0)
      && ((ArrayArena.begin (ArrayArena.this s) <=? ptr)
          && (ptr <? ArrayArena.end_ Index (ArrayArena.this s)))
   then ArrayArena.pointer_to Index INDEXED_DEBUG ptr
   else
     let stackOffset := to_ptrdiff (stackTop c - ptr) in
     if (0 <=? stackOffset) && (stackOffset <? kMaxStackSize) then
       let offset := to_size_t stackOffset / kNodeAlignment in
       indexed_assert INDEXED_DEBUG (offset <? kOnStackFlag Index);;;
       indexed_assert INDEXED_DEBUG
         (to_size_t (offset * kNodeAlignment) =? to_size_t stackOffset);;;
       ret (Z.lor (to_Index Index offset) (kOnStackFlag Index))
     else
       let containerOffset := to_ptrdiff (ptr - container c) in
       if kObjectSize =? 0 then
         indexed_assert INDEXED_DEBUG
           ((0 <=? containerOffset) && (containerOffset <? 256));;;
         ret (Z.lor (to_Index Index containerOffset) (kContainerFlag Index))
       else if (0 <=? containerOffset)
               && (containerOffset <? to_ptrdiff kObjectSize)
       then ret (Z.lor (to_Index Index containerOffset)
                       (kContainerFlag Index))
       else ArrayArena.pointer_to Index INDEXED_DEBUG ptr)%comp.

Definition setContainer (containerPtr : Z) (c : t) : t :=
  {| arena := arena c; stackTop := stackTop c; container := containerPtr |}.
Definition getContainer (c : t) : Z := container c.
Definition setArena (arenaPtr : Z) (c : t) : t :=
  {| arena := arenaPtr; stackTop := stackTop c; container := container c |}.
Definition getArena (c : t) : Z := arena c.
Definition setStackTop (stackTopPtr : Z) (c : t) : t :=
  {| arena := arena c; stackTop := stackTopPtr; container := container c |}.
Definition getStackTop (c : t) : Z := stackTop c.

End SingleArenaConfigUniversal.
End SingleArenaConfigUniversal.

(** ** Invariants and specification-side definitions *)

Module ArrayArenaSpec.
Section ArrayArenaSpec.
Context {A : Type} `{Alloc A}.
Variable Index : IndexType.
Import ArrayArena.

(** The fields hold values of their C++ types, the high-water mark is
    within the capacity, and the live count and the head of the free list
    are within the high-water mark. *)
Record consistent (a : t A) : Prop := {
  capacity_bound : 0 ≤ m_capacity a < 2 ^ (bits Index - 1);
  size_bound : 0 ≤ m_elementSizeInIndex a < 2 ^ 16;
  used_bound : 0 ≤ m_usedCapacity a ≤ m_capacity a;
  count_bound : 0 ≤ m_allocatedCount a ≤ m_usedCapacity a;
  free_bound : 0 ≤ m_nextFree a ≤ m_usedCapacity a
}.

(** The buffer is acquired and lies in the address space. *)
Definition buffer_held (a : t A) : Prop :=
  0 < begin a ∧ begin a + elementSize Index a * m_capacity a < 2 ^ 64.

(** No buffer is held and no element size is locked: the arena as its
    constructor or [freeMemory] leaves it. *)
Definition unlocked (a : t A) : Prop :=
  begin a = 0 ∧ m_elementSizeInIndex a = 0 ∧ m_nextFree a = 0.

(** Slot [h] starts [(h-1)·elementSize] bytes into the buffer. *)
Definition slot (a : t A) (h : Z) : Z :=
  begin a + (h - 1) * elementSize Index a.

(** The allocation algorithm in the words of the specification: pop the
    free list, else bump the high-water mark, else fail. *)
Definition allocate_spec (s : state A) : outcome Z * state A :=
  let a := this s in
  if negb (m_nextFree a =? 0) then
    (Ret (m_nextFree a),
     {| this := set_allocatedCount (m_allocatedCount a + 1)
                  (set_nextFree (load Index (mem s) (slot a (m_nextFree a))) a);
        mem := mem s |})
  else if m_usedCapacity a <? m_capacity a then
    (Ret (m_usedCapacity a + 1),
     {| this := set_allocatedCount (m_allocatedCount a + 1)
                  (set_usedCapacity (m_usedCapacity a + 1) a);
        mem := mem s |})
  else (Throw bad_alloc, s).

(** The arena's buffer does not contain the address. *)
Definition outside (s : state A) (ptr : Z) : Prop :=
  ¬ (begin (this s) ≤ ptr < end_ Index (this s)).

(** What [reset] leaves of an arena. *)
Definition reset_of (a : t A) : t A :=
  set_usedCapacity 0 (set_allocatedCount 0 (set_nextFree 0 a)).

End ArrayArenaSpec.
End ArrayArenaSpec.

(** The embedded free list of the single-threaded arena. *)

Module FreeList.
Section FreeList.
Context {A : Type} `{Alloc A}.
Variable Index : IndexType.
Import ArrayArena ArrayArenaSpec.

(** The free list that starts at [head] and is threaded through the
    first bytes of the free slots is [free]. *)
Fixpoint chain (slot : Z → Z) (m : gmap Z Z) (head : Z) (free : list Z)
  : Prop :=
  match free with
  | [] => head = 0
  | h :: rest => head = h ∧ h ≠ 0 ∧ chain slot m (load Index m (slot h)) rest
  end.

(** An arena in use: consistent, over its buffer, with a positive
    element size, and with [free] as its free list, whose handles are
    distinct and within the high-water mark; the live elements and the
    free ones fit under the high-water mark. *)
Record well_formed (s : state A) (free : list Z) : Prop := {
  wf_consistent : consistent Index (this s);
  wf_buffer : buffer_held Index (this s);
  wf_size : 1 ≤ m_elementSizeInIndex (this s);
  wf_chain : chain (slot Index (this s)) (mem s) (m_nextFree (this s)) free;
  wf_nodup : NoDup free;
  wf_range : Forall (λ h, 1 ≤ h ≤ m_usedCapacity (this s)) free;
  wf_count : m_allocatedCount (this s) + Z.of_nat (length free)
             ≤ m_usedCapacity (this s)
}.

End FreeList.
End FreeList.

Module ArrayArenaMTSpec.
Section ArrayArenaMTSpec.
Context {A : Type} `{Alloc A}.
Variable Index : IndexType.
Variable INDEXED_DEBUG : bool.
Import ArrayArenaMT.

Definition free_list_empty (a : t A) : Prop :=
  to_Index Index (m_freeList a) = 0.

(** Calls on the arena other than [freeMemory] and [deallocate]. *)
Inductive call :=
  | Allocate (typeSize : Z)
  | Reset
  | SetCapacity (capacity : Z)
  | EnableDelete (enable : bool).

(** A run of calls, each on the state the call before it left: the
    outcomes of its [allocate] calls, in order, and the final state. *)
Fixpoint run (fuel : nat) (calls : list call) (s : state A)
  : list (outcome Z) * state A :=
  match calls with
  | [] => ([], s)
  | Allocate typeSize :: rest =>
      let '(r, s') := allocate Index INDEXED_DEBUG fuel typeSize s in
      let '(rs, s'') := run fuel rest s' in
      (r :: rs, s'')
  | Reset :: rest => run fuel rest (snd (reset Index INDEXED_DEBUG fuel s))
  | SetCapacity n :: rest => run fuel rest (snd (setCapacity Index n s))
  | EnableDelete b :: rest => run fuel rest (snd (enableDelete b s))
  end.

(** What [allocate] does on an arena without buffer, error flag or free
    slot and with room left: it bumps the high-water mark and calls the
    buffer source; the outcome is that of the source's [malloc]. *)
Definition allocate_acquiring (typeSize : Z) (s : state A)
  : outcome Z * state A :=
  let a := this s in
  let used := m_usedCapacity a + 1 in
  let words := typeSize / sizeof Index in
  match malloc (to_size_t (typeSize * m_capacity a)) (alloc a) with
  | (Ret _, a') =>
      (if INDEXED_DEBUG && negb (to_uint16 words =? words)
       then Abort else Ret used,
       {| this := set_elementSizeInIndex (to_uint16 words)
                    (set_alloc a' (set_usedCapacity used a));
          mem := mem s |})
  | (Throw e, a') =>
      (Throw e,
       {| this := set_isAllocError true (set_alloc a' a); mem := mem s |})
  | (Abort, a') =>
      (Abort,
       {| this := set_alloc a' (set_usedCapacity used a); mem := mem s |})
  | (Spin, a') =>
      (Spin,
       {| this := set_alloc a' (set_usedCapacity used a); mem := mem s |})
  | (Fault, a') =>
      (Fault,
       {| this := set_alloc a' (set_usedCapacity used a); mem := mem s |})
  end.

(** The state in which a failed buffer acquisition leaves the arena:
    error flag set, no buffer, no element size, empty free list. *)
Record latched (a : t A) : Prop := {
  latched_flag : m_isAllocError a = true;
  latched_begin : begin a = 0;
  latched_size : m_elementSizeInIndex a = 0;
  latched_list : free_list_empty a;
  latched_used : 0 ≤ m_usedCapacity a < 2 ^ bits Index
}.

End ArrayArenaMTSpec.
End ArrayArenaMTSpec.

(** ** Concrete arenas and configurations *)

Module Examples.

(** A [uint16_t] arena of capacity 4 over a caller-provided buffer at
    address 4096, with 8-byte elements: slots 1 to 3 handed out, slot 2
    released again. *)
Definition buf16 : BufAlloc.t :=
  {| BufAlloc.m_ptr := 4096; BufAlloc.m_bufBegin := 4096;
     BufAlloc.m_bufSize := 32 |}.

Definition arena16 : ArrayArena.state BufAlloc.t :=
  {| ArrayArena.this := ArrayArena.mk buf16 4 4 true 2 2 3;
     ArrayArena.mem := store uint16_t ∅ (4096 + 8) 0 |}.

(** A [uint32_t] arena of capacity [2^30 + 1] with 16-byte elements,
    every slot handed out; its buffer of 16 GiB + 16 bytes starts at
    address [0x10000000]. *)
Definition buf32 : BufAlloc.t :=
  {| BufAlloc.m_ptr := 0x10000000; BufAlloc.m_bufBegin := 0x10000000;
     BufAlloc.m_bufSize := 16 * (2 ^ 30 + 1) |}.

Definition arena32 : ArrayArena.state BufAlloc.t :=
  {| ArrayArena.this :=
       ArrayArena.mk buf32 (2 ^ 30 + 1) 4 true 0 (2 ^ 30 + 1) (2 ^ 30 + 1);
     ArrayArena.mem := ∅ |}.

(** [arena16] with deletion switched off. *)
Definition arena16_nodelete : ArrayArena.state BufAlloc.t :=
  {| ArrayArena.this := ArrayArena.mk buf16 4 4 false 0 3 3;
     ArrayArena.mem := ∅ |}.

(** [arena16] with one live element left. *)
Definition arena16_last : ArrayArena.state BufAlloc.t :=
  {| ArrayArena.this := ArrayArena.mk buf16 4 4 true 2 1 3;
     ArrayArena.mem := store uint16_t ∅ (4096 + 8) 0 |}.

(** A [uint16_t] arena as its constructor leaves it, over a buffer that
    has room for [2^14] elements of 8 bytes. *)
Definition fresh16 : ArrayArena.state BufAlloc.t :=
  {| ArrayArena.this := ArrayArena.init true (BufAlloc.make 4096 (8 * 2 ^ 14));
     ArrayArena.mem := ∅ |}.

(** [arena16] sized but not yet allocated from, over a large buffer. *)
Definition sized16 : ArrayArena.state BufAlloc.t :=
  {| ArrayArena.this :=
       ArrayArena.mk (BufAlloc.make 4096 (2 ^ 20)) 4 0 true 0 0 0;
     ArrayArena.mem := ∅ |}.

(** A multi-threaded [uint16_t] arena of capacity 4 whose caller-provided
    buffer has 16 bytes only. *)
Definition arenaMT16 : ArrayArenaMT.state BufAlloc.t :=
  {| ArrayArenaMT.this :=
       ArrayArenaMT.mk (BufAlloc.make 4096 16) 4 0 true false 0 0;
     ArrayArenaMT.mem := ∅ |}.

(** A multi-threaded arena in use, deletion switched off. *)
Definition arenaMT16_nodelete : ArrayArenaMT.state BufAlloc.t :=
  {| ArrayArenaMT.this := ArrayArenaMT.mk buf16 4 4 false false 0 3;
     ArrayArenaMT.mem := ∅ |}.

(** A [uint16_t] arena whose buffer of ten 8-byte elements lies on the
    stack, 256 bytes below the stack top, one element handed out; and
    the configurations of a thread whose stack top is [0x7fffff00]. *)
Definition arena16_on_stack : ArrayArena.state BufAlloc.t :=
  {| ArrayArena.this :=
       ArrayArena.mk {| BufAlloc.m_ptr := 0x7ffffe00;
                        BufAlloc.m_bufBegin := 0x7ffffe00;
                        BufAlloc.m_bufSize := 80 |}
                     10 4 true 0 1 1;
     ArrayArena.mem := ∅ |}.

Definition config16 : SingleArenaConfig.t :=
  {| SingleArenaConfig.arena := 0x5000;
     SingleArenaConfig.stackTop := 0x7fffff00 |}.

Definition uconfig16 : SingleArenaConfigUniversal.t :=
  {| SingleArenaConfigUniversal.arena := 0x5000;
     SingleArenaConfigUniversal.stackTop := 0x7fffff00;
     SingleArenaConfigUniversal.container := 0x6000 |}.

(** A [uint16_t] arena of capacity [2^14], every slot handed out. *)
Definition arena16_full : ArrayArena.state BufAlloc.t :=
  {| ArrayArena.this :=
       ArrayArena.mk {| BufAlloc.m_ptr := 0x100000;
                        BufAlloc.m_bufBegin := 0x100000;
                        BufAlloc.m_bufSize := 8 * 2 ^ 14 |}
                     (2 ^ 14) 4 true 0 (2 ^ 14) (2 ^ 14);
     ArrayArena.mem := ∅ |}.

(** [arenaMT16] after its first [allocate] failed in the buffer source. *)
Definition arenaMT16_latched : ArrayArenaMT.state BufAlloc.t :=
  {| ArrayArenaMT.this :=
       ArrayArenaMT.mk (BufAlloc.make 4096 16) 4 0 true true 0 0;
     ArrayArenaMT.mem := ∅ |}.

(** The scenarios of the specification, run on a heap source whose
    [new] returns the address [0x10000]: the outcomes of the [allocate]
    calls, then [allocatedCount] (where there is one) and
    [usedCapacity]. *)
Definition heap : NewAlloc.t :=
  {| NewAlloc.m_memBlock := 0; NewAlloc.operator_new := λ _, Some 0x10000 |}.

Definition slab_round_trip : list (outcome Z) * (Z * Z) :=
  let s0 := snd (ArrayArena.construct uint32_t 10 true heap ∅) in
  let a := ArrayArena.allocate uint32_t true 16 s0 in
  let b := ArrayArena.allocate uint32_t true 16 (snd a) in
  let c := ArrayArena.allocate uint32_t true 16 (snd b) in
  let s := snd (ArrayArena.deallocate uint32_t true 2 16 (snd c)) in
  let d := ArrayArena.allocate uint32_t true 16 s in
  ([fst a; fst b; fst c; fst d],
   (ArrayArena.allocatedCount (ArrayArena.this (snd d)),
    ArrayArena.usedCapacity (ArrayArena.this (snd d)))).

Definition auto_reset_scenario : list (outcome Z) * (Z * Z) :=
  let s0 := snd (ArrayArena.construct uint32_t 4 true heap ∅) in
  let a := ArrayArena.allocate uint32_t true 16 s0 in
  let b := ArrayArena.allocate uint32_t true 16 (snd a) in
  let c := ArrayArena.allocate uint32_t true 16 (snd b) in
  let s1 := snd (ArrayArena.deallocate uint32_t true 1 16 (snd c)) in
  let s2 := snd (ArrayArena.deallocate uint32_t true 2 16 s1) in
  let s3 := snd (ArrayArena.deallocate uint32_t true 3 16 s2) in
  let d := ArrayArena.allocate uint32_t true 16 s3 in
  ([fst a; fst b; fst c; fst d],
   (ArrayArena.allocatedCount (ArrayArena.this s3),
    ArrayArena.usedCapacity (ArrayArena.this s3))).

Definition delete_disabled_bump : list (outcome Z) * (Z * Z) :=
  let s0 := snd (ArrayArena.construct uint32_t 4 false heap ∅) in
  let a := ArrayArena.allocate uint32_t true 16 s0 in
  let b := ArrayArena.allocate uint32_t true 16 (snd a) in
  let c := ArrayArena.allocate uint32_t true 16 (snd b) in
  let d := ArrayArena.allocate uint32_t true 16 (snd c) in
  let s := snd (ArrayArena.deallocate uint32_t true 2 16 (snd d)) in
  let e := ArrayArena.allocate uint32_t true 16 s in
  ([fst a; fst b; fst c; fst d; fst e],
   (ArrayArena.allocatedCount (ArrayArena.this (snd e)),
    ArrayArena.usedCapacity (ArrayArena.this (snd e)))).

(** The first scenario on the multi-threaded arena, one call at a time,
    each retry loop with fuel for a single round. *)
Definition slab_round_trip_MT : list (outcome Z) * (Z * Z) :=
  let s0 := snd (ArrayArenaMT.construct uint32_t 10 true heap ∅) in
  let a := ArrayArenaMT.allocate uint32_t true 1 16 s0 in
  let b := ArrayArenaMT.allocate uint32_t true 1 16 (snd a) in
  let c := ArrayArenaMT.allocate uint32_t true 1 16 (snd b) in
  let s := snd (ArrayArenaMT.deallocate uint32_t true 1 2 16 (snd c)) in
  let d := ArrayArenaMT.allocate uint32_t true 1 16 s in
  ([fst a; fst b; fst c; fst d],
   (ArrayArenaMT.m_freeList (ArrayArenaMT.this (snd d)),
    ArrayArenaMT.usedCapacity (ArrayArenaMT.this (snd d)))).

(** A multi-threaded [uint16_t] arena of capacity 4 with 8-byte
    elements: slots 1 to 3 handed out, slot 2 released again. *)
Definition arenaMT16_released : ArrayArenaMT.state BufAlloc.t :=
  {| ArrayArenaMT.this :=
       ArrayArenaMT.mk buf16 4 4 true false (2 ^ 16 + 2) 3;
     ArrayArenaMT.mem := store uint16_t ∅ (4096 + 8) 0 |}.

(** The calls that lead to it, over a caller-provided buffer of 32
    bytes at address 4096. *)
Definition release_slot_2 (debug : bool) : ArrayArenaMT.state BufAlloc.t :=
  let s0 := snd (ArrayArenaMT.construct uint16_t 4 true
                   (BufAlloc.make 4096 32) ∅) in
  let a := ArrayArenaMT.allocate uint16_t debug 1 8 s0 in
  let b := ArrayArenaMT.allocate uint16_t debug 1 8 (snd a) in
  let c := ArrayArenaMT.allocate uint16_t debug 1 8 (snd b) in
  snd (ArrayArenaMT.deallocate uint16_t debug 1 2 8 (snd c)).

End Examples.

(** The multi-threaded arena in use. *)

Module ArrayArenaMTInUse.
Section ArrayArenaMTInUse.
Context {A : Type} `{Alloc A}.
Variable Index : IndexType.
Import ArrayArenaMT.

(** The fields hold values of their C++ types, the buffer is acquired
    and lies in the address space, the element size is positive, and
    the high-water mark is within the capacity. *)
Record in_use (a : t A) : Prop := {
  capacity_bound : 0 ≤ m_capacity a < 2 ^ (bits Index - 1);
  size_bound : 1 ≤ m_elementSizeInIndex a < 2 ^ 16;
  used_bound : 0 ≤ m_usedCapacity a ≤ m_capacity a;
  head_bound : 0 ≤ m_freeList a < 2 ^ (2 * bits Index);
  buffer_begin : 0 < begin a;
  buffer_end : begin a + elementSize Index a * m_capacity a < 2 ^ 64
}.

(** Slot [h] starts [(h-1)·elementSize] bytes into the buffer. *)
Definition slot (a : t A) (h : Z) : Z :=
  begin a + (h - 1) * elementSize Index a.

(** The two halves of the head word. *)
Definition head_index (a : t A) : Z := m_freeList a mod 2 ^ bits Index.
Definition head_stamp (a : t A) : Z := m_freeList a / 2 ^ bits Index.

(** The head word for a stamp and an index. *)
Definition head_word (stamp index : Z) : Z :=
  stamp mod 2 ^ bits Index * 2 ^ bits Index + index.

End ArrayArenaMTInUse.
End ArrayArenaMTInUse.

(** ** [Pointer] and [Allocator] (Pointer.h, Allocator.h)

    Both are instantiated with the simple encoding as [ArenaConfig], as
    in the pointer tests; the arena the allocator points to is the one
    of the state. *)

Module Pointer.
Section Pointer.
Context {A : Type} `{Alloc A}.
Variable Index : IndexType.
Variable INDEXED_DEBUG : bool.
Variable kNodeAlignment : Z.

(** [VoidPointer::m_index] *)
Record t := { m_index : Z }.

(** [Pointer(nullptr)] and [Pointer(index)] *)
Definition null : t := {| m_index := 0 |}.
Definition of_index (index : Z) : t := {| m_index := index |}.

(** [Pointer::pointer_to(ref)], on the address of [ref] *)
Definition pointer_to (c : SingleArenaConfig.t) (ref : Z)
  : comp (ArrayArena.state A) t :=
  (index <- SingleArenaConfig.pointer_to Index INDEXED_DEBUG kNodeAlignment
              c ref;;
   ret (of_index index))%comp.

(** [operator->] *)
Definition arrow (c : SingleArenaConfig.t) (p : t)
  : comp (ArrayArena.state A) Z :=
  SingleArenaConfig.getElement Index INDEXED_DEBUG kNodeAlignment c
    (m_index p).

(** [explicit operator bool], [get], [operator==], [operator!=] *)
Definition to_bool (p : t) : bool := negb (m_index p =? 0).
Definition get (p : t) : Z := m_index p.
Definition eqb (left right : t) : bool := m_index left =? m_index right.
Definition neqb (left right : t) : bool := negb (eqb left right).

End Pointer.
End Pointer.

Module Allocator.
Section Allocator.
Context {A : Type} `{Alloc A}.
Variable Index : IndexType.
Variable INDEXED_DEBUG : bool.

(** [Allocator<Type>::allocate(n)], with [sizeofType = sizeof(Type)] *)
Definition allocate (sizeofType n : Z)
  : comp (ArrayArena.state A) Pointer.t :=
  (indexed_assert INDEXED_DEBUG (n =? 1);;;
   index <- ArrayArena.allocate Index INDEXED_DEBUG sizeofType;;
   ret (Pointer.of_index index))%comp.

(** [Allocator<Type>::deallocate(ptr, n)] *)
Definition deallocate (sizeofType : Z) (ptr : Pointer.t) (n : Z)
  : comp (ArrayArena.state A) unit :=
  ArrayArena.deallocate Index INDEXED_DEBUG (Pointer.get ptr) sizeofType.

End Allocator.
End Allocator.

(** Further states for the properties beyond the specification. *)
Module MoreExamples.

(** A sized [uint16_t] arena whose caller-provided buffer has 16 bytes
    only. *)
Definition sized16_small : ArrayArena.state BufAlloc.t :=
  {| ArrayArena.this :=
       ArrayArena.mk (BufAlloc.make 4096 16) 4 0 true 0 0 0;
     ArrayArena.mem := ∅ |}.

(** A multi-threaded arena in use, three slots handed out, none
    released. *)
Definition arenaMT16_in_use : ArrayArenaMT.state BufAlloc.t :=
  {| ArrayArenaMT.this := ArrayArenaMT.mk Examples.buf16 4 4 true false 0 3;
     ArrayArenaMT.mem := ∅ |}.

End MoreExamples.

(** * Properties *)

(** ** The scenarios of the specification *)

Example slab_round_trip_runs :
  Examples.slab_round_trip = ([Ret 1; Ret 2; Ret 3; Ret 2], (3, 3)).
Proof. vm_compute. reflexivity. Qed.

Example auto_reset_scenario_runs :
  Examples.auto_reset_scenario = ([Ret 1; Ret 2; Ret 3; Ret 1], (0, 0)).
Proof. vm_compute. reflexivity. Qed.

Example delete_disabled_bump_runs :
  Examples.delete_disabled_bump
  = ([Ret 1; Ret 2; Ret 3; Ret 4; Throw bad_alloc], (3, 4)).
Proof. vm_compute. reflexivity. Qed.

(** The head word ends as stamp 2, index 0. *)
Example slab_round_trip_MT_runs :
  Examples.slab_round_trip_MT
  = ([Ret 1; Ret 2; Ret 3; Ret 2], (2 * 2 ^ 32, 3)).
Proof. vm_compute. reflexivity. Qed.

(** ** Arithmetic of the machine integers *)

Lemma pow2_bits k : 2 ^ bits k = 2 * 2 ^ (bits k - 1).
Proof. destruct k; reflexivity. Qed.

Lemma pow2_bits_le k : 2 ^ bits k ≤ 2 ^ 32.
Proof. destruct k; simpl; lia. Qed.

Lemma to_Index_small k x : 0 ≤ x < 2 ^ bits k → to_Index k x = x.
Proof. intros. unfold to_Index. apply Z.mod_small; lia. Qed.

Lemma to_size_t_small x : 0 ≤ x < 2 ^ 64 → to_size_t x = x.
Proof. intros. unfold to_size_t. apply Z.mod_small; lia. Qed.

Lemma index_minus_1_small k h : 1 ≤ h < 2 ^ bits k → index_minus_1 k h = h - 1.
Proof.
  intros Hh. pose proof (pow2_bits_le k).
  destruct k; unfold index_minus_1, to_size_t, to_uint32; simpl in *;
    apply Z.mod_small; lia.
Qed.

(** Closed arithmetic facts about concrete states. *)
Ltac compute_Z :=
  vm_compute; repeat split; try reflexivity; try (intro; discriminate).


Lemma indexed_assert_holds {S} debug (s : S) :
  indexed_assert debug true s = (Ret tt, s).
Proof. unfold indexed_assert. rewrite andb_false_r. reflexivity. Qed.

Lemma indexed_assert_release {S} c (s : S) :
  indexed_assert false c s = (Ret tt, s).
Proof. reflexivity. Qed.

Section ArrayArenaProperties.
Context {A : Type} `{Alloc A}.
Variable Index : IndexType.
Variable INDEXED_DEBUG : bool.
Import ArrayArena ArrayArenaSpec.

Lemma elementSize_eq (a : t A) :
  0 ≤ m_elementSizeInIndex a < 2 ^ 16 →
  elementSize Index a = m_elementSizeInIndex a * sizeof Index.
Proof.
  intros. unfold elementSize. apply to_size_t_small.
  destruct Index; simpl; lia.
Qed.

Lemma getElementInt_slot (s : state A) h :
  consistent Index (this s) → buffer_held Index (this s) →
  1 ≤ h ≤ m_usedCapacity (this s) →
  getElementInt Index INDEXED_DEBUG h (elementSize Index (this s)) s
  = (Ret (slot Index (this s) h), s).
Proof.
  intros Hc [Hb Hfit] Hh. destruct Hc.
  pose proof (pow2_bits Index).
  assert (Hsz : 0 ≤ elementSize Index (this s)).
  { rewrite elementSize_eq by done. destruct Index; simpl; lia. }
  unfold getElementInt, bind, get, ret.
  replace ((0 <? h) && (h <=? m_usedCapacity (this s))) with true
    by (symmetry; apply andb_true_iff; split; [apply Z.ltb_lt | apply Z.leb_le]; lia).
  rewrite indexed_assert_holds.
  rewrite index_minus_1_small by lia.
  assert (0 ≤ elementSize Index (this s) * (h - 1)) by (apply Z.mul_nonneg_nonneg; lia).
  assert (elementSize Index (this s) * (h - 1)
          ≤ elementSize Index (this s) * m_capacity (this s))
    by (apply Z.mul_le_mono_nonneg_l; lia).
  rewrite (to_size_t_small (_ * _)) by lia.
  rewrite to_size_t_small by lia.
  unfold slot. do 2 f_equal. lia.
Qed.

(** On a consistent arena over its buffer, [allocate] of the locked size
    is the specification's algorithm. *)
(** The slots of a held buffer are not null. *)
Lemma slot_pos (a : t A) h :
  consistent Index a → buffer_held Index a → 1 ≤ h → 0 < slot Index a h.
Proof.
  intros Hc [Hb _] Hh. destruct Hc. unfold slot.
  assert (0 ≤ elementSize Index a).
  { rewrite elementSize_eq by done. destruct Index; simpl; lia. }
  assert (0 ≤ (h - 1) * elementSize Index a)
    by (apply Z.mul_nonneg_nonneg; lia).
  lia.
Qed.

Lemma read_nonnull (s : state A) p :
  p ≠ 0 → read Index p s = (Ret (load Index (mem s) p), s).
Proof. intros Hp. unfold read. apply Z.eqb_neq in Hp. rewrite Hp. reflexivity. Qed.

Lemma write_nonnull (s : state A) p v :
  p ≠ 0 →
  write Index p v s
  = (Ret tt, {| this := this s; mem := store Index (mem s) p v |}).
Proof. intros Hp. unfold write. apply Z.eqb_neq in Hp. rewrite Hp. reflexivity. Qed.

Lemma allocate_locked (s : state A) :
  consistent Index (this s) →
  buffer_held Index (this s) →
  allocate Index INDEXED_DEBUG (elementSize Index (this s)) s
  = allocate_spec Index s.
Proof.
  intros Hc Hb.
  pose proof Hc as [Hcap HE Hused Hcount Hfree].
  pose proof (pow2_bits Index) as Hp.
  unfold allocate, allocate_spec.
  unfold bind at 1. unfold get at 1.
  unfold bind at 1. rewrite Z.eqb_refl, orb_true_l, indexed_assert_holds.
  destruct (m_nextFree (this s) =? 0) eqn:Hnf; cbn [negb].
  - apply Z.eqb_eq in Hnf.
    assert (Hne : (begin (this s) =? 0) = false)
      by (apply Z.eqb_neq; destruct Hb; lia).
    destruct (m_usedCapacity (this s) <? m_capacity (this s)) eqn:Hlt.
    + apply Z.ltb_lt in Hlt.
      assert (Hneq : (m_usedCapacity (this s) =? m_capacity (this s)) = false)
        by (apply Z.eqb_neq; lia).
      unfold bind, when, update, get, ret. rewrite Hneq, Hne. cbn.
      rewrite !to_Index_small by lia. reflexivity.
    + apply Z.ltb_ge in Hlt.
      assert (Heq : (m_usedCapacity (this s) =? m_capacity (this s)) = true)
        by (apply Z.eqb_eq; lia).
      unfold bind, when, throw. rewrite Heq. reflexivity.
  - apply Z.eqb_neq in Hnf.
    unfold bind at 1. unfold bind at 1.
    rewrite getElementInt_slot by (auto; lia).
    unfold bind at 1.
    rewrite read_nonnull
      by (pose proof (slot_pos (this s) (m_nextFree (this s)) Hc Hb); lia).
    unfold bind, update, ret. cbn.
    rewrite to_Index_small by lia. reflexivity.
Qed.

(** C1. On a consistent arena that holds its buffer, [allocate] of the
    locked element size is the specification's algorithm: pop the free
    list when it is not empty, reading the successor from the first
    bytes of the slot; otherwise bump the high-water mark when it is
    below the capacity; otherwise throw [bad_alloc]. It throws
    [bad_alloc] exactly when the free list is empty and the high-water
    mark equals the capacity. *)
Theorem allocate_follows_spec (s : state A) (typeSize : Z) :
  consistent Index (this s) →
  buffer_held Index (this s) →
  typeSize = elementSize Index (this s) →
  allocate Index INDEXED_DEBUG typeSize s = allocate_spec Index s
  ∧ (fst (allocate Index INDEXED_DEBUG typeSize s) = Throw bad_alloc
     ↔ m_nextFree (this s) = 0 ∧ m_usedCapacity (this s) = m_capacity (this s)).
Proof.
  intros Hc Hb ->.
  split; [apply allocate_locked; assumption |].
  rewrite allocate_locked by assumption.
  unfold allocate_spec. destruct Hc.
  destruct (m_nextFree (this s) =? 0) eqn:Hnf; cbn [negb].
  - apply Z.eqb_eq in Hnf.
    destruct (m_usedCapacity (this s) <? m_capacity (this s)) eqn:Hlt; cbn.
    + apply Z.ltb_lt in Hlt. split; [discriminate | lia].
    + apply Z.ltb_ge in Hlt. split; [intros _; lia | reflexivity].
  - apply Z.eqb_neq in Hnf. cbn. split; [discriminate | tauto].
Qed.

End ArrayArenaProperties.

(** The theorem at a concrete arena: the pop branch. *)
Lemma allocate_follows_spec_witness :
  ArrayArena.allocate uint16_t true 8 Examples.arena16
  = ArrayArenaSpec.allocate_spec uint16_t Examples.arena16
  ∧ (fst (ArrayArena.allocate uint16_t true 8 Examples.arena16)
     = Throw bad_alloc
     ↔ ArrayArena.m_nextFree (ArrayArena.this Examples.arena16) = 0
       ∧ ArrayArena.m_usedCapacity (ArrayArena.this Examples.arena16)
         = ArrayArena.m_capacity (ArrayArena.this Examples.arena16)).
Proof.
  apply allocate_follows_spec.
  - constructor; compute_Z.
  - compute_Z.
  - reflexivity.
Defined.

(** ** Handles and addresses of the single-threaded arena *)

Section HandleRoundTrip.
Context {A : Type} `{Alloc A}.
Variable Index : IndexType.
Variable INDEXED_DEBUG : bool.
Import ArrayArena ArrayArenaSpec.

Lemma sizeof_pos : 0 < sizeof Index.
Proof. destruct Index; reflexivity. Qed.

(** The round trip holds as long as the slot's offset, counted in index
    words, fits the 32-bit quotient of [pointer_to]. *)
Lemma pointer_to_getElement (s : state A) (h : Z) :
  consistent Index (this s) → buffer_held Index (this s) →
  1 ≤ h ≤ m_usedCapacity (this s) →
  1 ≤ m_elementSizeInIndex (this s) →
  m_elementSizeInIndex (this s) * (h - 1) < 2 ^ 32 →
  getElement Index INDEXED_DEBUG h s = (Ret (slot Index (this s) h), s)
  ∧ pointer_to Index INDEXED_DEBUG (slot Index (this s) h) s = (Ret h, s).
Proof.
  intros Hc Hb Hh HE H32. split.
  - unfold getElement, bind, get. apply getElementInt_slot; assumption.
  - pose proof Hc as [Hcap HE16 Hused Hcount Hfree].
    destruct Hb as [Hb Hfit].
    pose proof sizeof_pos as HS. pose proof (pow2_bits Index) as Hp.
    rewrite elementSize_eq in Hfit by assumption.
    remember (m_elementSizeInIndex (this s)) as E eqn:HeqE.
    assert (Hoff : slot Index (this s) h - begin (this s)
                   = (h - 1) * E * sizeof Index).
    { unfold slot. rewrite elementSize_eq, <- HeqE by (rewrite <- HeqE; assumption). ring. }
    assert (0 ≤ (h - 1) * E) by (apply Z.mul_nonneg_nonneg; lia).
    assert ((h - 1) * E ≤ m_capacity (this s) * E)
      by (apply Z.mul_le_mono_nonneg_r; lia).
    assert ((h - 1) * E * sizeof Index ≤ E * sizeof Index * m_capacity (this s))
      by (replace (E * sizeof Index * m_capacity (this s))
            with (m_capacity (this s) * E * sizeof Index) by ring;
          apply Z.mul_le_mono_nonneg_r; lia).
    assert (0 ≤ (h - 1) * E * sizeof Index)
      by (apply Z.mul_nonneg_nonneg; lia).
    unfold pointer_to, bind, get, ret. rewrite <- HeqE.
    rewrite Hoff, (to_size_t_small ((h - 1) * E * sizeof Index)) by lia.
    rewrite Z.div_mul by lia.
    unfold to_uint32. rewrite (Z.mod_small ((h - 1) * E)) by lia.
    rewrite Z.div_mul by lia.
    rewrite (to_Index_small Index (h - 1)) by lia.
    rewrite elementSize_eq, <- HeqE by (rewrite <- HeqE; assumption).
    replace (E * sizeof Index * (h - 1)) with ((h - 1) * E * sizeof Index)
      by ring.
    rewrite to_size_t_small, Z.eqb_refl, indexed_assert_holds by lia.
    replace (h - 1 + 1) with h by ring.
    rewrite to_Index_small by lia. reflexivity.
Qed.

End HandleRoundTrip.

(** X6. With 16-bit handles the offset always fits. *)
Lemma pointer_to_getElement_uint16 {A : Type} `{Alloc A}
    (debug : bool) (s : ArrayArena.state A) (h : Z) :
  ArrayArenaSpec.consistent uint16_t (ArrayArena.this s) →
  ArrayArenaSpec.buffer_held uint16_t (ArrayArena.this s) →
  1 ≤ h ≤ ArrayArena.m_usedCapacity (ArrayArena.this s) →
  1 ≤ ArrayArena.m_elementSizeInIndex (ArrayArena.this s) →
  ArrayArena.pointer_to uint16_t debug
    (ArrayArenaSpec.slot uint16_t (ArrayArena.this s) h) s = (Ret h, s).
Proof.
  intros Hc Hb Hh HE. apply pointer_to_getElement; try assumption.
  destruct Hc as [Hcap HE16 Hused _ _]. simpl in Hcap.
  assert (ArrayArena.m_elementSizeInIndex (ArrayArena.this s) * (h - 1)
          ≤ 2 ^ 16 * (h - 1)) by (apply Z.mul_le_mono_nonneg_r; lia).
  lia.
Qed.

(** C2 (code defect). With 32-bit handles the quotient of [pointer_to] is
    cut to 32 bits: in a [uint32_t] arena of capacity [2^30 + 1] with
    16-byte elements, the valid handle [2^30 + 1] is decoded to its
    slot's address and that address is encoded as handle [1]; a debug
    build stops at the assertion of [pointer_to] instead. *)
Theorem pointer_to_getElement_truncates :
  let s := Examples.arena32 in
  let h := 2 ^ 30 + 1 in
  ArrayArenaSpec.consistent uint32_t (ArrayArena.this s)
  ∧ ArrayArenaSpec.buffer_held uint32_t (ArrayArena.this s)
  ∧ 1 ≤ h ≤ ArrayArena.m_usedCapacity (ArrayArena.this s)
  ∧ ArrayArena.getElement uint32_t false h s = (Ret (0x10000000 + 2 ^ 34), s)
  ∧ ArrayArena.pointer_to uint32_t false (0x10000000 + 2 ^ 34) s = (Ret 1, s)
  ∧ ArrayArena.getElement uint32_t true h s = (Ret (0x10000000 + 2 ^ 34), s)
  ∧ ArrayArena.pointer_to uint32_t true (0x10000000 + 2 ^ 34) s = (Abort, s).
Proof.
  cbv zeta. split; [constructor; compute_Z |].
  split; [compute_Z |]. split; [compute_Z |].
  repeat split; vm_compute; reflexivity.
Qed.

(** ** Life cycle of the single-threaded arena *)

Section Lifecycle.
Context {A : Type} `{Alloc A}.
Variable Index : IndexType.
Variable INDEXED_DEBUG : bool.
Import ArrayArena ArrayArenaSpec.

Lemma reset_eq (s : state A) :
  reset INDEXED_DEBUG s = (Ret tt, {| this := reset_of (this s); mem := mem s |}).
Proof. reflexivity. Qed.

Lemma deallocate_last (s : state A) (h typeSize : Z) :
  to_Index Index (m_allocatedCount (this s) - 1) = 0 →
  deallocate Index INDEXED_DEBUG h typeSize s
  = (Ret tt, {| this := reset_of (this s); mem := mem s |}).
Proof.
  intros Hz. unfold deallocate, bind, update, get. cbn.
  rewrite Hz. reflexivity.
Qed.

(** C3. A [deallocate] that brings the live count to zero resets the
    arena at once: the high-water mark and the free-list head are 0, the
    memory is untouched, and the next [allocate] of the locked size on
    the held buffer returns handle 1 when the capacity is at least 1. *)
Theorem auto_reset (s : state A) (h typeSize typeSize' : Z) :
  to_Index Index (m_allocatedCount (this s) - 1) = 0 →
  1 ≤ m_capacity (this s) →
  begin (this s) ≠ 0 →
  typeSize' = elementSize Index (this s) →
  ∃ s', deallocate Index INDEXED_DEBUG h typeSize s = (Ret tt, s')
        ∧ m_usedCapacity (this s') = 0
        ∧ m_nextFree (this s') = 0
        ∧ m_allocatedCount (this s') = 0
        ∧ mem s' = mem s
        ∧ fst (allocate Index INDEXED_DEBUG typeSize' s') = Ret 1.
Proof.
  intros Hz Hcap Hb ->.
  exists {| this := reset_of (this s); mem := mem s |}.
  split; [apply deallocate_last; assumption |].
  repeat split.
  unfold allocate, bind, get. cbn [this mem].
  change (elementSize Index (reset_of (this s)))
    with (elementSize Index (this s)).
  rewrite Z.eqb_refl, orb_true_l, indexed_assert_holds.
  change (m_nextFree (reset_of (this s))) with 0.
  change (m_usedCapacity (reset_of (this s))) with 0.
  change (m_capacity (reset_of (this s))) with (m_capacity (this s)).
  change (begin (reset_of (this s))) with (begin (this s)).
  change (negb (0 =? 0)) with false. cbv iota.
  replace (0 =? m_capacity (this s)) with false
    by (symmetry; apply Z.eqb_neq; lia).
  replace (begin (this s) =? 0) with false
    by (symmetry; apply Z.eqb_neq; assumption).
  unfold when, bind, ret, update, get.
  cbn. f_equal. destruct Index; reflexivity.
Qed.

(** C4, as amended. With deletion off, [deallocate] of the
    multi-threaded arena leaves the whole state as it is; that of the
    single-threaded arena never writes the slot or the free-list head,
    but it still decrements the live count and resets the arena when
    the count reaches zero. *)
Theorem deallocate_delete_disabled :
  (∀ (s : ArrayArenaMT.state A) (fuel : nat) (h typeSize : Z),
     ArrayArenaMT.m_doDelete (ArrayArenaMT.this s) = false →
     ArrayArenaMT.deallocate Index INDEXED_DEBUG fuel h typeSize s
     = (Ret tt, s))
  ∧ (∀ (s : state A) (h typeSize : Z),
       m_doDelete (this s) = false →
       deallocate Index INDEXED_DEBUG h typeSize s
       = (Ret tt,
          {| this :=
               if to_Index Index (m_allocatedCount (this s) - 1) =? 0
               then reset_of (this s)
               else set_allocatedCount
                      (to_Index Index (m_allocatedCount (this s) - 1))
                      (this s);
             mem := mem s |})).
Proof.
  split.
  - intros s fuel h typeSize Hd.
    unfold ArrayArenaMT.deallocate, bind, get, when. rewrite Hd. reflexivity.
  - intros s h typeSize Hd.
    unfold deallocate, bind, update, get. cbn.
    destruct (to_Index Index (m_allocatedCount (this s) - 1) =? 0).
    + reflexivity.
    + rewrite Hd. reflexivity.
Qed.

(** C5, as amended. [setCapacity] of either arena throws [length_error]
    for every capacity from [2^(W-1)] on and accepts every smaller one
    while no buffer is held; no other bound is checked. *)
Theorem setCapacity_bound :
  (∀ (s : state A) (n : Z),
     (2 ^ (bits Index - 1) ≤ n →
      setCapacity Index n s = (Throw length_error, s))
     ∧ (0 ≤ n < 2 ^ (bits Index - 1) → begin (this s) = 0 →
        setCapacity Index n s
        = (Ret tt, {| this := set_capacity n (this s); mem := mem s |})))
  ∧ (∀ (s : ArrayArenaMT.state A) (n : Z),
       (2 ^ (bits Index - 1) ≤ n →
        ArrayArenaMT.setCapacity Index n s = (Throw length_error, s))
       ∧ (0 ≤ n < 2 ^ (bits Index - 1) →
          ArrayArenaMT.begin (ArrayArenaMT.this s) = 0 →
          ArrayArenaMT.setCapacity Index n s
          = (Ret tt, {| ArrayArenaMT.this :=
                          ArrayArenaMT.set_capacity n (ArrayArenaMT.this s);
                        ArrayArenaMT.mem := ArrayArenaMT.mem s |}))).
Proof.
  assert (Hflag : Z.shiftl 1 (sizeof Index * 8 - 1) = 2 ^ (bits Index - 1))
    by (destruct Index; reflexivity).
  pose proof (pow2_bits Index) as Hp.
  split; intros s n; split.
  - intros Hn. unfold setCapacity, bind, get, when, throw. rewrite Hflag.
    replace (2 ^ (bits Index - 1) <=? n) with true
      by (symmetry; apply Z.leb_le; assumption).
    reflexivity.
  - intros Hn Hb. unfold setCapacity, bind, get, when, ret, update.
    rewrite Hflag, Hb.
    replace (2 ^ (bits Index - 1) <=? n) with false
      by (symmetry; apply Z.leb_gt; lia).
    cbn. rewrite to_Index_small by lia. reflexivity.
  - intros Hn.
    unfold ArrayArenaMT.setCapacity, bind, get, when, throw. rewrite Hflag.
    replace (2 ^ (bits Index - 1) <=? n) with true
      by (symmetry; apply Z.leb_le; assumption).
    reflexivity.
  - intros Hn Hb.
    unfold ArrayArenaMT.setCapacity, bind, get, when, ret, ArrayArenaMT.update.
    rewrite Hflag, Hb.
    replace (2 ^ (bits Index - 1) <=? n) with false
      by (symmetry; apply Z.leb_gt; lia).
    cbn. rewrite to_Index_small by lia. reflexivity.
Qed.

(** The first [allocate]: the buffer is acquired and the element size is
    stored as a 16-bit count of index words. *)
Lemma allocate_first (s : state A) (typeSize : Z) (a' : A) :
  unlocked (this s) →
  m_usedCapacity (this s) ≠ m_capacity (this s) →
  typeSize mod sizeof Index = 0 →
  malloc (to_size_t (typeSize * m_capacity (this s))) (alloc (this s))
  = (Ret tt, a') →
  allocate Index INDEXED_DEBUG typeSize s
  = (Ret (to_Index Index (m_usedCapacity (this s) + 1)),
     {| this :=
          set_allocatedCount (to_Index Index (m_allocatedCount (this s) + 1))
            (set_usedCapacity (to_Index Index (m_usedCapacity (this s) + 1))
               (set_elementSizeInIndex (to_uint16 (typeSize / sizeof Index))
                  (set_alloc a' (this s))));
        mem := mem s |}).
Proof.
  intros (Hb & HE & Hnf) Hused Hmod Hmalloc.
  unfold allocate, bind, get.
  replace (elementSize Index (this s)) with 0
    by (unfold elementSize; rewrite HE; reflexivity).
  rewrite Z.eqb_refl, orb_true_r, indexed_assert_holds.
  rewrite Hnf. cbn [Z.eqb negb].
  unfold when, bind.
  replace (m_usedCapacity (this s) =? m_capacity (this s)) with false
    by (symmetry; apply Z.eqb_neq; assumption).
  unfold ret at 1. rewrite Hb. cbn [Z.eqb].
  rewrite Hmod. cbn [Z.eqb]. rewrite indexed_assert_holds.
  unfold Alloc_malloc. rewrite Hmalloc.
  unfold update, get, ret. cbn [this mem]. reflexivity.
Qed.

(** C9. The first successful [allocate(typeSize)] stores
    [typeSize / sizeof(Index)] cut to 16 bits: [elementSize()] is that
    count times [sizeof(Index)], and it equals [typeSize], a multiple of
    [sizeof(Index)] as [allocate] requires, exactly when
    [typeSize / sizeof(Index) < 2^16]. *)
Theorem elementSize_after_first_allocate
    (s : state A) (typeSize : Z) (a' : A) :
  unlocked (this s) →
  m_usedCapacity (this s) ≠ m_capacity (this s) →
  0 ≤ typeSize →
  typeSize mod sizeof Index = 0 →
  malloc (to_size_t (typeSize * m_capacity (this s))) (alloc (this s))
  = (Ret tt, a') →
  ∃ h s', allocate Index INDEXED_DEBUG typeSize s = (Ret h, s')
          ∧ elementSize Index (this s')
            = (typeSize / sizeof Index) mod 2 ^ 16 * sizeof Index
          ∧ (elementSize Index (this s') = typeSize
             ↔ typeSize / sizeof Index < 2 ^ 16).
Proof.
  intros Hun Hused Hts Hmod Hmalloc.
  pose proof (sizeof_pos Index) as HS.
  set (q := typeSize / sizeof Index).
  assert (Hq : typeSize = q * sizeof Index).
  { unfold q. rewrite (Z.div_mod typeSize (sizeof Index)) at 1 by lia.
    rewrite Hmod. ring. }
  assert (Hq0 : 0 ≤ q) by (apply Z.div_pos; lia).
  assert (Hsz : ∀ a : t A,
             m_elementSizeInIndex a = to_uint16 q →
             elementSize Index a = q mod 2 ^ 16 * sizeof Index).
  { intros a Ha. unfold elementSize. rewrite Ha. unfold to_uint16.
    apply to_size_t_small.
    pose proof (Z.mod_pos_bound q (2 ^ 16) ltac:(lia)).
    destruct Index; simpl; lia. }
  eexists _, _. split; [| split].
  - apply allocate_first; eassumption.
  - apply Hsz. reflexivity.
  - rewrite Hsz by reflexivity. rewrite Hq at 1. split.
    + intros Heq. apply Z.mul_cancel_r in Heq; [| lia].
      pose proof (Z.mod_pos_bound q (2 ^ 16) ltac:(lia)). lia.
    + intros Hlt. rewrite Z.mod_small by lia. reflexivity.
Qed.

End Lifecycle.

(** ** The embedded free list: memory and invariant *)

Lemma load_byte_insert_eq (m : gmap Z Z) (p v : Z) :
  load_byte (<[p := v]> m) p = v.
Proof. unfold load_byte. rewrite lookup_insert_eq. reflexivity. Qed.

Lemma load_byte_insert_ne (m : gmap Z Z) (p q v : Z) :
  p ≠ q → load_byte (<[p := v]> m) q = load_byte m q.
Proof. intros Hne. unfold load_byte. rewrite lookup_insert_ne by exact Hne. reflexivity. Qed.

Lemma load_store_eq (k : IndexType) (m : gmap Z Z) (p v : Z) :
  0 ≤ v < 2 ^ bits k → load k (store k m p v) p = v.
Proof.
  intros Hv. destruct k; unfold load, store; cbn [bits] in Hv.
  - rewrite (load_byte_insert_ne _ (p + 1) p) by lia.
    rewrite !load_byte_insert_eq.
    Z.div_mod_to_equations. lia.
  - rewrite (load_byte_insert_ne _ (p + 3) p),
            (load_byte_insert_ne _ (p + 2) p),
            (load_byte_insert_ne _ (p + 1) p) by lia.
    rewrite (load_byte_insert_ne _ (p + 3) (p + 1)),
            (load_byte_insert_ne _ (p + 2) (p + 1)) by lia.
    rewrite (load_byte_insert_ne _ (p + 3) (p + 2)) by lia.
    rewrite !load_byte_insert_eq.
    Z.div_mod_to_equations. lia.
Qed.

Lemma load_store_ne (k : IndexType) (m : gmap Z Z) (p q v : Z) :
  q + sizeof k ≤ p ∨ p + sizeof k ≤ q →
  load k (store k m p v) q = load k m q.
Proof.
  intros Hd. destruct k; unfold load, store; cbn [sizeof] in Hd;
    rewrite !load_byte_insert_ne by lia; reflexivity.
Qed.

Section FreeListProperties.
Context {A : Type} `{Alloc A}.
Variable Index : IndexType.
Variable INDEXED_DEBUG : bool.
Import ArrayArena ArrayArenaSpec FreeList.

Lemma chain_head (slot : Z → Z) (m : gmap Z Z) (head : Z) (free : list Z) :
  chain Index slot m head free → head = hd 0 free.
Proof. destruct free; cbn; [tauto | intros (-> & _); reflexivity]. Qed.

(** A write outside the free slots leaves the free list as it is. *)
Lemma chain_store (slot : Z → Z) (m : gmap Z Z) (p v : Z) (free : list Z) :
  Forall (λ h, slot h + sizeof Index ≤ p ∨ p + sizeof Index ≤ slot h) free →
  ∀ head, chain Index slot m head free →
          chain Index slot (store Index m p v) head free.
Proof.
  induction 1 as [| h rest Hh _ IH]; intros head; cbn; [tauto |].
  intros (-> & Hne & Hc). split; [reflexivity |]. split; [assumption |].
  rewrite load_store_ne by assumption. apply IH, Hc.
Qed.

(** Distinct slots do not overlap in their first [sizeof(Index)] bytes. *)
Lemma slot_apart (a : t A) (h h' : Z) :
  0 ≤ m_elementSizeInIndex a < 2 ^ 16 →
  1 ≤ m_elementSizeInIndex a →
  h ≠ h' →
  slot Index a h' + sizeof Index ≤ slot Index a h
  ∨ slot Index a h + sizeof Index ≤ slot Index a h'.
Proof.
  intros HE16 HE Hne. unfold slot. rewrite elementSize_eq by assumption.
  pose proof (sizeof_pos Index) as HS.
  assert (Hsz : sizeof Index ≤ m_elementSizeInIndex a * sizeof Index) by nia.
  destruct (Z.lt_total h h') as [Hlt | [? | Hlt]]; [right | contradiction | left].
  - assert (1 * (m_elementSizeInIndex a * sizeof Index)
            ≤ (h' - h) * (m_elementSizeInIndex a * sizeof Index))
      by (apply Z.mul_le_mono_nonneg_r; lia).
    lia.
  - assert (1 * (m_elementSizeInIndex a * sizeof Index)
            ≤ (h - h') * (m_elementSizeInIndex a * sizeof Index))
      by (apply Z.mul_le_mono_nonneg_r; lia).
    lia.
Qed.

(** X2. [allocate] keeps the arena well formed: it hands out the head of
    the free list, or the slot after the high-water mark when the list
    is empty, or fails when the arena is full. *)
Lemma allocate_well_formed (s : state A) (free : list Z) :
  well_formed Index s free →
  ∃ r s',
    allocate Index INDEXED_DEBUG (elementSize Index (this s)) s = (r, s')
    ∧ match free with
      | h :: rest => r = Ret h ∧ well_formed Index s' rest
      | [] =>
          if m_usedCapacity (this s) <? m_capacity (this s)
          then r = Ret (m_usedCapacity (this s) + 1) ∧ well_formed Index s' []
          else r = Throw bad_alloc ∧ s' = s
      end.
Proof.
  intros [Hc Hb HE Hchain Hnd Hrange Hcount].
  rewrite allocate_locked by assumption. unfold allocate_spec.
  pose proof Hc as [Hcap HE16 Hused Hcnt Hfree].
  destruct free as [| h rest]; cbn [chain] in Hchain.
  - rewrite Hchain. cbn [Z.eqb negb length Z.of_nat] in *.
    destruct (m_usedCapacity (this s) <? m_capacity (this s)) eqn:Hlt.
    + apply Z.ltb_lt in Hlt. eexists _, _. split; [reflexivity |].
      split; [reflexivity |].
      constructor; cbn; try assumption; try constructor; cbn; try lia.
    + eexists _, _. split; [reflexivity |]. split; reflexivity.
  - destruct Hchain as (Hhead & Hne & Hrest).
    replace (m_nextFree (this s) =? 0) with false
      by (symmetry; apply Z.eqb_neq; lia).
    cbn [negb]. eexists _, _. split; [reflexivity |].
    split; [rewrite Hhead; reflexivity |].
    apply NoDup_cons in Hnd as [Hnotin Hnd].
    apply Forall_cons in Hrange as [Hh Hrange].
    cbn [length] in Hcount.
    assert (Hnext : 0 ≤ load Index (mem s) (slot Index (this s) (m_nextFree (this s)))
                    ≤ m_usedCapacity (this s)).
    { rewrite Hhead. rewrite (chain_head _ _ _ _ Hrest).
      destruct rest as [| h2 rest2]; cbn; [lia |].
      apply Forall_cons in Hrange as [Hh2 _]. lia. }
    constructor; cbn; try assumption.
    + constructor; cbn; try assumption; lia.
    + rewrite Hhead. exact Hrest.
    + lia.
Qed.

(** X3. [deallocate] of a live handle keeps the arena well formed: the last
    live element resets the arena, otherwise the slot is pushed on the
    free list when deletion is on and is left out when it is off. *)
Lemma deallocate_well_formed (s : state A) (free : list Z) (h : Z) :
  well_formed Index s free →
  1 ≤ h ≤ m_usedCapacity (this s) →
  h ∉ free →
  1 ≤ m_allocatedCount (this s) →
  ∃ s',
    deallocate Index INDEXED_DEBUG h (elementSize Index (this s)) s
    = (Ret tt, s')
    ∧ well_formed Index s'
        (if m_allocatedCount (this s) =? 1 then []
         else if m_doDelete (this s) then h :: free else free).
Proof.
  intros [Hc Hb HE Hchain Hnd Hrange Hcount] Hh Hnotin Hlive.
  pose proof Hc as [Hcap HE16 Hused Hcnt Hfree].
  pose proof (pow2_bits Index) as Hp.
  destruct (m_allocatedCount (this s) =? 1) eqn:Hone.
  - apply Z.eqb_eq in Hone. eexists. split.
    + apply deallocate_last. rewrite Hone. destruct Index; reflexivity.
    + constructor; cbn; try assumption; try constructor; cbn; lia.
  - apply Z.eqb_neq in Hone.
    unfold deallocate. unfold bind at 1. unfold update at 1.
    unfold bind at 1. unfold get at 1. cbn [this mem m_allocatedCount set_allocatedCount].
    rewrite to_Index_small by lia.
    replace (m_allocatedCount (this s) - 1 =? 0) with false
      by (symmetry; apply Z.eqb_neq; lia).
    change (m_doDelete (set_allocatedCount _ (this s))) with (m_doDelete (this s)).
    change (m_nextFree (set_allocatedCount _ (this s))) with (m_nextFree (this s)).
    set (s1 := {| this := set_allocatedCount (m_allocatedCount (this s) - 1) (this s);
                  mem := mem s |}).
    assert (Hc1 : consistent Index (this s1))
      by (constructor; cbn; try assumption; lia).
    destruct (m_doDelete (this s)); unfold when.
    + unfold bind at 1.
      change (elementSize Index (this s)) with (elementSize Index (this s1)).
      rewrite (getElementInt_slot Index INDEXED_DEBUG s1 h Hc1 Hb Hh).
      unfold bind at 1.
      rewrite write_nonnull
        by (pose proof (slot_pos Index (this s1) h Hc1 Hb); lia).
      unfold bind, update. cbn [this mem s1].
      eexists. split; [reflexivity |].
      change (slot Index (this s1) h) with (slot Index (this s) h).
      constructor; cbn; try assumption.
      * constructor; cbn; try assumption; lia.
      * change (slot Index (set_nextFree _ _)) with (slot Index (this s)).
        split; [reflexivity |]. split; [lia |].
        rewrite load_store_eq by lia.
        apply chain_store; [| exact Hchain].
        apply Forall_forall. intros h' Hin.
        assert (Hne : h ≠ h') by (intros ->; apply Hnotin, Hin).
        exact (slot_apart (this s) h h' HE16 HE Hne).
      * apply NoDup_cons. split; assumption.
      * apply Forall_cons. split; assumption.
      * cbn [length]. lia.
    + unfold ret. eexists. split; [reflexivity |].
      constructor; cbn; try assumption. lia.
Qed.


End FreeListProperties.

(** ** Buffer sources *)

#[export] Instance BufAlloc_Laws : AllocLaws BufAlloc.t.
Proof.
  split.
  - reflexivity.
  - intros bytes a e a'. cbn. unfold BufAlloc.malloc.
    destruct (BufAlloc.m_bufSize a <? bytes); intros Heq; inversion Heq;
      subst; reflexivity.
Qed.

#[export] Instance NewAlloc_Laws : AllocLaws NewAlloc.t.
Proof.
  split.
  - reflexivity.
  - intros bytes a e a'. cbn. unfold NewAlloc.malloc.
    destruct (NewAlloc.operator_new a bytes); intros Heq; inversion Heq;
      subst; reflexivity.
Qed.

#[export] Instance Counted_Laws {A : Type} `{AllocLaws A} :
  AllocLaws (Counted.t A).
Proof.
  split.
  - intros c. cbn. unfold Counted.getPtr, Counted.free. cbn.
    apply getPtr_free.
  - intros bytes c e c'. cbn. unfold Counted.malloc, Counted.getPtr.
    destruct (malloc bytes (Counted.inner c)) as [r a'] eqn:Hm.
    intros Heq; inversion Heq; subst. cbn. eapply getPtr_malloc_throw, Hm.
Qed.

(** ** The sticky allocation error of the multi-threaded arena *)

Section MultiThreaded.
Context {A : Type} `{AllocLaws A}.
Variable Index : IndexType.
Variable INDEXED_DEBUG : bool.
Import ArrayArenaMT ArrayArenaMTSpec.

Lemma elementSize_unlocked (a : t A) :
  m_elementSizeInIndex a = 0 → elementSize Index a = 0.
Proof. intros HE. unfold elementSize. rewrite HE. reflexivity. Qed.

Lemma pull_empty (fuel : nat) (s : state A) :
  free_list_empty Index (this s) →
  pull Index INDEXED_DEBUG (S fuel) s = (Ret 0, s).
Proof.
  unfold free_list_empty. intros He.
  unfold pull, bind, get. cbn [pull_loop]. rewrite He. reflexivity.
Qed.

Lemma listLength_empty (debug : bool) (fuel : nat) (s : state A) :
  free_list_empty Index (this s) →
  listLength Index debug (S fuel) s = (Ret 0, s).
Proof.
  unfold free_list_empty. intros He.
  unfold listLength, bind, get. cbn [listLength_loop]. rewrite He.
  reflexivity.
Qed.

(** [--m_usedCapacity] undoes [++m_usedCapacity], wrap-around included. *)
Lemma decrement_increment (u : Z) :
  0 ≤ u < 2 ^ bits Index → to_Index Index (to_Index Index (u + 1) - 1) = u.
Proof.
  intros Hu. unfold to_Index.
  destruct (Z.eq_dec (u + 1) (2 ^ bits Index)) as [Heq | Hne].
  - rewrite Heq, Z.mod_same by lia.
    replace (0 - 1) with (u + -1 * 2 ^ bits Index) by lia.
    rewrite Z.mod_add by lia. apply Z.mod_small; lia.
  - rewrite (Z.mod_small (u + 1)) by lia.
    replace (u + 1 - 1) with u by ring. apply Z.mod_small; lia.
Qed.

Lemma set_usedCapacity_restore (s : state A) (v : Z) :
  {| this := set_usedCapacity (m_usedCapacity (this s))
               (set_usedCapacity v (this s));
     mem := mem s |} = s.
Proof. destruct s as [[] m]. reflexivity. Qed.

(** Once the flag is set and no buffer is held, [allocate] throws
    [bad_alloc] and leaves the arena, its buffer source included, as it
    found it. *)
Lemma allocate_latched (fuel : nat) (s : state A) (typeSize : Z) :
  latched Index (this s) →
  allocate Index INDEXED_DEBUG (S fuel) typeSize s = (Throw bad_alloc, s).
Proof.
  intros [Hflag Hb HE Hl Hu].
  unfold allocate. unfold bind at 1. unfold get at 1.
  unfold bind at 1.
  rewrite (elementSize_unlocked _ HE), Z.eqb_refl, orb_true_l,
    indexed_assert_holds.
  unfold bind at 1. rewrite (pull_empty _ _ Hl). rewrite Z.eqb_refl.
  unfold bind at 1. unfold update at 1.
  unfold bind at 1. unfold get at 1.
  cbn [this mem m_usedCapacity m_capacity set_usedCapacity].
  unfold bind at 1.
  assert (Hback :
    ∀ v, {| this := set_usedCapacity
                      (to_Index Index (to_Index Index (m_usedCapacity (this s) + 1) - 1))
                      (set_usedCapacity v (this s));
            mem := mem s |} = s).
  { intros v. rewrite decrement_increment by assumption.
    apply set_usedCapacity_restore. }
  unfold try_rethrow, when, bind, update, throw, ret.
  destruct (m_capacity (this s) <? to_Index Index (m_usedCapacity (this s) + 1)).
  - cbn. rewrite Hback. reflexivity.
  - change (begin (set_usedCapacity _ (this s))) with (begin (this s)).
    rewrite Hb. cbn [Z.eqb].
    unfold allocateBuffer, bind, get, when, throw.
    cbn [this m_isAllocError set_usedCapacity]. rewrite Hflag.
    cbn. rewrite Hback. reflexivity.
Qed.

Lemma latched_run (fuel : nat) (calls : list call) (s : state A) :
  latched Index (this s) →
  Forall (λ r, r = Throw bad_alloc)
         (fst (run Index INDEXED_DEBUG (S fuel) calls s))
  ∧ latched Index (this (snd (run Index INDEXED_DEBUG (S fuel) calls s)))
  ∧ alloc (this (snd (run Index INDEXED_DEBUG (S fuel) calls s)))
    = alloc (this s).
Proof.
  revert s. induction calls as [| c rest IH]; intros s Hl.
  - cbn. auto.
  - destruct c as [typeSize | | n | b]; cbn [run].
    + rewrite allocate_latched by assumption.
      specialize (IH s Hl).
      destruct (run Index INDEXED_DEBUG (S fuel) rest s) as [rs s''].
      cbn in *. destruct IH as (Hall & Hl' & Ha). auto.
    + assert (Hr : ∃ s', reset Index INDEXED_DEBUG (S fuel) s = (Ret tt, s')
                         ∧ latched Index (this s')
                         ∧ alloc (this s') = alloc (this s)).
      { destruct Hl as [Hflag Hb HE Hlist Hu].
        exists {| this := set_usedCapacity 0 (set_freeList 0 (this s));
                  mem := mem s |}.
        split.
        - unfold reset, when, bind. destruct INDEXED_DEBUG.
          + rewrite (listLength_empty true _ _ Hlist). reflexivity.
          + reflexivity.
        - split; [| reflexivity].
          constructor; cbn; try assumption; try reflexivity.
          pose proof (pow2_bits_le Index). destruct Index; cbn; lia. }
      destruct Hr as (s' & -> & Hl' & Ha). cbn [snd].
      rewrite <- Ha. apply IH. assumption.
    + assert (Hr : latched Index (this (snd (setCapacity Index n s)))
                   ∧ alloc (this (snd (setCapacity Index n s)))
                     = alloc (this s)).
      { destruct Hl as [Hflag Hb HE Hlist Hu].
        unfold setCapacity, bind, get, when, throw, ret, update.
        rewrite Hb. cbn [Z.eqb negb].
        destruct (Z.shiftl 1 (sizeof Index * 8 - 1) <=? n); cbn.
        - split; [constructor; assumption | reflexivity].
        - split; [constructor; assumption | reflexivity]. }
      destruct Hr as [Hl' Ha]. rewrite <- Ha. apply IH. assumption.
    + cbn. specialize (IH {| this := set_doDelete b (this s); mem := mem s |}).
      apply IH. destruct Hl. constructor; assumption.
Qed.

Lemma allocate_acquires (fuel : nat) (s : state A) (typeSize : Z) :
  free_list_empty Index (this s) →
  begin (this s) = 0 →
  m_elementSizeInIndex (this s) = 0 →
  m_isAllocError (this s) = false →
  0 ≤ m_usedCapacity (this s) < m_capacity (this s) →
  m_capacity (this s) < 2 ^ bits Index →
  typeSize mod sizeof Index = 0 →
  allocate Index INDEXED_DEBUG (S fuel) typeSize s
  = allocate_acquiring Index INDEXED_DEBUG typeSize s.
Proof.
  intros Hlist Hb HE Hflag Hu Hcap Hmod.
  unfold allocate. unfold bind at 1. unfold get at 1.
  unfold bind at 1.
  rewrite (elementSize_unlocked _ HE), Z.eqb_refl, orb_true_l,
    indexed_assert_holds.
  unfold bind at 1. rewrite (pull_empty _ _ Hlist). rewrite Z.eqb_refl.
  unfold bind at 1. unfold update at 1.
  unfold bind at 1. unfold get at 1.
  cbn [this mem m_usedCapacity m_capacity set_usedCapacity].
  unfold bind at 1.
  rewrite (to_Index_small Index (m_usedCapacity (this s) + 1)) by lia.
  unfold try_rethrow, when, bind, update, throw, ret.
  replace (m_capacity (this s) <? m_usedCapacity (this s) + 1) with false
    by (symmetry; apply Z.ltb_ge; lia).
  change (begin (set_usedCapacity _ (this s))) with (begin (this s)).
  rewrite Hb. cbn [Z.eqb].
  unfold allocateBuffer, bind, get, when, throw, ret, try_rethrow.
  cbn [this m_isAllocError set_usedCapacity]. rewrite Hflag.
  change (begin (set_usedCapacity _ (this s))) with (begin (this s)).
  rewrite Hb. cbn [Z.eqb negb]. rewrite Hmod. cbn [Z.eqb].
  rewrite indexed_assert_holds.
  unfold Alloc_malloc, allocate_acquiring.
  cbn [this mem alloc m_capacity set_usedCapacity].
  destruct (malloc _ (alloc (this s))) as [[[] | e | | |] a']; unfold update;
    cbn [this mem]; try reflexivity.
  - cbn [m_elementSizeInIndex set_elementSizeInIndex].
    unfold indexed_assert, abort, ret.
    destruct (INDEXED_DEBUG && negb _); reflexivity.
  - cbn [m_usedCapacity set_isAllocError set_alloc set_usedCapacity].
    replace (m_usedCapacity (this s) + 1 - 1) with (m_usedCapacity (this s))
      by ring.
    rewrite to_Index_small by lia.
    destruct s as [[] m]. reflexivity.
Qed.

(** C6. A failed buffer acquisition latches the error flag: the failing
    [allocate] passes the source's exception on, and in every later run
    of [allocate], [reset], [setCapacity] and [enableDelete] calls each
    [allocate] throws [bad_alloc] while the buffer source stays in the
    state the failed [malloc] left, so that it is not called again. *)
Theorem alloc_error_is_sticky
    (fuel : nat) (s : state A) (typeSize : Z) (e : exception) (a1 : A) :
  free_list_empty Index (this s) →
  begin (this s) = 0 →
  m_elementSizeInIndex (this s) = 0 →
  m_isAllocError (this s) = false →
  0 ≤ m_usedCapacity (this s) < m_capacity (this s) →
  m_capacity (this s) < 2 ^ bits Index →
  typeSize mod sizeof Index = 0 →
  malloc (to_size_t (typeSize * m_capacity (this s))) (alloc (this s))
  = (Throw e, a1) →
  let s1 := {| this := set_isAllocError true (set_alloc a1 (this s));
               mem := mem s |} in
  allocate Index INDEXED_DEBUG (S fuel) typeSize s = (Throw e, s1)
  ∧ m_isAllocError (this s1) = true
  ∧ ∀ calls : list call,
      Forall (λ r, r = Throw bad_alloc)
             (fst (run Index INDEXED_DEBUG (S fuel) calls s1))
      ∧ alloc (this (snd (run Index INDEXED_DEBUG (S fuel) calls s1))) = a1.
Proof.
  intros Hlist Hb HE Hflag Hu Hcap Hmod Hmalloc s1.
  assert (Hl1 : latched Index (this s1)).
  { constructor; cbn; try assumption; try reflexivity.
    - change (getPtr a1 = 0). rewrite <- Hb.
      eapply getPtr_malloc_throw, Hmalloc.
    - lia. }
  split; [| split; [reflexivity |]].
  - rewrite allocate_acquires by assumption.
    unfold allocate_acquiring. rewrite Hmalloc. reflexivity.
  - intros calls.
    destruct (latched_run fuel calls s1 Hl1) as (Hall & _ & Ha).
    split; [exact Hall | exact Ha].
Qed.

(** In a release build, and in a debug build on an empty free list,
    [freeMemory] releases the buffer and clears the element size, the
    free list, the high-water mark and the error flag, whatever the
    flag was; the next [allocate] then calls the buffer source again:
    it returns handle 1 when [malloc] returns, and fails with the
    source's exception, latching the flag anew, when [malloc] throws. *)
Theorem freeMemory_clears_alloc_error
    (fuel : nat) (s : state A) (typeSize : Z) :
  INDEXED_DEBUG = false ∨ free_list_empty Index (this s) →
  1 ≤ m_capacity (this s) < 2 ^ bits Index →
  typeSize mod sizeof Index = 0 →
  0 ≤ typeSize / sizeof Index < 2 ^ 16 →
  let s0 := {| this := mk (free (alloc (this s))) (m_capacity (this s)) 0
                          (m_doDelete (this s)) false 0 0;
               mem := mem s |} in
  let bytes := to_size_t (typeSize * m_capacity (this s)) in
  freeMemory Index INDEXED_DEBUG (S fuel) s = (Ret tt, s0)
  ∧ begin (this s0) = 0
  ∧ (∀ a', malloc bytes (free (alloc (this s))) = (Ret tt, a') →
           allocate Index INDEXED_DEBUG (S fuel) typeSize s0
           = (Ret 1,
              {| this := mk a' (m_capacity (this s)) (typeSize / sizeof Index)
                            (m_doDelete (this s)) false 0 1;
                 mem := mem s |}))
  ∧ (∀ e a', malloc bytes (free (alloc (this s))) = (Throw e, a') →
             allocate Index INDEXED_DEBUG (S fuel) typeSize s0
             = (Throw e,
                {| this := mk a' (m_capacity (this s)) 0
                              (m_doDelete (this s)) true 0 0;
                   mem := mem s |})).
Proof.
  intros Hdbg Hcap Hmod Hq s0 bytes.
  assert (Hb0 : begin (this s0) = 0) by apply getPtr_free.
  assert (Hacq : allocate Index INDEXED_DEBUG (S fuel) typeSize s0
                 = allocate_acquiring Index INDEXED_DEBUG typeSize s0).
  { apply allocate_acquires; try assumption; try reflexivity; cbn; lia. }
  split; [| split; [exact Hb0 | split]].
  - unfold freeMemory, bind, update. cbn [this mem].
    unfold reset, when, bind.
    destruct Hdbg as [-> | Hlist].
    + reflexivity.
    + destruct INDEXED_DEBUG; [| reflexivity].
      rewrite (listLength_empty true) by exact Hlist. reflexivity.
  - intros a' Hm. rewrite Hacq. unfold allocate_acquiring.
    cbn [this mem alloc m_capacity m_usedCapacity s0]. fold bytes.
    rewrite Hm. unfold to_uint16. rewrite Z.mod_small by lia.
    rewrite Z.eqb_refl, andb_false_r. reflexivity.
  - intros e a' Hm. rewrite Hacq. unfold allocate_acquiring.
    cbn [this mem alloc m_capacity m_usedCapacity s0]. fold bytes.
    rewrite Hm. reflexivity.
Qed.

(** In a debug build [freeMemory] on a free list that is not empty
    dereferences the null pointer: the buffer is released and the
    element size cleared before the warning of [reset] walks the
    list. *)
Lemma freeMemory_walks_released_buffer (fuel : nat) (s : state A) :
  1 ≤ to_Index Index (m_freeList (this s)) ≤ m_usedCapacity (this s) →
  freeMemory Index true (S fuel) s
  = (Fault,
     {| this := set_isAllocError false
                  (set_elementSizeInIndex 0
                     (set_alloc (free (alloc (this s))) (this s)));
        mem := mem s |}).
Proof.
  intros Hhead.
  unfold freeMemory, bind, update. cbn [this mem].
  unfold reset, when. unfold bind at 1. unfold bind at 1.
  unfold listLength. unfold bind at 1. unfold get at 1.
  cbn [listLength_loop this m_freeList set_isAllocError
       set_elementSizeInIndex set_alloc].
  replace (to_Index Index (m_freeList (this s)) =? 0) with false
    by (symmetry; apply Z.eqb_neq; lia).
  cbn [negb]. unfold bind at 1.
  unfold getElement, getElementInt. unfold bind, get.
  cbn [this m_usedCapacity set_isAllocError set_elementSizeInIndex set_alloc].
  replace ((0 <? to_Index Index (m_freeList (this s)))
           && (to_Index Index (m_freeList (this s))
               <=? m_usedCapacity (this s))) with true
    by (symmetry; apply andb_true_iff; split;
        [apply Z.ltb_lt | apply Z.leb_le]; lia).
  rewrite indexed_assert_holds. unfold ret, read.
  unfold begin, elementSize.
  unfold set_isAllocError, set_elementSizeInIndex, set_alloc.
  cbn [alloc m_elementSizeInIndex].
  rewrite getPtr_free. reflexivity.
Qed.

End MultiThreaded.

(** With a source that counts its [malloc] calls: no call is made while
    the error is latched, and one is made by the [allocate] that finds
    the arena without buffer and without error. *)
Lemma latched_run_acquire_calls {A : Type} `{AllocLaws A}
    (Index : IndexType) (debug : bool) (fuel : nat)
    (calls : list ArrayArenaMTSpec.call)
    (s : ArrayArenaMT.state (Counted.t A)) :
  ArrayArenaMTSpec.latched Index (ArrayArenaMT.this s) →
  Counted.acquire_calls
    (ArrayArenaMT.alloc
       (ArrayArenaMT.this
          (snd (ArrayArenaMTSpec.run Index debug (S fuel) calls s))))
  = Counted.acquire_calls (ArrayArenaMT.alloc (ArrayArenaMT.this s)).
Proof.
  intros Hl.
  destruct (latched_run Index debug fuel calls s Hl) as (_ & _ & ->).
  reflexivity.
Qed.

Lemma allocate_acquires_counted {A : Type} `{AllocLaws A}
    (Index : IndexType) (debug : bool) (fuel : nat)
    (s : ArrayArenaMT.state (Counted.t A)) (typeSize : Z) :
  ArrayArenaMTSpec.free_list_empty Index (ArrayArenaMT.this s) →
  ArrayArenaMT.begin (ArrayArenaMT.this s) = 0 →
  ArrayArenaMT.m_elementSizeInIndex (ArrayArenaMT.this s) = 0 →
  ArrayArenaMT.m_isAllocError (ArrayArenaMT.this s) = false →
  0 ≤ ArrayArenaMT.m_usedCapacity (ArrayArenaMT.this s)
    < ArrayArenaMT.m_capacity (ArrayArenaMT.this s) →
  ArrayArenaMT.m_capacity (ArrayArenaMT.this s) < 2 ^ bits Index →
  typeSize mod sizeof Index = 0 →
  Counted.acquire_calls
    (ArrayArenaMT.alloc
       (ArrayArenaMT.this
          (snd (ArrayArenaMT.allocate Index debug (S fuel) typeSize s))))
  = S (Counted.acquire_calls (ArrayArenaMT.alloc (ArrayArenaMT.this s))).
Proof.
  intros Hlist Hb HE Hflag Hu Hcap Hmod.
  rewrite allocate_acquires by assumption.
  unfold ArrayArenaMTSpec.allocate_acquiring. cbn [malloc Counted_Alloc].
  unfold Counted.malloc.
  destruct (malloc _ (Counted.inner _)) as [[[] | e | | |] a']; reflexivity.
Qed.

(** ** Handle encodings *)

Lemma kOnStackFlag_eq (k : IndexType) : kOnStackFlag k = 2 ^ (bits k - 1).
Proof. destruct k; reflexivity. Qed.

Lemma land_pow2_small (h n : Z) :
  0 ≤ n → 0 ≤ h < 2 ^ n → Z.land h (2 ^ n) = 0.
Proof.
  intros Hn Hh. apply Z.bits_inj'. intros i Hi.
  rewrite Z.land_spec, Z.bits_0, Z.pow2_bits_eqb by assumption.
  destruct (Z.eqb_spec n i) as [<- | Hne].
  - rewrite andb_true_r. apply Z.testbit_false; [assumption |].
    rewrite Z.div_small by assumption. reflexivity.
  - apply andb_false_r.
Qed.

Section SimpleEncoding.
Context {A : Type} `{Alloc A}.
Variable Index : IndexType.
Variable INDEXED_DEBUG : bool.
Variable kNodeAlignment : Z.
Import ArrayArenaSpec SingleArenaConfig.

(** An address inside the buffer is encoded by the arena as a handle
    between 1 and the capacity, whose tag bit is therefore 0; a debug
    build aborts instead when the address is not the start of a slot. *)
Lemma arena_pointer_to_untagged (s : ArrayArena.state A) (ptr : Z) :
  consistent Index (ArrayArena.this s) →
  buffer_held Index (ArrayArena.this s) →
  1 ≤ ArrayArena.m_elementSizeInIndex (ArrayArena.this s) →
  ArrayArena.begin (ArrayArena.this s) ≤ ptr
    < ArrayArena.end_ Index (ArrayArena.this s) →
  ∃ h, 1 ≤ h ≤ ArrayArena.m_capacity (ArrayArena.this s)
       ∧ Z.land h (kOnStackFlag Index) = 0
       ∧ (ArrayArena.pointer_to Index INDEXED_DEBUG ptr s = (Ret h, s)
          ∨ (INDEXED_DEBUG = true
             ∧ ArrayArena.pointer_to Index INDEXED_DEBUG ptr s = (Abort, s))).
Proof.
  intros Hc [Hb Hfit] HE Hin.
  pose proof Hc as [Hcap HE16 Hused Hcount Hfree].
  pose proof (sizeof_pos Index) as HS. pose proof (pow2_bits Index) as Hp.
  remember (ArrayArena.this s) as a eqn:Ha.
  remember (ArrayArena.m_elementSizeInIndex a) as E eqn:HeqE.
  remember (ArrayArena.m_capacity a) as cap eqn:Heqcap.
  assert (Hsize : ArrayArena.elementSize Index a = E * sizeof Index)
    by (rewrite HeqE; apply elementSize_eq; rewrite <- HeqE; assumption).
  rewrite Hsize in Hfit.
  assert (0 ≤ E * sizeof Index * cap)
    by (apply Z.mul_nonneg_nonneg; [apply Z.mul_nonneg_nonneg |]; lia).
  assert (Hend : ArrayArena.end_ Index a
                 = ArrayArena.begin a + E * sizeof Index * cap).
  { unfold ArrayArena.end_. rewrite Hsize, <- Heqcap.
    rewrite (to_size_t_small (E * sizeof Index * cap)) by lia.
    apply to_size_t_small; lia. }
  rewrite Hend in Hin.
  set (offset := ptr - ArrayArena.begin a).
  assert (Hoff : 0 ≤ offset < sizeof Index * (E * cap))
    by (unfold offset; lia).
  set (q := offset / sizeof Index).
  assert (Hq : 0 ≤ q < E * cap).
  { unfold q. split; [apply Z.div_pos; lia |].
    apply Z.div_lt_upper_bound; lia. }
  set (r := to_uint32 q).
  assert (Hr : 0 ≤ r ≤ q).
  { unfold r, to_uint32. pose proof (Z.mod_pos_bound q (2 ^ 32) ltac:(lia)).
    pose proof (Z.mod_le q (2 ^ 32) ltac:(lia) ltac:(lia)). lia. }
  set (pos := r / E).
  assert (Hpos : 0 ≤ pos < cap).
  { unfold pos. split; [apply Z.div_pos; lia |].
    apply Z.div_lt_upper_bound; lia. }
  exists (pos + 1). split; [lia |]. split.
  - rewrite kOnStackFlag_eq. apply land_pow2_small; [destruct Index; cbn; lia | lia].
  - unfold ArrayArena.pointer_to, bind, get, ret. rewrite <- Ha, <- HeqE.
    fold offset. rewrite (to_size_t_small offset) by lia.
    fold q. fold r. fold pos.
    rewrite (to_Index_small Index pos) by lia.
    rewrite (to_Index_small Index (pos + 1)) by lia.
    unfold indexed_assert, abort, ret.
    destruct INDEXED_DEBUG; cbn [andb]; [| left; reflexivity].
    destruct (negb _); [right; split; reflexivity | left; reflexivity].
Qed.

(** C7, as amended. The simple encoding tests the stack range first: an
    address within [kMaxStackSize] below the stack top gets the stack
    handle whether or not it lies in the arena; every other address goes
    to the arena's [pointer_to], and when it lies in the arena's buffer
    the handle it gets has tag bit 0. *)
Theorem pointer_to_tests_stack_first
    (c : t) (ptr : Z) (s : ArrayArena.state A) :
  let d := to_ptrdiff (stackTop c - ptr) in
  (0 ≤ d < kMaxStackSize →
   INDEXED_DEBUG = false
   ∨ (to_size_t d / kNodeAlignment < kOnStackFlag Index
      ∧ to_size_t (to_size_t d / kNodeAlignment * kNodeAlignment)
        = to_size_t d) →
   pointer_to Index INDEXED_DEBUG kNodeAlignment c ptr s
   = (Ret (Z.lor (to_Index Index (to_size_t d / kNodeAlignment))
                 (kOnStackFlag Index)), s))
  ∧ (¬ (0 ≤ d < kMaxStackSize) →
     pointer_to Index INDEXED_DEBUG kNodeAlignment c ptr s
     = ArrayArena.pointer_to Index INDEXED_DEBUG ptr s)
  ∧ (¬ (0 ≤ d < kMaxStackSize) →
     consistent Index (ArrayArena.this s) →
     buffer_held Index (ArrayArena.this s) →
     1 ≤ ArrayArena.m_elementSizeInIndex (ArrayArena.this s) →
     ArrayArena.begin (ArrayArena.this s) ≤ ptr
       < ArrayArena.end_ Index (ArrayArena.this s) →
     ∃ h, 1 ≤ h ≤ ArrayArena.m_capacity (ArrayArena.this s)
          ∧ Z.land h (kOnStackFlag Index) = 0
          ∧ (pointer_to Index INDEXED_DEBUG kNodeAlignment c ptr s
             = (Ret h, s)
             ∨ (INDEXED_DEBUG = true
                ∧ pointer_to Index INDEXED_DEBUG kNodeAlignment c ptr s
                  = (Abort, s)))).
Proof.
  intros d.
  assert (Hout : ¬ (0 ≤ d < kMaxStackSize) →
                 pointer_to Index INDEXED_DEBUG kNodeAlignment c ptr s
                 = ArrayArena.pointer_to Index INDEXED_DEBUG ptr s).
  { intros Hd. unfold pointer_to. fold d.
    replace ((0 <=? d) && (d <? kMaxStackSize)) with false; [reflexivity |].
    symmetry. apply andb_false_iff.
    destruct (Z.leb_spec 0 d); [right | left; reflexivity].
    apply Z.ltb_ge. lia. }
  split; [| split; [exact Hout |]].
  - intros Hd Hassert. unfold pointer_to. fold d.
    replace ((0 <=? d) && (d <? kMaxStackSize)) with true
      by (symmetry; apply andb_true_iff; split;
          [apply Z.leb_le | apply Z.ltb_lt]; lia).
    unfold bind, ret.
    destruct Hassert as [-> | [Hdeep Halign]].
    + reflexivity.
    + replace (to_size_t d / kNodeAlignment <? kOnStackFlag Index) with true
        by (symmetry; apply Z.ltb_lt; assumption).
      rewrite Halign, Z.eqb_refl, !indexed_assert_holds. reflexivity.
  - intros Hd Hc Hb HE Hin. rewrite (Hout Hd).
    apply arena_pointer_to_untagged; assumption.
Qed.

End SimpleEncoding.

Section UniversalEncoding.
Context {A : Type} `{Alloc A}.
Variable INDEXED_DEBUG : bool.
Variable kObjectSize : Z.
Import SingleArenaConfigUniversal.

(** C8, as amended. With 16-bit handles, alignment 2 and the stack top
    at [0x7fffff00], the address [0x7ffffefe] lies 2 bytes below the top
    and is encoded as [0x8001]; the handle [0x8004] belongs to the
    address 8 bytes below the top, [0x7ffffef8], and decodes to it. *)
Theorem universal_stack_encoding (c : t) (s : ArrayArena.state A) :
  stackTop c = 0x7fffff00 →
  kObjectSize ≠ 0
  ∨ (ArrayArenaSpec.outside uint16_t s 0x7ffffefe
     ∧ ArrayArenaSpec.outside uint16_t s 0x7ffffef8) →
  pointer_to uint16_t INDEXED_DEBUG kObjectSize 2 c 0x7ffffefe s
  = (Ret 0x8001, s)
  ∧ getElement uint16_t INDEXED_DEBUG 2 c 0x8001 s = (Ret 0x7ffffefe, s)
  ∧ pointer_to uint16_t INDEXED_DEBUG kObjectSize 2 c 0x7ffffef8 s
    = (Ret 0x8004, s)
  ∧ getElement uint16_t INDEXED_DEBUG 2 c 0x8004 s = (Ret 0x7ffffef8, s).
Proof.
  intros Htop Hout.
  assert (Hrange : ∀ ptr,
            (kObjectSize ≠ 0 ∨ ArrayArenaSpec.outside uint16_t s ptr) →
            (kObjectSize =? 0)
            && ((ArrayArena.begin (ArrayArena.this s) <=? ptr)
                && (ptr <? ArrayArena.end_ uint16_t (ArrayArena.this s)))
            = false).
  { intros ptr [Hk | Ho].
    - apply Z.eqb_neq in Hk. rewrite Hk. reflexivity.
    - apply andb_false_iff. right. apply not_true_iff_false.
      intros Hb. apply andb_true_iff in Hb as [H1 H2].
      apply Z.leb_le in H1. apply Z.ltb_lt in H2. apply Ho. lia. }
  repeat split.
  - unfold pointer_to, bind, get. rewrite Hrange, Htop by tauto.
    destruct INDEXED_DEBUG; reflexivity.
  - unfold getElement. rewrite Htop. reflexivity.
  - unfold pointer_to, bind, get. rewrite Hrange, Htop by tauto.
    destruct INDEXED_DEBUG; reflexivity.
  - unfold getElement. rewrite Htop. reflexivity.
Qed.

End UniversalEncoding.

(** ** The theorems at concrete arenas *)

Lemma auto_reset_witness :
  ∃ s', ArrayArena.deallocate uint16_t true 1 8 Examples.arena16_last
        = (Ret tt, s')
        ∧ ArrayArena.m_usedCapacity (ArrayArena.this s') = 0
        ∧ ArrayArena.m_nextFree (ArrayArena.this s') = 0
        ∧ ArrayArena.m_allocatedCount (ArrayArena.this s') = 0
        ∧ ArrayArena.mem s' = ArrayArena.mem Examples.arena16_last
        ∧ fst (ArrayArena.allocate uint16_t true 8 s') = Ret 1.
Proof.
  apply (auto_reset uint16_t true Examples.arena16_last 1 8 8); compute_Z.
Defined.

(** C4 fails as stated for the single-threaded arena: with deletion off
    and three live elements, [deallocate] changes the live count. *)
Lemma deallocate_delete_disabled_changes_state :
  ArrayArena.m_doDelete (ArrayArena.this Examples.arena16_nodelete) = false
  ∧ snd (ArrayArena.deallocate uint16_t true 3 8 Examples.arena16_nodelete)
    ≠ Examples.arena16_nodelete.
Proof.
  split; [reflexivity |]. intros Heq.
  apply (f_equal (λ s, ArrayArena.m_allocatedCount (ArrayArena.this s))) in Heq.
  vm_compute in Heq. discriminate.
Qed.

Lemma deallocate_delete_disabled_witness :
  ArrayArenaMT.deallocate uint16_t true 1 3 8 Examples.arenaMT16_nodelete
  = (Ret tt, Examples.arenaMT16_nodelete)
  ∧ ArrayArena.deallocate uint16_t true 3 8 Examples.arena16_nodelete
    = (Ret tt,
       {| ArrayArena.this :=
            ArrayArena.set_allocatedCount 2
              (ArrayArena.this Examples.arena16_nodelete);
          ArrayArena.mem := ∅ |}).
Proof.
  split.
  - apply (proj1 (deallocate_delete_disabled uint16_t true)). reflexivity.
  - apply (proj2 (deallocate_delete_disabled uint16_t true)
             Examples.arena16_nodelete 3 8).
    reflexivity.
Defined.

(** C5 fails as stated for the universal bound: a [uint16_t] arena
    accepts the capacity [2^14 = 2^(W-2)], and neither configuration
    class has a member that looks at the capacity. *)
Lemma setCapacity_accepts_universal_bound :
  2 ^ (bits uint16_t - 2) ≤ 2 ^ 14
  ∧ ArrayArena.setCapacity uint16_t (2 ^ 14) Examples.fresh16
    = (Ret tt,
       {| ArrayArena.this :=
            ArrayArena.set_capacity (2 ^ 14)
              (ArrayArena.this Examples.fresh16);
          ArrayArena.mem := ∅ |}).
Proof. split; [compute_Z | reflexivity]. Qed.

(** What the accepted capacity leads to under the universal encoding:
    the arena's handle [2^14] is its last slot, and the configuration
    decodes the same handle as offset 0 of the container. *)
Example universal_decodes_handle_as_container :
  ArrayArena.getElement uint16_t true (2 ^ 14) Examples.arena16_full
  = (Ret (0x100000 + 8 * (2 ^ 14 - 1)), Examples.arena16_full)
  ∧ SingleArenaConfigUniversal.getElement uint16_t true 2 Examples.uconfig16
      (2 ^ 14) Examples.arena16_full
    = (Ret 0x6000, Examples.arena16_full).
Proof. split; vm_compute; reflexivity. Qed.

Lemma setCapacity_bound_witness :
  ArrayArena.setCapacity uint16_t (2 ^ 15) Examples.fresh16
  = (Throw length_error, Examples.fresh16)
  ∧ ArrayArena.setCapacity uint16_t (2 ^ 15 - 1) Examples.fresh16
    = (Ret tt,
       {| ArrayArena.this :=
            ArrayArena.set_capacity (2 ^ 15 - 1)
              (ArrayArena.this Examples.fresh16);
          ArrayArena.mem := ∅ |})
  ∧ ArrayArenaMT.setCapacity uint16_t (2 ^ 15) Examples.arenaMT16
    = (Throw length_error, Examples.arenaMT16).
Proof.
  pose proof (setCapacity_bound (A:=BufAlloc.t) uint16_t) as [Hst Hmt].
  split; [| split].
  - apply (proj1 (Hst Examples.fresh16 (2 ^ 15))). compute_Z.
  - apply (proj2 (Hst Examples.fresh16 (2 ^ 15 - 1))); compute_Z.
  - apply (proj1 (Hmt Examples.arenaMT16 (2 ^ 15))). compute_Z.
Defined.

Lemma alloc_error_is_sticky_witness :
  ArrayArenaMT.allocate uint16_t true 1 8 Examples.arenaMT16
  = (Throw bad_alloc, Examples.arenaMT16_latched)
  ∧ ArrayArenaMT.m_isAllocError
      (ArrayArenaMT.this Examples.arenaMT16_latched) = true
  ∧ ∀ calls : list ArrayArenaMTSpec.call,
      Forall (λ r, r = Throw bad_alloc)
             (fst (ArrayArenaMTSpec.run uint16_t true 1 calls
                     Examples.arenaMT16_latched))
      ∧ ArrayArenaMT.alloc
          (ArrayArenaMT.this
             (snd (ArrayArenaMTSpec.run uint16_t true 1 calls
                     Examples.arenaMT16_latched)))
        = BufAlloc.make 4096 16.
Proof.
  apply (alloc_error_is_sticky uint16_t true 0 Examples.arenaMT16 8
           bad_alloc (BufAlloc.make 4096 16)); compute_Z.
Defined.

(** C7 fails as stated: the first slot of an arena placed on the stack
    lies in the arena's range, the arena encodes it as handle 1, and the
    simple encoding returns the stack handle [0x8080]. *)
Lemma pointer_to_arena_address_in_stack_window :
  let s := Examples.arena16_on_stack in
  ArrayArena.begin (ArrayArena.this s) ≤ 0x7ffffe00
    < ArrayArena.end_ uint16_t (ArrayArena.this s)
  ∧ ArrayArena.pointer_to uint16_t true 0x7ffffe00 s = (Ret 1, s)
  ∧ SingleArenaConfig.pointer_to uint16_t true 2 Examples.config16
      0x7ffffe00 s = (Ret 0x8080, s)
  ∧ Z.land 0x8080 (kOnStackFlag uint16_t) ≠ 0.
Proof.
  cbv zeta. split; [compute_Z |].
  repeat split; try (vm_compute; reflexivity).
  vm_compute. discriminate.
Qed.

Lemma pointer_to_tests_stack_first_witness :
  SingleArenaConfig.pointer_to uint16_t true 2 Examples.config16
    0x7ffffe00 Examples.arena16_on_stack
  = (Ret 0x8080, Examples.arena16_on_stack)
  ∧ SingleArenaConfig.pointer_to uint16_t true 2 Examples.config16
      (4096 + 8) Examples.arena16
    = ArrayArena.pointer_to uint16_t true (4096 + 8) Examples.arena16
  ∧ ∃ h, 1 ≤ h ≤ 4
         ∧ Z.land h (kOnStackFlag uint16_t) = 0
         ∧ (SingleArenaConfig.pointer_to uint16_t true 2 Examples.config16
              (4096 + 8) Examples.arena16 = (Ret h, Examples.arena16)
            ∨ (true = true
               ∧ SingleArenaConfig.pointer_to uint16_t true 2
                   Examples.config16 (4096 + 8) Examples.arena16
                 = (Abort, Examples.arena16))).
Proof.
  split; [| split].
  - apply (proj1 (pointer_to_tests_stack_first uint16_t true 2
                    Examples.config16 0x7ffffe00 Examples.arena16_on_stack)).
    + compute_Z.
    + right. compute_Z.
  - apply (proj1 (proj2 (pointer_to_tests_stack_first uint16_t true 2
                           Examples.config16 (4096 + 8) Examples.arena16))).
    vm_compute. intros [_ Hlt]. discriminate.
  - apply (proj2 (proj2 (pointer_to_tests_stack_first uint16_t true 2
                           Examples.config16 (4096 + 8) Examples.arena16))).
    + vm_compute. intros [_ Hlt]. discriminate.
    + constructor; compute_Z.
    + compute_Z.
    + compute_Z.
    + compute_Z.
Defined.

(** C8 fails as stated: the address [0x7ffffefe] is encoded as [0x8001],
    not as [0x8004]. *)
Lemma universal_stack_encoding_not_0x8004 :
  SingleArenaConfigUniversal.pointer_to uint16_t true 0 2 Examples.uconfig16
    0x7ffffefe Examples.fresh16 = (Ret 0x8001, Examples.fresh16)
  ∧ fst (SingleArenaConfigUniversal.pointer_to uint16_t true 0 2
           Examples.uconfig16 0x7ffffefe Examples.fresh16)
    ≠ Ret 0x8004.
Proof. split; [reflexivity |]. vm_compute. discriminate. Qed.

Lemma universal_stack_encoding_witness :
  SingleArenaConfigUniversal.pointer_to uint16_t true 0 2 Examples.uconfig16
    0x7ffffefe Examples.fresh16 = (Ret 0x8001, Examples.fresh16)
  ∧ SingleArenaConfigUniversal.getElement uint16_t true 2 Examples.uconfig16
      0x8001 Examples.fresh16 = (Ret 0x7ffffefe, Examples.fresh16)
  ∧ SingleArenaConfigUniversal.pointer_to uint16_t true 0 2
      Examples.uconfig16 0x7ffffef8 Examples.fresh16
    = (Ret 0x8004, Examples.fresh16)
  ∧ SingleArenaConfigUniversal.getElement uint16_t true 2 Examples.uconfig16
      0x8004 Examples.fresh16 = (Ret 0x7ffffef8, Examples.fresh16).
Proof.
  apply (universal_stack_encoding true 0 Examples.uconfig16 Examples.fresh16).
  - reflexivity.
  - right. split; vm_compute; intros [_ Hlt]; discriminate.
Defined.

Lemma elementSize_after_first_allocate_witness :
  ∃ h s', ArrayArena.allocate uint16_t true (2 ^ 17 + 2) Examples.sized16
          = (Ret h, s')
          ∧ ArrayArena.elementSize uint16_t (ArrayArena.this s')
            = ((2 ^ 17 + 2) / sizeof uint16_t) mod 2 ^ 16 * sizeof uint16_t
          ∧ (ArrayArena.elementSize uint16_t (ArrayArena.this s')
             = 2 ^ 17 + 2
             ↔ (2 ^ 17 + 2) / sizeof uint16_t < 2 ^ 16).
Proof.
  eapply (elementSize_after_first_allocate uint16_t true Examples.sized16).
  - compute_Z.
  - compute_Z.
  - compute_Z.
  - reflexivity.
  - reflexivity.
Defined.

Lemma freeMemory_clears_alloc_error_witness :
  ArrayArenaMT.freeMemory uint16_t true 1 Examples.arenaMT16_latched
  = (Ret tt, Examples.arenaMT16)
  ∧ ArrayArenaMT.allocate uint16_t true 1 8 Examples.arenaMT16
    = (Throw bad_alloc, Examples.arenaMT16_latched).
Proof.
  destruct (freeMemory_clears_alloc_error uint16_t true 0
              Examples.arenaMT16_latched 8) as (Hfree & _ & _ & Hthrow).
  - right. reflexivity.
  - compute_Z.
  - reflexivity.
  - compute_Z.
  - split; [exact Hfree |].
    apply (Hthrow bad_alloc (BufAlloc.make 4096 16)). reflexivity.
Defined.

(** C10 (code defect). [freeMemory] releases the buffer before it calls
    [reset], and in a debug build the warning of [reset] walks the free
    list: on an arena with a released slot the walk dereferences the
    null pointer. After three [allocate] calls and the release of slot
    2, [freeMemory] faults in a debug build, with the free list and the
    high-water mark still in place; a release build returns, the
    buffer released and element size, free list, high-water mark and
    error flag cleared. *)
Theorem freeMemory_debug_faults :
  let s := Examples.arenaMT16_released in
  Examples.release_slot_2 true = s
  ∧ Examples.release_slot_2 false = s
  ∧ (∀ fuel,
       ArrayArenaMT.freeMemory uint16_t true (S fuel) s
       = (Fault,
          {| ArrayArenaMT.this :=
               ArrayArenaMT.mk (BufAlloc.make 4096 32) 4 0 true false
                               (2 ^ 16 + 2) 3;
             ArrayArenaMT.mem := ArrayArenaMT.mem s |}))
  ∧ (∀ fuel,
       ArrayArenaMT.freeMemory uint16_t false (S fuel) s
       = (Ret tt,
          {| ArrayArenaMT.this :=
               ArrayArenaMT.mk (BufAlloc.make 4096 32) 4 0 true false 0 0;
             ArrayArenaMT.mem := ArrayArenaMT.mem s |})).
Proof.
  cbv zeta. split; [vm_compute; reflexivity |].
  split; [vm_compute; reflexivity |]. split.
  - intros fuel.
    exact (freeMemory_walks_released_buffer uint16_t fuel
             Examples.arenaMT16_released ltac:(compute_Z)).
  - intros fuel. reflexivity.
Qed.

(** ** Further properties of the single-threaded arena *)

Section ArenaUse.
Context {A : Type} `{Alloc A}.
Variable Index : IndexType.
Variable INDEXED_DEBUG : bool.
Import ArrayArena ArrayArenaSpec FreeList.

(** [deallocate] of a live handle that is not the last one, deletion on:
    the old head is written into the slot and the slot becomes the head. *)
Lemma deallocate_push (s : state A) (h : Z) :
  consistent Index (this s) →
  buffer_held Index (this s) →
  1 ≤ h ≤ m_usedCapacity (this s) →
  2 ≤ m_allocatedCount (this s) →
  m_doDelete (this s) = true →
  deallocate Index INDEXED_DEBUG h (elementSize Index (this s)) s
  = (Ret tt,
     {| this := set_nextFree h
                  (set_allocatedCount (m_allocatedCount (this s) - 1) (this s));
        mem := store Index (mem s) (slot Index (this s) h)
                     (m_nextFree (this s)) |}).
Proof.
  intros Hc Hb Hh Hlive Hd.
  pose proof Hc as [Hcap HE16 Hused Hcnt Hfree].
  pose proof (pow2_bits Index) as Hp.
  unfold deallocate. unfold bind at 1. unfold update at 1.
  unfold bind at 1. unfold get at 1.
  cbn [this mem m_allocatedCount set_allocatedCount].
  rewrite to_Index_small by lia.
  replace (m_allocatedCount (this s) - 1 =? 0) with false
    by (symmetry; apply Z.eqb_neq; lia).
  change (m_doDelete (set_allocatedCount _ (this s))) with (m_doDelete (this s)).
  change (m_nextFree (set_allocatedCount _ (this s))) with (m_nextFree (this s)).
  rewrite Hd. unfold when.
  set (s1 := {| this := set_allocatedCount (m_allocatedCount (this s) - 1) (this s);
                mem := mem s |}).
  assert (Hc1 : consistent Index (this s1))
    by (constructor; cbn; try assumption; lia).
  unfold bind at 1.
  change (elementSize Index (this s)) with (elementSize Index (this s1)).
  rewrite (getElementInt_slot Index INDEXED_DEBUG s1 h Hc1 Hb Hh).
  unfold bind at 1.
  rewrite write_nonnull
    by (pose proof (slot_pos Index (this s1) h Hc1 Hb); lia).
  reflexivity.
Qed.

(** X4. A slot released by [deallocate] is the next one [allocate] hands
    out, and the pair leaves the arena's fields as they were: only the
    first bytes of the slot have changed. *)
Theorem deallocate_then_allocate (s : state A) (free : list Z) (h : Z) :
  well_formed Index s free →
  1 ≤ h ≤ m_usedCapacity (this s) →
  h ∉ free →
  2 ≤ m_allocatedCount (this s) →
  m_doDelete (this s) = true →
  ∃ s1 s2,
    deallocate Index INDEXED_DEBUG h (elementSize Index (this s)) s
    = (Ret tt, s1)
    ∧ allocate Index INDEXED_DEBUG (elementSize Index (this s)) s1
      = (Ret h, s2)
    ∧ this s2 = this s
    ∧ mem s2 = store Index (mem s) (slot Index (this s) h) (m_nextFree (this s))
    ∧ well_formed Index s2 free.
Proof.
  intros [Hc Hb HE Hchain Hnd Hrange Hcount] Hh Hnotin Hlive Hd.
  pose proof Hc as [Hcap HE16 Hused Hcnt Hfree].
  pose proof (pow2_bits Index) as Hp.
  set (s1 := {| this := set_nextFree h
                  (set_allocatedCount (m_allocatedCount (this s) - 1) (this s));
                mem := store Index (mem s) (slot Index (this s) h)
                             (m_nextFree (this s)) |}).
  assert (Hc1 : consistent Index (this s1))
    by (constructor; cbn; try assumption; lia).
  assert (Hthis : set_allocatedCount (m_allocatedCount (this s) - 1 + 1)
                    (set_nextFree (m_nextFree (this s)) (this s1)) = this s).
  { replace (m_allocatedCount (this s) - 1 + 1) with (m_allocatedCount (this s))
      by ring.
    destruct s as [[] m]. reflexivity. }
  exists s1, {| this := this s; mem := mem s1 |}.
  split; [apply deallocate_push; assumption |].
  split.
  - change (elementSize Index (this s)) with (elementSize Index (this s1)).
    rewrite (allocate_locked Index INDEXED_DEBUG s1 Hc1 Hb).
    unfold allocate_spec. cbn [this mem m_nextFree set_nextFree s1].
    replace (h =? 0) with false by (symmetry; apply Z.eqb_neq; lia).
    cbn [negb].
    change (slot Index (set_nextFree h _) h) with (slot Index (this s) h).
    rewrite load_store_eq by lia.
    cbn [m_allocatedCount set_nextFree set_allocatedCount].
    f_equal. f_equal. exact Hthis.
  - split; [reflexivity |]. split; [reflexivity |].
    constructor; cbn [this mem s1]; try assumption.
    apply chain_store; [| exact Hchain].
    apply Forall_forall. intros h' Hin.
    assert (Hne : h ≠ h') by (intros ->; apply Hnotin, Hin).
    exact (slot_apart Index (this s) h h' HE16 HE Hne).
Qed.

(** X12. Whatever [allocate] hands out on a consistent arena over its
    buffer is a handle between 1 and the capacity, so neither null nor
    carrying the tag bit of a stack handle; otherwise it throws
    [bad_alloc]. *)
Theorem allocate_handle_range (s : state A) :
  consistent Index (this s) →
  buffer_held Index (this s) →
  fst (allocate Index INDEXED_DEBUG (elementSize Index (this s)) s)
  = Throw bad_alloc
  ∨ ∃ h, fst (allocate Index INDEXED_DEBUG (elementSize Index (this s)) s)
         = Ret h
         ∧ 1 ≤ h ≤ m_capacity (this s)
         ∧ Z.land h (kOnStackFlag Index) = 0.
Proof.
  intros Hc Hb. rewrite allocate_locked by assumption.
  destruct Hc as [Hcap HE16 Hused Hcnt Hfree].
  assert (Htag : ∀ h, 1 ≤ h ≤ m_capacity (this s) →
                      Z.land h (kOnStackFlag Index) = 0).
  { intros h Hh. rewrite kOnStackFlag_eq.
    apply land_pow2_small; [destruct Index; cbn; lia | lia]. }
  unfold allocate_spec.
  destruct (m_nextFree (this s) =? 0) eqn:Hnf; cbn [negb].
  - destruct (m_usedCapacity (this s) <? m_capacity (this s)) eqn:Hlt.
    + apply Z.ltb_lt in Hlt. right. eexists. split; [reflexivity |].
      split; [lia | apply Htag; lia].
    + left. reflexivity.
  - apply Z.eqb_neq in Hnf. right. eexists. split; [reflexivity |].
    split; [lia | apply Htag; lia].
Qed.

(** X7. The slot of a valid handle lies inside the buffer, and the slots
    of two different handles do not overlap. *)
Theorem slots_in_buffer_and_disjoint (s : state A) (h h' : Z) :
  consistent Index (this s) →
  buffer_held Index (this s) →
  1 ≤ m_elementSizeInIndex (this s) →
  1 ≤ h ≤ m_usedCapacity (this s) →
  1 ≤ h' ≤ m_usedCapacity (this s) →
  h ≠ h' →
  ∃ p p',
    getElement Index INDEXED_DEBUG h s = (Ret p, s)
    ∧ getElement Index INDEXED_DEBUG h' s = (Ret p', s)
    ∧ begin (this s) ≤ p
    ∧ p + elementSize Index (this s) ≤ end_ Index (this s)
    ∧ (p + elementSize Index (this s) ≤ p'
       ∨ p' + elementSize Index (this s) ≤ p).
Proof.
  intros Hc Hb HE Hh Hh' Hne.
  pose proof Hc as [Hcap HE16 Hused Hcnt Hfree].
  pose proof (sizeof_pos Index) as HS.
  exists (slot Index (this s) h), (slot Index (this s) h').
  split; [unfold getElement, bind, get; apply getElementInt_slot; assumption |].
  split; [unfold getElement, bind, get; apply getElementInt_slot; assumption |].
  destruct Hb as [Hb Hfit].
  assert (Hes : 0 < elementSize Index (this s))
    by (rewrite elementSize_eq by assumption; nia).
  assert (Hend : end_ Index (this s)
                 = begin (this s) + elementSize Index (this s) * m_capacity (this s)).
  { unfold end_.
    assert (0 ≤ elementSize Index (this s) * m_capacity (this s))
      by (apply Z.mul_nonneg_nonneg; lia).
    rewrite (to_size_t_small (_ * _)) by lia. apply to_size_t_small; lia. }
  unfold slot. rewrite Hend.
  set (es := elementSize Index (this s)) in *.
  assert (0 ≤ (h - 1) * es) by (apply Z.mul_nonneg_nonneg; lia).
  assert ((h - 1) * es + es ≤ es * m_capacity (this s)).
  { replace ((h - 1) * es + es) with (es * h) by ring.
    apply Z.mul_le_mono_nonneg_l; lia. }
  split; [lia |]. split; [lia |].
  destruct (Z.lt_total h h') as [Hlt | [? | Hlt]]; [left | contradiction | right].
  - assert (es * h ≤ es * (h' - 1)) by (apply Z.mul_le_mono_nonneg_l; lia).
    lia.
  - assert (es * h' ≤ es * (h - 1)) by (apply Z.mul_le_mono_nonneg_l; lia).
    lia.
Qed.

(** X11. With deletion off the free list stays empty and the memory is
    never written: [deallocate] keeps both, and [allocate] hands out the
    slot after the high-water mark or fails when the arena is full. *)
Theorem delete_disabled_never_recycles (s : state A) (h typeSize : Z) :
  consistent Index (this s) →
  buffer_held Index (this s) →
  m_doDelete (this s) = false →
  m_nextFree (this s) = 0 →
  (∃ s', deallocate Index INDEXED_DEBUG h typeSize s = (Ret tt, s')
         ∧ m_doDelete (this s') = false
         ∧ m_nextFree (this s') = 0
         ∧ mem s' = mem s)
  ∧ (∃ r s', allocate Index INDEXED_DEBUG (elementSize Index (this s)) s
             = (r, s')
             ∧ m_doDelete (this s') = false
             ∧ m_nextFree (this s') = 0
             ∧ mem s' = mem s
             ∧ r = if m_usedCapacity (this s) <? m_capacity (this s)
                   then Ret (m_usedCapacity (this s) + 1)
                   else Throw bad_alloc).
Proof.
  intros Hc Hb Hd Hnf. split.
  - unfold deallocate, bind, update, get. cbn [this mem].
    change (m_doDelete (set_allocatedCount _ (this s))) with (m_doDelete (this s)).
    rewrite Hd.
    destruct (m_allocatedCount (set_allocatedCount _ (this s)) =? 0).
    + eexists. split; [reflexivity |]. cbn. auto.
    + eexists. split; [reflexivity |]. cbn. auto.
  - rewrite allocate_locked by assumption. unfold allocate_spec.
    rewrite Hnf. cbn [Z.eqb negb].
    destruct (m_usedCapacity (this s) <? m_capacity (this s));
      eexists _, _; (split; [reflexivity |]); cbn; auto.
Qed.

End ArenaUse.

Section ArenaLimits.
Context {A : Type} `{Alloc A}.
Variable Index : IndexType.
Variable INDEXED_DEBUG : bool.
Import ArrayArena ArrayArenaSpec.

(** X5. As long as the buffer has at most [2^32] index words, every
    valid handle is found again from the address of its slot. *)
Theorem pointer_to_getElement_small_buffer (s : state A) (h : Z) :
  consistent Index (this s) →
  buffer_held Index (this s) →
  1 ≤ h ≤ m_usedCapacity (this s) →
  1 ≤ m_elementSizeInIndex (this s) →
  elementSize Index (this s) * m_capacity (this s) ≤ 2 ^ 32 * sizeof Index →
  ∃ p, getElement Index INDEXED_DEBUG h s = (Ret p, s)
       ∧ pointer_to Index INDEXED_DEBUG p s = (Ret h, s).
Proof.
  intros Hc Hb Hh HE Hsmall.
  exists (slot Index (this s) h).
  apply pointer_to_getElement; try assumption.
  pose proof Hc as [Hcap HE16 Hused Hcnt Hfree].
  pose proof (sizeof_pos Index) as HS.
  rewrite elementSize_eq in Hsmall by assumption.
  assert (m_elementSizeInIndex (this s) * m_capacity (this s) ≤ 2 ^ 32).
  { apply (Z.mul_le_mono_pos_r _ _ (sizeof Index)); [lia |].
    replace (m_elementSizeInIndex (this s) * m_capacity (this s) * sizeof Index)
      with (m_elementSizeInIndex (this s) * sizeof Index * m_capacity (this s))
      by ring.
    exact Hsmall. }
  assert (m_elementSizeInIndex (this s) * (h - 1)
          ≤ m_elementSizeInIndex (this s) * (m_capacity (this s) - 1))
    by (apply Z.mul_le_mono_nonneg_l; lia).
  lia.
Qed.

(** X8. While the buffer is held [setCapacity] never changes the
    capacity: it throws [length_error] for a capacity from [2^(W-1)] on
    and [runtime_error] for every other one, in both arenas. *)
Theorem setCapacity_with_buffer :
  (∀ (s : state A) (n : Z),
     begin (this s) ≠ 0 →
     setCapacity Index n s
     = (Throw (if 2 ^ (bits Index - 1) <=? n
               then length_error else runtime_error), s))
  ∧ (∀ (s : ArrayArenaMT.state A) (n : Z),
       ArrayArenaMT.begin (ArrayArenaMT.this s) ≠ 0 →
       ArrayArenaMT.setCapacity Index n s
       = (Throw (if 2 ^ (bits Index - 1) <=? n
                 then length_error else runtime_error), s)).
Proof.
  assert (Hflag : Z.shiftl 1 (sizeof Index * 8 - 1) = 2 ^ (bits Index - 1))
    by (destruct Index; reflexivity).
  split; intros s n Hb.
  - unfold setCapacity, bind, get, when, throw, ret. rewrite Hflag.
    destruct (2 ^ (bits Index - 1) <=? n); [reflexivity |].
    replace (begin (this s) =? 0) with false
      by (symmetry; apply Z.eqb_neq; assumption).
    reflexivity.
  - unfold ArrayArenaMT.setCapacity, bind, get, when, throw, ret.
    rewrite Hflag.
    destruct (2 ^ (bits Index - 1) <=? n); [reflexivity |].
    replace (ArrayArenaMT.begin (ArrayArenaMT.this s) =? 0) with false
      by (symmetry; apply Z.eqb_neq; assumption).
    reflexivity.
Qed.

(** X9. A buffer acquisition that fails in the single-threaded arena is
    not remembered: [allocate] passes the source's exception on and
    leaves the arena as it was but for the source, still without buffer
    and element size, so that the next [allocate] asks the source
    again. *)
Theorem allocate_failed_acquisition `{!AllocLaws A}
    (s : state A) (typeSize : Z) (e : exception) (a' : A) :
  unlocked (this s) →
  m_usedCapacity (this s) ≠ m_capacity (this s) →
  typeSize mod sizeof Index = 0 →
  malloc (to_size_t (typeSize * m_capacity (this s))) (alloc (this s))
  = (Throw e, a') →
  allocate Index INDEXED_DEBUG typeSize s
  = (Throw e, {| this := set_alloc a' (this s); mem := mem s |})
  ∧ unlocked (set_alloc a' (this s))
  ∧ ∀ typeSize' r a'',
      typeSize' mod sizeof Index = 0 →
      malloc (to_size_t (typeSize' * m_capacity (this s))) a' = (r, a'') →
      alloc (this (snd (allocate Index INDEXED_DEBUG typeSize'
                          {| this := set_alloc a' (this s); mem := mem s |})))
      = a''.
Proof.
  intros Hun Hused Hmod Hmalloc.
  pose proof Hun as (Hb & HE & Hnf).
  assert (Hun' : unlocked (set_alloc a' (this s))).
  { split; [| split; assumption].
    unfold begin. cbn [alloc set_alloc]. rewrite <- Hb.
    eapply getPtr_malloc_throw, Hmalloc. }
  assert (Hgen : ∀ (s0 : state A) ts r a0,
            unlocked (this s0) →
            m_usedCapacity (this s0) ≠ m_capacity (this s0) →
            ts mod sizeof Index = 0 →
            malloc (to_size_t (ts * m_capacity (this s0))) (alloc (this s0))
            = (r, a0) →
            alloc (this (snd (allocate Index INDEXED_DEBUG ts s0))) = a0
            ∧ (∀ e0, r = Throw e0 →
                     allocate Index INDEXED_DEBUG ts s0
                     = (Throw e0, {| this := set_alloc a0 (this s0);
                                     mem := mem s0 |}))).
  { intros s0 ts r a0 (Hb0 & HE0 & Hnf0) Hu0 Hm0 Hmal0.
    split; [| intros e0 ->];
      unfold allocate, bind, get;
      (replace (elementSize Index (this s0)) with 0
         by (unfold elementSize; rewrite HE0; reflexivity));
      rewrite Z.eqb_refl, orb_true_r, indexed_assert_holds;
      rewrite Hnf0; cbn [Z.eqb negb];
      unfold when, bind;
      (replace (m_usedCapacity (this s0) =? m_capacity (this s0)) with false
         by (symmetry; apply Z.eqb_neq; assumption));
      unfold ret at 1; rewrite Hb0; cbn [Z.eqb];
      rewrite Hm0; cbn [Z.eqb]; rewrite indexed_assert_holds;
      unfold Alloc_malloc; rewrite Hmal0.
    - destruct r as [[] | e0 | | |]; reflexivity.
    - reflexivity. }
  split; [| split; [exact Hun' |]].
  - destruct (Hgen s typeSize (Throw e) a' Hun Hused Hmod Hmalloc) as [_ Hthrow].
    apply Hthrow. reflexivity.
  - intros typeSize' r a'' Hmod' Hmalloc'.
    apply (Hgen {| this := set_alloc a' (this s); mem := mem s |}
                typeSize' r a''); assumption.
Qed.

(** X10. [freeMemory] gives the arena back as its constructor left it,
    capacity and deletion policy kept and the memory untouched; after
    it [setCapacity] accepts every capacity below [2^(W-1)] again. *)
Theorem freeMemory_then_setCapacity `{!AllocLaws A} (s : state A) (n : Z) :
  0 ≤ n < 2 ^ (bits Index - 1) →
  ∃ s', freeMemory INDEXED_DEBUG s = (Ret tt, s')
        ∧ this s' = mk (free (alloc (this s))) (m_capacity (this s)) 0
                       (m_doDelete (this s)) 0 0 0
        ∧ mem s' = mem s
        ∧ unlocked (this s')
        ∧ setCapacity Index n s'
          = (Ret tt, {| this := set_capacity n (this s'); mem := mem s |}).
Proof.
  intros Hn.
  exists {| this := mk (free (alloc (this s))) (m_capacity (this s)) 0
                       (m_doDelete (this s)) 0 0 0;
            mem := mem s |}.
  assert (Hb : getPtr (free (alloc (this s))) = 0) by apply getPtr_free.
  split; [reflexivity |]. split; [reflexivity |]. split; [reflexivity |].
  split; [split; [exact Hb | split; reflexivity] |].
  pose proof (pow2_bits Index) as Hp.
  unfold setCapacity, bind, get, when, ret, update, begin.
  cbn [this mem alloc]. rewrite Hb.
  replace (Z.shiftl 1 (sizeof Index * 8 - 1)) with (2 ^ (bits Index - 1))
    by (destruct Index; reflexivity).
  replace (2 ^ (bits Index - 1) <=? n) with false
    by (symmetry; apply Z.leb_gt; lia).
  cbn. rewrite to_Index_small by lia. reflexivity.
Qed.

End ArenaLimits.

(** X13. Over a caller-provided buffer the first [allocate] succeeds
    exactly when [typeSize * capacity] bytes fit the buffer: it then
    takes the buffer's address as [begin()], and otherwise throws
    [bad_alloc] and leaves the arena without buffer. *)
Theorem allocate_over_BufAlloc
    (Index : IndexType) (debug : bool)
    (s : ArrayArena.state BufAlloc.t) (typeSize : Z) :
  ArrayArenaSpec.unlocked (ArrayArena.this s) →
  ArrayArena.m_usedCapacity (ArrayArena.this s)
  ≠ ArrayArena.m_capacity (ArrayArena.this s) →
  typeSize mod sizeof Index = 0 →
  let bytes :=
    to_size_t (typeSize * ArrayArena.m_capacity (ArrayArena.this s)) in
  let buf := ArrayArena.alloc (ArrayArena.this s) in
  let r := ArrayArena.allocate Index debug typeSize s in
  if BufAlloc.m_bufSize buf <? bytes
  then r = (Throw bad_alloc, s)
  else fst r = Ret (to_Index Index
                      (ArrayArena.m_usedCapacity (ArrayArena.this s) + 1))
       ∧ ArrayArena.begin (ArrayArena.this (snd r)) = BufAlloc.m_bufBegin buf
       ∧ ArrayArena.m_elementSizeInIndex (ArrayArena.this (snd r))
         = to_uint16 (typeSize / sizeof Index).
Proof.
  intros Hun Hused Hmod bytes buf r.
  destruct (BufAlloc.m_bufSize buf <? bytes) eqn:Hfit.
  - pose proof Hun as (Hb & HE & Hnf).
    unfold r, ArrayArena.allocate, bind, get.
    replace (ArrayArena.elementSize Index (ArrayArena.this s)) with 0
      by (unfold ArrayArena.elementSize; rewrite HE; reflexivity).
    rewrite Z.eqb_refl, orb_true_r, indexed_assert_holds.
    rewrite Hnf. cbn [Z.eqb negb].
    unfold when, bind.
    replace (ArrayArena.m_usedCapacity (ArrayArena.this s)
             =? ArrayArena.m_capacity (ArrayArena.this s)) with false
      by (symmetry; apply Z.eqb_neq; assumption).
    unfold ret at 1. rewrite Hb. cbn [Z.eqb].
    rewrite Hmod. cbn [Z.eqb]. rewrite indexed_assert_holds.
    unfold ArrayArena.Alloc_malloc. cbn [malloc BufAlloc_Alloc].
    unfold BufAlloc.malloc. fold buf. fold bytes. rewrite Hfit.
    destruct s as [[] m]. reflexivity.
  - unfold r.
    rewrite (allocate_first Index debug s typeSize
               {| BufAlloc.m_ptr := BufAlloc.m_bufBegin buf;
                  BufAlloc.m_bufBegin := BufAlloc.m_bufBegin buf;
                  BufAlloc.m_bufSize := BufAlloc.m_bufSize buf |});
      try assumption.
    + repeat split.
    + cbn [malloc BufAlloc_Alloc]. unfold BufAlloc.malloc.
      fold buf. fold bytes. rewrite Hfit. reflexivity.
Qed.

(** ** Further properties of the multi-threaded arena *)

Lemma kBits_eq (k : IndexType) : ArrayArenaMT.kBits k = bits k.
Proof. destruct k; reflexivity. Qed.

Lemma toDoubleIndex_eq (k : IndexType) (index stamp : Z) :
  0 ≤ index < 2 ^ bits k →
  ArrayArenaMT.toDoubleIndex k index stamp
  = stamp mod 2 ^ bits k * 2 ^ bits k + index.
Proof.
  intros Hi. unfold ArrayArenaMT.toDoubleIndex, ArrayArenaMT.to_DoubleIndex.
  rewrite kBits_eq.
  assert (Hb : 0 < bits k) by (destruct k; reflexivity).
  assert (Hp : 0 < 2 ^ bits k) by (apply Z.pow_pos_nonneg; lia).
  rewrite Z.shiftl_mul_pow2 by lia.
  replace (2 ^ (2 * bits k)) with (2 ^ bits k * 2 ^ bits k)
    by (rewrite <- Z.pow_add_r by lia; f_equal; lia).
  rewrite Z.mul_mod_distr_r by lia.
  set (hi := stamp mod 2 ^ bits k).
  rewrite <- Z.shiftl_mul_pow2 by lia.
  assert (Hland : Z.land (Z.shiftl hi (bits k)) index = 0).
  { apply Z.bits_inj'. intros n Hn. rewrite Z.land_spec, Z.bits_0.
    destruct (Z.lt_ge_cases n (bits k)).
    - rewrite Z.shiftl_spec_low by assumption. reflexivity.
    - rewrite (Z.bits_above_log2 index n); [apply andb_false_r | lia |].
      destruct (Z.eq_dec index 0) as [-> | Hne]; [cbn; lia |].
      apply Z.log2_lt_pow2; [lia |].
      apply Z.lt_le_trans with (2 ^ bits k); [lia |].
      apply Z.pow_le_mono_r; lia. }
  rewrite <- Z.lxor_lor by exact Hland.
  symmetry. apply Z.add_nocarry_lxor. exact Hland.
Qed.

Lemma toDoubleIndex_head_word (k : IndexType) (index stamp : Z) :
  0 ≤ index < 2 ^ bits k →
  ArrayArenaMT.toDoubleIndex k index (ArrayArenaMT.to_DoubleIndex k stamp)
  = ArrayArenaMTInUse.head_word k stamp index.
Proof.
  intros Hi. rewrite toDoubleIndex_eq by assumption.
  unfold ArrayArenaMTInUse.head_word, ArrayArenaMT.to_DoubleIndex.
  rewrite kBits_eq. do 2 f_equal.
  assert (Hp : 0 < 2 ^ bits k) by (destruct k; reflexivity).
  replace (2 ^ (2 * bits k)) with (2 ^ bits k * 2 ^ bits k)
    by (destruct k; reflexivity).
  apply Z.mod_mod_divide. exists (2 ^ bits k). reflexivity.
Qed.

Lemma head_word_range (k : IndexType) (index stamp : Z) :
  0 ≤ index < 2 ^ bits k →
  0 ≤ ArrayArenaMTInUse.head_word k stamp index < 2 ^ (2 * bits k)
  ∧ ArrayArenaMTInUse.head_word k stamp index mod 2 ^ bits k = index
  ∧ ArrayArenaMTInUse.head_word k stamp index / 2 ^ bits k
    = stamp mod 2 ^ bits k.
Proof.
  intros Hi. unfold ArrayArenaMTInUse.head_word.
  assert (Hp : 0 < 2 ^ bits k) by (destruct k; reflexivity).
  pose proof (Z.mod_pos_bound stamp (2 ^ bits k) Hp) as Hs.
  replace (2 ^ (2 * bits k)) with (2 ^ bits k * 2 ^ bits k)
    by (destruct k; reflexivity).
  split; [nia |]. split.
  - rewrite Z.add_comm, Z.mod_add by lia. apply Z.mod_small. lia.
  - rewrite Z.div_add_l by lia. rewrite Z.div_small by lia. lia.
Qed.

Section MultiThreadedUse.
Context {A : Type} `{Alloc A}.
Variable Index : IndexType.
Variable INDEXED_DEBUG : bool.
Import ArrayArenaMT ArrayArenaMTInUse.

Lemma elementSize_MT (a : t A) :
  in_use Index a →
  elementSize Index a = m_elementSizeInIndex a * sizeof Index
  ∧ sizeof Index ≤ elementSize Index a.
Proof.
  intros [_ HE _ _ _ _]. pose proof (sizeof_pos Index) as HS.
  assert (elementSize Index a = m_elementSizeInIndex a * sizeof Index).
  { unfold elementSize. apply to_size_t_small. destruct Index; simpl; lia. }
  split; [assumption | nia].
Qed.

Lemma getElement_slot_MT (s : state A) (h : Z) :
  in_use Index (this s) →
  1 ≤ h ≤ m_usedCapacity (this s) →
  getElement Index INDEXED_DEBUG h s = (Ret (slot Index (this s) h), s).
Proof.
  intros Hin Hh. destruct (elementSize_MT _ Hin) as [Hes Hle].
  destruct Hin as [Hcap HE Hused Hhead Hb Hfit].
  pose proof (pow2_bits Index) as Hp. pose proof (sizeof_pos Index) as HS.
  unfold getElement, getElementInt. unfold bind, get, ret.
  replace ((0 <? h) && (h <=? m_usedCapacity (this s))) with true
    by (symmetry; apply andb_true_iff; split;
        [apply Z.ltb_lt | apply Z.leb_le]; lia).
  rewrite indexed_assert_holds.
  rewrite index_minus_1_small by lia.
  assert (0 ≤ elementSize Index (this s) * (h - 1))
    by (apply Z.mul_nonneg_nonneg; lia).
  assert (elementSize Index (this s) * (h - 1)
          ≤ elementSize Index (this s) * m_capacity (this s))
    by (apply Z.mul_le_mono_nonneg_l; lia).
  rewrite (to_size_t_small (_ * _)) by lia.
  rewrite to_size_t_small by lia.
  unfold slot. do 2 f_equal. lia.
Qed.

(** The slots of the arena in use are not null. *)
Lemma slot_pos_MT (a : t A) (h : Z) :
  in_use Index a → 1 ≤ h → 0 < slot Index a h.
Proof.
  intros Hin Hh. destruct (elementSize_MT _ Hin) as [_ Hle].
  destruct Hin as [_ _ _ _ Hb _]. pose proof (sizeof_pos Index).
  unfold slot.
  assert (0 ≤ (h - 1) * elementSize Index a)
    by (apply Z.mul_nonneg_nonneg; lia).
  lia.
Qed.

Lemma read_nonnull_MT (s : state A) (p : Z) :
  p ≠ 0 → read Index p s = (Ret (load Index (mem s) p), s).
Proof. intros Hp. unfold read. apply Z.eqb_neq in Hp. rewrite Hp. reflexivity. Qed.

Lemma write_nonnull_MT (s : state A) (p v : Z) :
  p ≠ 0 →
  write Index p v s
  = (Ret tt, {| this := this s; mem := store Index (mem s) p v |}).
Proof. intros Hp. unfold write. apply Z.eqb_neq in Hp. rewrite Hp. reflexivity. Qed.

(** [push] in a run without interference: one round of the loop. *)
Lemma push_once (fuel : nat) (s : state A) (h : Z) :
  in_use Index (this s) →
  1 ≤ h ≤ m_usedCapacity (this s) →
  push Index INDEXED_DEBUG (S fuel) h s
  = (Ret tt,
     {| this := set_freeList
                  (head_word Index (head_stamp Index (this s) + 1) h) (this s);
        mem := store Index (mem s) (slot Index (this s) h)
                     (head_index Index (this s)) |}).
Proof.
  intros Hin Hh. pose proof Hin as [Hcap HE Hused Hhead Hb Hfit].
  pose proof (pow2_bits Index) as Hp.
  unfold push. unfold bind at 1. rewrite getElement_slot_MT by assumption.
  unfold bind at 1. unfold get at 1. cbn [push_loop].
  unfold bind at 1.
  rewrite write_nonnull_MT
    by (pose proof (slot_pos_MT (this s) h Hin); lia).
  unfold bind at 1.
  unfold compare_exchange_strong, bind, get. cbn [this mem].
  rewrite Z.eqb_refl. unfold update, ret. cbn [fst].
  rewrite toDoubleIndex_head_word by lia.
  unfold toStamp. rewrite kBits_eq, Z.shiftr_div_pow2 by (destruct Index; cbn; lia).
  reflexivity.
Qed.

(** [pull] on a list that is not empty, without interference: one round. *)
Lemma pull_once (fuel : nat) (s : state A) :
  in_use Index (this s) →
  1 ≤ head_index Index (this s) ≤ m_usedCapacity (this s) →
  0 ≤ load Index (mem s) (slot Index (this s) (head_index Index (this s)))
    < 2 ^ bits Index →
  pull Index INDEXED_DEBUG (S fuel) s
  = (Ret (head_index Index (this s)),
     {| this := set_freeList
                  (head_word Index (head_stamp Index (this s) + 1)
                     (load Index (mem s)
                        (slot Index (this s) (head_index Index (this s)))))
                  (this s);
        mem := mem s |}).
Proof.
  intros Hin Hh Hnext.
  unfold pull. unfold bind at 1. unfold get at 1. cbn [pull_loop].
  change (to_Index Index (m_freeList (this s))) with (head_index Index (this s)).
  replace (head_index Index (this s) =? 0) with false
    by (symmetry; apply Z.eqb_neq; lia).
  unfold bind at 1. rewrite getElement_slot_MT by assumption.
  unfold bind at 1.
  rewrite read_nonnull_MT
    by (pose proof (slot_pos_MT (this s) (head_index Index (this s)) Hin);
        lia).
  unfold bind at 1.
  unfold compare_exchange_strong, bind, get. cbn [this mem].
  rewrite Z.eqb_refl. unfold update, ret. cbn [fst].
  rewrite toDoubleIndex_head_word by assumption.
  unfold toStamp. rewrite kBits_eq, Z.shiftr_div_pow2 by (destruct Index; cbn; lia).
  reflexivity.
Qed.

(** X14. With an empty free list, [allocate] of the multi-threaded arena
    in use hands out the slot after the high-water mark; when the arena
    is full it throws [bad_alloc] and takes its increment of the
    high-water mark back. *)
Theorem allocate_MT_empty_list (fuel : nat) (s : state A) :
  in_use Index (this s) →
  head_index Index (this s) = 0 →
  allocate Index INDEXED_DEBUG (S fuel) (elementSize Index (this s)) s
  = if m_usedCapacity (this s) <? m_capacity (this s)
    then (Ret (m_usedCapacity (this s) + 1),
          {| this := set_usedCapacity (m_usedCapacity (this s) + 1) (this s);
             mem := mem s |})
    else (Throw bad_alloc, s).
Proof.
  intros Hin Hempty. pose proof Hin as [Hcap HE Hused Hhead Hb Hfit].
  pose proof (pow2_bits Index) as Hp.
  unfold allocate. unfold bind at 1. unfold get at 1.
  unfold bind at 1. rewrite Z.eqb_refl, orb_true_r, indexed_assert_holds.
  unfold bind at 1. rewrite pull_empty by exact Hempty.
  rewrite Z.eqb_refl.
  unfold bind at 1. unfold update at 1.
  unfold bind at 1. unfold get at 1.
  cbn [this mem m_usedCapacity m_capacity set_usedCapacity].
  rewrite (to_Index_small Index (m_usedCapacity (this s) + 1)) by lia.
  unfold bind at 1. unfold try_rethrow, when, bind, update, throw, ret.
  change (begin (set_usedCapacity _ (this s))) with (begin (this s)).
  replace (begin (this s) =? 0) with false
    by (symmetry; apply Z.eqb_neq; lia).
  destruct (m_usedCapacity (this s) <? m_capacity (this s)) eqn:Hlt.
  - apply Z.ltb_lt in Hlt.
    replace (m_capacity (this s) <? m_usedCapacity (this s) + 1) with false
      by (symmetry; apply Z.ltb_ge; lia).
    reflexivity.
  - apply Z.ltb_ge in Hlt.
    replace (m_capacity (this s) <? m_usedCapacity (this s) + 1) with true
      by (symmetry; apply Z.ltb_lt; lia).
    cbn [this mem m_usedCapacity set_usedCapacity].
    replace (m_usedCapacity (this s) + 1 - 1) with (m_usedCapacity (this s))
      by ring.
    rewrite to_Index_small by lia.
    rewrite set_usedCapacity_restore. reflexivity.
Qed.

(** X15. In a run without interference, a slot pushed by [deallocate]
    is the one the next [allocate] pulls; the pair restores the index
    half of the head word and advances its stamp by two, and only the
    first bytes of the slot have changed. One round of each retry loop
    suffices. *)
Theorem deallocate_then_allocate_MT (fuel fuel' : nat) (s : state A) (h : Z) :
  in_use Index (this s) →
  1 ≤ h ≤ m_usedCapacity (this s) →
  m_doDelete (this s) = true →
  ∃ s1 s2,
    deallocate Index INDEXED_DEBUG (S fuel) h (elementSize Index (this s)) s
    = (Ret tt, s1)
    ∧ head_index Index (this s1) = h
    ∧ allocate Index INDEXED_DEBUG (S fuel') (elementSize Index (this s)) s1
      = (Ret h, s2)
    ∧ this s2
      = set_freeList (head_word Index (head_stamp Index (this s) + 2)
                        (head_index Index (this s))) (this s)
    ∧ mem s2 = store Index (mem s) (slot Index (this s) h)
                     (head_index Index (this s)).
Proof.
  intros Hin Hh Hd. pose proof Hin as [Hcap HE Hused Hhead Hb Hfit].
  pose proof (pow2_bits Index) as Hp.
  assert (Hpos : 0 < 2 ^ bits Index) by (destruct Index; reflexivity).
  assert (Hidx : 0 ≤ head_index Index (this s) < 2 ^ bits Index)
    by (apply Z.mod_pos_bound; assumption).
  set (s1 := {| this := set_freeList
                  (head_word Index (head_stamp Index (this s) + 1) h) (this s);
                mem := store Index (mem s) (slot Index (this s) h)
                             (head_index Index (this s)) |}).
  destruct (head_word_range Index h (head_stamp Index (this s) + 1))
    as (Hrange & Hmod & Hdiv); [lia |].
  assert (Hin1 : in_use Index (this s1)) by (constructor; assumption).
  assert (Hh1 : head_index Index (this s1) = h) by exact Hmod.
  assert (Hload : load Index (mem s1) (slot Index (this s1) h)
                  = head_index Index (this s))
    by (apply load_store_eq; assumption).
  eexists s1, _. split; [| split; [exact Hh1 | split; [| split]]].
  - unfold deallocate, bind, get, when. rewrite Hd.
    apply push_once; assumption.
  - change (elementSize Index (this s)) with (elementSize Index (this s1)).
    unfold allocate. unfold bind at 1. unfold get at 1.
    unfold bind at 1. rewrite Z.eqb_refl, orb_true_r, indexed_assert_holds.
    unfold bind at 1.
    rewrite pull_once; rewrite ?Hh1, ?Hload; try assumption; try lia.
    replace (h =? 0) with false by (symmetry; apply Z.eqb_neq; lia).
    reflexivity.
  - cbn [this]. unfold head_stamp at 1. cbn [m_freeList set_freeList s1 this].
    rewrite Hdiv. unfold head_word.
    rewrite Z.add_mod_idemp_l by lia.
    replace (head_stamp Index (this s) + 1 + 1)
      with (head_stamp Index (this s) + 2) by ring.
    destruct s as [[] m]. reflexivity.
  - reflexivity.
Qed.

Lemma getElement_state (s : state A) (h : Z) :
  snd (getElement Index INDEXED_DEBUG h s) = s.
Proof.
  unfold getElement, getElementInt. unfold bind, get, ret.
  unfold indexed_assert, abort, ret.
  destruct (INDEXED_DEBUG && negb _); reflexivity.
Qed.

Lemma set_freeList_same (a : t A) : a = set_freeList (m_freeList a) a.
Proof. destruct a. reflexivity. Qed.

Lemma set_freeList_frame (a a' : t A) (f : Z) :
  a' = set_freeList f a → a' = set_freeList (m_freeList a') a.
Proof. intros ->. destruct a. reflexivity. Qed.

Lemma push_loop_frame (fuel : nat) (free freeSlot headD : Z) (s : state A) :
  ∃ f, this (snd (push_loop Index fuel free freeSlot headD s))
       = set_freeList f (this s).
Proof.
  revert headD s. induction fuel as [| fuel IH]; intros headD s.
  - exists (m_freeList (this s)). cbn. apply set_freeList_same.
  - cbn [push_loop]. unfold bind at 1. unfold write at 1.
    destruct (freeSlot =? 0);
      [exists (m_freeList (this s)); cbn; apply set_freeList_same |].
    unfold bind at 1. unfold compare_exchange_strong at 1.
    unfold bind at 1. unfold get at 1. cbn [this mem].
    destruct (m_freeList (this s) =? headD).
    + eexists. cbn. reflexivity.
    + unfold ret at 1. cbn [fst snd].
      destruct (IH (m_freeList (this s))
                   {| this := this s;
                      mem := store Index (mem s) freeSlot
                                   (to_Index Index headD) |}) as [f Hf].
      exists f. exact Hf.
Qed.

(** X16. [deallocate] of the multi-threaded arena changes the head of
    the free list and the slot's bytes and nothing else: capacity,
    element size, flags, buffer source and the high-water mark stay,
    whatever the arguments; there is no automatic reset. *)
Theorem deallocate_MT_frame (fuel : nat) (s : state A) (h typeSize : Z) :
  this (snd (deallocate Index INDEXED_DEBUG fuel h typeSize s))
  = set_freeList
      (m_freeList (this (snd (deallocate Index INDEXED_DEBUG fuel h typeSize s))))
      (this s).
Proof.
  unfold deallocate, bind, get, when, ret.
  destruct (m_doDelete (this s)); [| apply set_freeList_same].
  unfold push, bind.
  pose proof (getElement_state s h) as Hst.
  destruct (getElement Index INDEXED_DEBUG h s) as [[p | e | | |] s'];
    cbn [snd] in Hst; subst s'; try apply set_freeList_same.
  unfold get.
  destruct (push_loop_frame fuel h p (m_freeList (this s)) s) as [f Hf].
  exact (set_freeList_frame _ _ f Hf).
Qed.

(** X17. The multi-threaded arena finds every valid handle again from
    the address of its slot, as long as the slot starts less than
    [2^32] index words into the buffer. *)
Theorem pointer_to_getElement_MT (s : state A) (h : Z) :
  in_use Index (this s) →
  1 ≤ h ≤ m_usedCapacity (this s) →
  m_elementSizeInIndex (this s) * (h - 1) < 2 ^ 32 →
  getElement Index INDEXED_DEBUG h s = (Ret (slot Index (this s) h), s)
  ∧ pointer_to Index INDEXED_DEBUG (slot Index (this s) h) s = (Ret h, s).
Proof.
  intros Hin Hh H32. split; [apply getElement_slot_MT; assumption |].
  destruct (elementSize_MT _ Hin) as [Hes Hle].
  destruct Hin as [Hcap HE Hused Hhead Hb Hfit].
  pose proof (sizeof_pos Index) as HS. pose proof (pow2_bits Index) as Hp.
  rewrite Hes in Hfit.
  remember (m_elementSizeInIndex (this s)) as E eqn:HeqE.
  assert (Hoff : slot Index (this s) h - begin (this s)
                 = (h - 1) * E * sizeof Index)
    by (unfold slot; rewrite Hes; ring).
  assert (0 ≤ (h - 1) * E) by (apply Z.mul_nonneg_nonneg; lia).
  assert ((h - 1) * E ≤ m_capacity (this s) * E)
    by (apply Z.mul_le_mono_nonneg_r; lia).
  assert ((h - 1) * E * sizeof Index ≤ E * sizeof Index * m_capacity (this s))
    by (replace (E * sizeof Index * m_capacity (this s))
          with (m_capacity (this s) * E * sizeof Index) by ring;
        apply Z.mul_le_mono_nonneg_r; lia).
  assert (0 ≤ (h - 1) * E * sizeof Index)
    by (apply Z.mul_nonneg_nonneg; lia).
  unfold pointer_to, bind, get, ret. rewrite <- HeqE.
  rewrite Hoff, (to_size_t_small ((h - 1) * E * sizeof Index)) by lia.
  rewrite Z.div_mul by lia.
  unfold to_uint32. rewrite (Z.mod_small ((h - 1) * E)) by lia.
  rewrite Z.div_mul by lia.
  rewrite (to_Index_small Index (h - 1)) by lia.
  rewrite Hes.
  replace (E * sizeof Index * (h - 1)) with ((h - 1) * E * sizeof Index)
    by ring.
  rewrite to_size_t_small, Z.eqb_refl, indexed_assert_holds by lia.
  replace (h - 1 + 1) with h by ring.
  rewrite to_Index_small by lia. reflexivity.
Qed.

End MultiThreadedUse.

(** ** Round trips through the handle encodings *)

Lemma kContainerFlag_eq (k : IndexType) : kContainerFlag k = 2 ^ (bits k - 2).
Proof. destruct k; reflexivity. Qed.

Lemma lor_pow2_small (o n : Z) :
  0 ≤ n → 0 ≤ o < 2 ^ n → Z.lor o (2 ^ n) = o + 2 ^ n.
Proof.
  intros Hn Ho. pose proof (land_pow2_small o n Hn Ho) as Hland.
  rewrite <- Z.lxor_lor by exact Hland.
  symmetry. apply Z.add_nocarry_lxor. exact Hland.
Qed.

Lemma lxor_pow2_added (o n : Z) :
  0 ≤ n → 0 ≤ o < 2 ^ n → Z.lxor (o + 2 ^ n) (2 ^ n) = o.
Proof.
  intros Hn Ho. pose proof (land_pow2_small o n Hn Ho) as Hland.
  rewrite (Z.add_nocarry_lxor o (2 ^ n)) by exact Hland.
  rewrite Z.lxor_assoc, Z.lxor_nilpotent. apply Z.lxor_0_r.
Qed.

Lemma land_pow2_added (o n : Z) :
  0 ≤ n → 0 ≤ o < 2 ^ n → Z.land (o + 2 ^ n) (2 ^ n) = 2 ^ n.
Proof.
  intros Hn Ho. rewrite <- lor_pow2_small by assumption.
  rewrite Z.land_lor_distr_l, land_pow2_small by assumption.
  rewrite Z.land_diag. reflexivity.
Qed.

Lemma to_ptrdiff_small (x : Z) : - 2 ^ 63 ≤ x < 2 ^ 63 → to_ptrdiff x = x.
Proof. intros Hx. unfold to_ptrdiff. rewrite Z.mod_small by lia. lia. Qed.

Lemma stack_window (d : Z) :
  0 ≤ d < kMaxStackSize → (0 <=? d) && (d <? kMaxStackSize) = true.
Proof.
  intros Hd. apply andb_true_iff. split; [apply Z.leb_le | apply Z.ltb_lt]; lia.
Qed.

Lemma not_stack_window (d : Z) :
  ¬ (0 ≤ d < kMaxStackSize) → (0 <=? d) && (d <? kMaxStackSize) = false.
Proof.
  intros Hd. apply andb_false_iff.
  destruct (Z.leb_spec 0 d); [right | left; reflexivity].
  apply Z.ltb_ge. lia.
Qed.

Section StackHandles.
Context {A : Type} `{Alloc A}.
Variable Index : IndexType.
Variable INDEXED_DEBUG : bool.
Variable kNodeAlignment : Z.

(** The stack branch shared by the two encodings: the handle of an
    aligned address [o] alignment units below the stack top. *)
Lemma stack_encode (o ptr top : Z) :
  1 ≤ kNodeAlignment →
  0 ≤ o < 2 ^ (bits Index - 1) →
  kNodeAlignment * o < kMaxStackSize →
  top = ptr + kNodeAlignment * o →
  to_ptrdiff (top - ptr) = kNodeAlignment * o
  ∧ ∀ s : ArrayArena.state A,
      (indexed_assert INDEXED_DEBUG
         (to_size_t (kNodeAlignment * o) / kNodeAlignment
          <? kOnStackFlag Index);;;
       indexed_assert INDEXED_DEBUG
         (to_size_t (to_size_t (kNodeAlignment * o) / kNodeAlignment
                     * kNodeAlignment)
          =? to_size_t (kNodeAlignment * o));;;
       ret (Z.lor (to_Index Index
                     (to_size_t (kNodeAlignment * o) / kNodeAlignment))
                  (kOnStackFlag Index)))%comp s
      = (Ret (o + 2 ^ (bits Index - 1)), s).
Proof.
  intros Hk Ho Hd ->.
  assert (Hbits : 0 ≤ bits Index - 1) by (destruct Index; cbn; lia).
  pose proof (pow2_bits Index) as Hp.
  assert (Hko : 0 ≤ kNodeAlignment * o) by (apply Z.mul_nonneg_nonneg; lia).
  assert (Hmax : kMaxStackSize < 2 ^ 63) by reflexivity.
  split.
  - replace (ptr + kNodeAlignment * o - ptr) with (kNodeAlignment * o) by ring.
    apply to_ptrdiff_small. lia.
  - intros s.
    rewrite (to_size_t_small (kNodeAlignment * o)) by lia.
    replace (kNodeAlignment * o / kNodeAlignment) with o
      by (rewrite Z.mul_comm, Z.div_mul; lia).
    rewrite kOnStackFlag_eq.
    replace (o <? 2 ^ (bits Index - 1)) with true
      by (symmetry; apply Z.ltb_lt; lia).
    rewrite (Z.mul_comm o), (to_size_t_small (kNodeAlignment * o)) by lia.
    rewrite Z.eqb_refl.
    unfold bind. rewrite !indexed_assert_holds.
    rewrite to_Index_small by lia.
    rewrite lor_pow2_small by assumption. reflexivity.
Qed.

Lemma stack_decode (o ptr top : Z) :
  1 ≤ kNodeAlignment →
  0 ≤ o < 2 ^ (bits Index - 1) →
  kNodeAlignment * o < kMaxStackSize →
  0 ≤ ptr → top < 2 ^ 64 →
  top = ptr + kNodeAlignment * o →
  Z.land (o + 2 ^ (bits Index - 1)) (kOnStackFlag Index)
  = 2 ^ (bits Index - 1)
  ∧ to_size_t (top - to_size_t
                 (kNodeAlignment
                  * Z.lxor (o + 2 ^ (bits Index - 1)) (kOnStackFlag Index)))
    = ptr.
Proof.
  intros Hk Ho Hd Hptr Htop ->.
  assert (Hbits : 0 ≤ bits Index - 1) by (destruct Index; cbn; lia).
  assert (Hko : 0 ≤ kNodeAlignment * o) by (apply Z.mul_nonneg_nonneg; lia).
  assert (Hmax : kMaxStackSize < 2 ^ 63) by reflexivity.
  rewrite kOnStackFlag_eq. split.
  - apply land_pow2_added; assumption.
  - rewrite lxor_pow2_added by assumption.
    rewrite (to_size_t_small (kNodeAlignment * o)) by lia.
    replace (ptr + kNodeAlignment * o - kNodeAlignment * o) with ptr by ring.
    apply to_size_t_small. lia.
Qed.

(** X18. In the simple encoding an aligned address less than
    [kMaxStackSize] below the stack top and at most [2^(W-1) - 1]
    alignment units deep is encoded with the top bit set and decoded
    to the same address, whatever the arena holds. *)
Theorem simple_stack_round_trip
    (c : SingleArenaConfig.t) (o ptr : Z) (s : ArrayArena.state A) :
  1 ≤ kNodeAlignment →
  0 ≤ o < 2 ^ (bits Index - 1) →
  kNodeAlignment * o < kMaxStackSize →
  0 ≤ ptr → SingleArenaConfig.stackTop c < 2 ^ 64 →
  SingleArenaConfig.stackTop c = ptr + kNodeAlignment * o →
  SingleArenaConfig.pointer_to Index INDEXED_DEBUG kNodeAlignment c ptr s
  = (Ret (o + 2 ^ (bits Index - 1)), s)
  ∧ SingleArenaConfig.getElement Index INDEXED_DEBUG kNodeAlignment c
      (o + 2 ^ (bits Index - 1)) s
    = (Ret ptr, s).
Proof.
  intros Hk Ho Hd Hptr Htop Heq.
  destruct (stack_encode o ptr _ Hk Ho Hd Heq) as [Hoff Henc].
  destruct (stack_decode o ptr _ Hk Ho Hd Hptr Htop Heq) as [Hland Hdec].
  assert (Hko : 0 ≤ kNodeAlignment * o) by (apply Z.mul_nonneg_nonneg; lia).
  assert (Hpos : 0 < 2 ^ (bits Index - 1)) by (destruct Index; reflexivity).
  split.
  - unfold SingleArenaConfig.pointer_to. rewrite Hoff.
    rewrite stack_window by lia. apply Henc.
  - unfold SingleArenaConfig.getElement. rewrite Hland.
    replace (2 ^ (bits Index - 1) =? 0) with false
      by (symmetry; apply Z.eqb_neq; lia).
    cbn [negb]. unfold ret. rewrite Hdec. reflexivity.
Qed.

(** X19. In the simple encoding a valid arena handle whose slot starts
    less than [2^32] index words into the buffer and lies outside the
    stack window is found again from the address of its slot. *)
Theorem simple_arena_round_trip
    (c : SingleArenaConfig.t) (s : ArrayArena.state A) (h : Z) :
  ArrayArenaSpec.consistent Index (ArrayArena.this s) →
  ArrayArenaSpec.buffer_held Index (ArrayArena.this s) →
  1 ≤ h ≤ ArrayArena.m_usedCapacity (ArrayArena.this s) →
  1 ≤ ArrayArena.m_elementSizeInIndex (ArrayArena.this s) →
  ArrayArena.m_elementSizeInIndex (ArrayArena.this s) * (h - 1) < 2 ^ 32 →
  ¬ (0 ≤ to_ptrdiff (SingleArenaConfig.stackTop c
                      - ArrayArenaSpec.slot Index (ArrayArena.this s) h)
       < kMaxStackSize) →
  SingleArenaConfig.getElement Index INDEXED_DEBUG kNodeAlignment c h s
  = (Ret (ArrayArenaSpec.slot Index (ArrayArena.this s) h), s)
  ∧ SingleArenaConfig.pointer_to Index INDEXED_DEBUG kNodeAlignment c
      (ArrayArenaSpec.slot Index (ArrayArena.this s) h) s
    = (Ret h, s).
Proof.
  intros Hc Hb Hh HE Hsmall Hout.
  pose proof Hc as [Hcap HE16 Hused Hcnt Hfree].
  assert (Hbits : 0 ≤ bits Index - 1) by (destruct Index; cbn; lia).
  destruct (pointer_to_getElement Index INDEXED_DEBUG s h Hc Hb Hh HE Hsmall)
    as [Hget Hto].
  split.
  - unfold SingleArenaConfig.getElement. rewrite kOnStackFlag_eq.
    rewrite land_pow2_small by lia. exact Hget.
  - unfold SingleArenaConfig.pointer_to.
    rewrite not_stack_window by exact Hout. exact Hto.
Qed.

Variable kObjectSize : Z.

(** X20. The universal encoding gives the same stack round trip, for a
    stack address outside the arena's buffer or with a container size
    configured. *)
Theorem universal_stack_round_trip
    (c : SingleArenaConfigUniversal.t) (o ptr : Z) (s : ArrayArena.state A) :
  1 ≤ kNodeAlignment →
  0 ≤ o < 2 ^ (bits Index - 1) →
  kNodeAlignment * o < kMaxStackSize →
  0 ≤ ptr → SingleArenaConfigUniversal.stackTop c < 2 ^ 64 →
  SingleArenaConfigUniversal.stackTop c = ptr + kNodeAlignment * o →
  kObjectSize ≠ 0 ∨ ArrayArenaSpec.outside Index s ptr →
  SingleArenaConfigUniversal.pointer_to Index INDEXED_DEBUG kObjectSize
    kNodeAlignment c ptr s
  = (Ret (o + 2 ^ (bits Index - 1)), s)
  ∧ SingleArenaConfigUniversal.getElement Index INDEXED_DEBUG kNodeAlignment c
      (o + 2 ^ (bits Index - 1)) s
    = (Ret ptr, s).
Proof.
  intros Hk Ho Hd Hptr Htop Heq Hout.
  destruct (stack_encode o ptr _ Hk Ho Hd Heq) as [Hoff Henc].
  destruct (stack_decode o ptr _ Hk Ho Hd Hptr Htop Heq) as [Hland Hdec].
  assert (Hko : 0 ≤ kNodeAlignment * o) by (apply Z.mul_nonneg_nonneg; lia).
  assert (Hpos : 0 < 2 ^ (bits Index - 1)) by (destruct Index; reflexivity).
  split.
  - unfold SingleArenaConfigUniversal.pointer_to.
    unfold bind at 1. unfold get at 1.
    replace ((kObjectSize =? 0)
             && ((ArrayArena.begin (ArrayArena.this s) <=? ptr)
                 && (ptr <? ArrayArena.end_ Index (ArrayArena.this s))))
      with false.
    + rewrite Hoff. rewrite stack_window by lia. apply Henc.
    + symmetry. destruct Hout as [Hk0 | Ho'].
      * apply Z.eqb_neq in Hk0. rewrite Hk0. reflexivity.
      * apply andb_false_iff. right. apply not_true_iff_false.
        intros Hb. apply andb_true_iff in Hb as [H1 H2].
        apply Z.leb_le in H1. apply Z.ltb_lt in H2. apply Ho'. lia.
  - unfold SingleArenaConfigUniversal.getElement.
    rewrite Z.land_lor_distr_r, Hland.
    replace (Z.lor _ (2 ^ (bits Index - 1)) =? 0) with false.
    + replace (2 ^ (bits Index - 1) =? 0) with false
        by (symmetry; apply Z.eqb_neq; lia).
      cbn [negb]. unfold ret. rewrite Hdec. reflexivity.
    + symmetry. apply Z.eqb_neq. intros Hz.
      apply Z.lor_eq_0_iff in Hz. lia.
Qed.

(** X21. With a container size configured, an address inside the
    container object and outside the stack window is encoded as its
    offset with the second bit from the top set, and decoded to the
    same address; the offset has to stay below [2^(W-2)]. *)
Theorem universal_container_round_trip
    (c : SingleArenaConfigUniversal.t) (off ptr : Z)
    (s : ArrayArena.state A) :
  0 < kObjectSize < 2 ^ 63 →
  0 ≤ off < kObjectSize →
  off < 2 ^ (bits Index - 2) →
  0 ≤ SingleArenaConfigUniversal.container c →
  ptr = SingleArenaConfigUniversal.container c + off →
  ptr < 2 ^ 64 →
  ¬ (0 ≤ to_ptrdiff (SingleArenaConfigUniversal.stackTop c - ptr)
       < kMaxStackSize) →
  SingleArenaConfigUniversal.pointer_to Index INDEXED_DEBUG kObjectSize
    kNodeAlignment c ptr s
  = (Ret (off + 2 ^ (bits Index - 2)), s)
  ∧ SingleArenaConfigUniversal.getElement Index INDEXED_DEBUG kNodeAlignment c
      (off + 2 ^ (bits Index - 2)) s
    = (Ret ptr, s).
Proof.
  intros Hsize Hoff Hsmall Hcont -> Hptr Hout.
  assert (Hbits : 0 ≤ bits Index - 2) by (destruct Index; cbn; lia).
  assert (Hpos : 0 < 2 ^ (bits Index - 2)) by (destruct Index; reflexivity).
  assert (Hdouble : 2 ^ (bits Index - 1) = 2 * 2 ^ (bits Index - 2))
    by (destruct Index; reflexivity).
  pose proof (pow2_bits Index) as Hp.
  assert (Hwide : 2 ^ bits Index = 2 * 2 ^ (bits Index - 1))
    by (destruct Index; reflexivity).
  split.
  - unfold SingleArenaConfigUniversal.pointer_to.
    unfold bind at 1. unfold get at 1.
    replace (kObjectSize =? 0) with false
      by (symmetry; apply Z.eqb_neq; lia).
    cbn [andb]. rewrite not_stack_window by exact Hout.
    replace (SingleArenaConfigUniversal.container c + off
             - SingleArenaConfigUniversal.container c) with off by ring.
    rewrite (to_ptrdiff_small off) by lia.
    rewrite (to_ptrdiff_small kObjectSize) by lia.
    replace ((0 <=? off) && (off <? kObjectSize)) with true
      by (symmetry; apply andb_true_iff; split;
          [apply Z.leb_le | apply Z.ltb_lt]; lia).
    unfold ret. rewrite to_Index_small by lia.
    rewrite kContainerFlag_eq, lor_pow2_small by lia. reflexivity.
  - unfold SingleArenaConfigUniversal.getElement.
    rewrite Z.land_lor_distr_r, kContainerFlag_eq, kOnStackFlag_eq.
    rewrite land_pow2_added by lia.
    rewrite (land_pow2_small (off + 2 ^ (bits Index - 2))) by lia.
    rewrite Z.lor_0_r.
    replace (2 ^ (bits Index - 2) =? 0) with false
      by (symmetry; apply Z.eqb_neq; lia).
    replace (0 =? 0) with true by reflexivity. cbn [negb].
    rewrite lxor_pow2_added by lia.
    unfold ret. rewrite to_size_t_small by lia. reflexivity.
Qed.

(** X22. With no container size configured the universal encoding tests
    the arena's buffer first, so a slot of an arena that lies within
    the stack window is still found from its address, for every handle
    below [2^(W-2)] whose slot starts less than [2^32] index words
    into the buffer. *)
Theorem universal_arena_first
    (c : SingleArenaConfigUniversal.t) (s : ArrayArena.state A) (h : Z) :
  kObjectSize = 0 →
  ArrayArenaSpec.consistent Index (ArrayArena.this s) →
  ArrayArenaSpec.buffer_held Index (ArrayArena.this s) →
  1 ≤ h ≤ ArrayArena.m_usedCapacity (ArrayArena.this s) →
  h < 2 ^ (bits Index - 2) →
  1 ≤ ArrayArena.m_elementSizeInIndex (ArrayArena.this s) →
  ArrayArena.m_elementSizeInIndex (ArrayArena.this s) * (h - 1) < 2 ^ 32 →
  SingleArenaConfigUniversal.getElement Index INDEXED_DEBUG kNodeAlignment c
    h s
  = (Ret (ArrayArenaSpec.slot Index (ArrayArena.this s) h), s)
  ∧ SingleArenaConfigUniversal.pointer_to Index INDEXED_DEBUG kObjectSize
      kNodeAlignment c (ArrayArenaSpec.slot Index (ArrayArena.this s) h) s
    = (Ret h, s).
Proof.
  intros Hk Hc Hb Hh Hsmall HE H32.
  pose proof Hc as [Hcap HE16 Hused Hcnt Hfree].
  pose proof Hb as [Hbegin Hfit].
  assert (Hbits : 0 ≤ bits Index - 2) by (destruct Index; cbn; lia).
  assert (Hdouble : 2 ^ (bits Index - 1) = 2 * 2 ^ (bits Index - 2))
    by (destruct Index; reflexivity).
  pose proof (sizeof_pos Index) as HS.
  destruct (pointer_to_getElement Index INDEXED_DEBUG s h Hc Hb Hh HE H32)
    as [Hget Hto].
  split.
  - unfold SingleArenaConfigUniversal.getElement.
    rewrite Z.land_lor_distr_r, kContainerFlag_eq, kOnStackFlag_eq.
    rewrite !land_pow2_small by lia. exact Hget.
  - unfold SingleArenaConfigUniversal.pointer_to.
    unfold bind at 1. unfold get at 1. rewrite Hk.
    replace (0 =? 0) with true by reflexivity. cbn [andb].
    replace ((ArrayArena.begin (ArrayArena.this s)
              <=? ArrayArenaSpec.slot Index (ArrayArena.this s) h)
             && (ArrayArenaSpec.slot Index (ArrayArena.this s) h
                 <? ArrayArena.end_ Index (ArrayArena.this s)))
      with true; [exact Hto |].
    symmetry. apply andb_true_iff.
    remember (ArrayArena.this s) as a eqn:Ha.
    remember (ArrayArena.m_elementSizeInIndex a) as E eqn:HeqE.
    remember (ArrayArena.m_capacity a) as cap eqn:Heqcap.
    assert (Hsize : ArrayArena.elementSize Index a = E * sizeof Index)
      by (rewrite HeqE; apply elementSize_eq; rewrite <- HeqE; assumption).
    rewrite Hsize in Hfit.
    assert (0 ≤ E * sizeof Index * cap)
      by (apply Z.mul_nonneg_nonneg; [apply Z.mul_nonneg_nonneg |]; lia).
    assert (Hend : ArrayArena.end_ Index a
                   = ArrayArena.begin a + E * sizeof Index * cap).
    { unfold ArrayArena.end_. rewrite Hsize, <- Heqcap.
      rewrite (to_size_t_small (E * sizeof Index * cap)) by lia.
      apply to_size_t_small; lia. }
    rewrite Hend. unfold ArrayArenaSpec.slot. rewrite Hsize.
    assert (0 ≤ (h - 1) * (E * sizeof Index))
      by (apply Z.mul_nonneg_nonneg; [| apply Z.mul_nonneg_nonneg]; lia).
    assert ((h - 1) * (E * sizeof Index) < E * sizeof Index * cap) by nia.
    split; [apply Z.leb_le | apply Z.ltb_lt]; lia.
Qed.

End StackHandles.

(** ** The allocator and its pointers *)

Section AllocatorUse.
Context {A : Type} `{Alloc A}.
Variable Index : IndexType.
Variable INDEXED_DEBUG : bool.
Variable kNodeAlignment : Z.
Import ArrayArena ArrayArenaSpec.

(** [getElement] and [pointer_to] read the buffer's start, the element
    size and the high-water mark, and nothing else of the arena. *)
Lemma handle_functions_fields (s s' : state A) (h p x y : Z) :
  begin (this s') = begin (this s) →
  m_elementSizeInIndex (this s') = m_elementSizeInIndex (this s) →
  m_usedCapacity (this s') = m_usedCapacity (this s) →
  (getElement Index INDEXED_DEBUG h s = (Ret x, s) →
   getElement Index INDEXED_DEBUG h s' = (Ret x, s'))
  ∧ (pointer_to Index INDEXED_DEBUG p s = (Ret y, s) →
     pointer_to Index INDEXED_DEBUG p s' = (Ret y, s')).
Proof.
  intros Hb HE Hu. split.
  - unfold getElement, getElementInt, elementSize.
    unfold bind, get, ret, indexed_assert, abort.
    rewrite Hb, HE, Hu.
    destruct (INDEXED_DEBUG && negb _); [discriminate |].
    intros Heq. inversion Heq. reflexivity.
  - unfold pointer_to, elementSize.
    unfold bind, get, ret, indexed_assert, abort.
    rewrite Hb, HE.
    destruct (INDEXED_DEBUG && negb _); [discriminate |].
    intros Heq. inversion Heq. reflexivity.
Qed.

(** X23. [Allocator::allocate(1)] on an arena in use either throws
    [bad_alloc] or returns a pointer that is not null, that
    dereferences to the start of its slot, and that
    [Pointer::pointer_to] finds again from that address, provided the
    buffer lies outside the stack window and holds at most [2^32] index
    words. *)
Theorem allocator_allocate_pointer
    (c : SingleArenaConfig.t) (s : state A) :
  consistent Index (this s) →
  buffer_held Index (this s) →
  1 ≤ m_elementSizeInIndex (this s) →
  m_elementSizeInIndex (this s) * m_capacity (this s) ≤ 2 ^ 32 →
  (∀ h, 1 ≤ h ≤ m_capacity (this s) →
        ¬ (0 ≤ to_ptrdiff (SingleArenaConfig.stackTop c
                            - slot Index (this s) h) < kMaxStackSize)) →
  Allocator.allocate Index INDEXED_DEBUG (elementSize Index (this s)) 1 s
  = (Throw bad_alloc, s)
  ∨ ∃ ptr s',
      Allocator.allocate Index INDEXED_DEBUG (elementSize Index (this s)) 1 s
      = (Ret ptr, s')
      ∧ Pointer.to_bool ptr = true
      ∧ Pointer.arrow Index INDEXED_DEBUG kNodeAlignment c ptr s'
        = (Ret (slot Index (this s) (Pointer.get ptr)), s')
      ∧ Pointer.pointer_to Index INDEXED_DEBUG kNodeAlignment c
          (slot Index (this s) (Pointer.get ptr)) s'
        = (Ret ptr, s').
Proof.
  intros Hc Hb HE Hsmall Hstack.
  pose proof Hc as [Hcap HE16 Hused Hcount Hfree].
  assert (Hbits : 0 ≤ bits Index - 1) by (destruct Index; cbn; lia).
  assert (Hround : ∀ h s',
            1 ≤ h ≤ m_capacity (this s) →
            getElement Index INDEXED_DEBUG h s'
            = (Ret (slot Index (this s) h), s') →
            pointer_to Index INDEXED_DEBUG (slot Index (this s) h) s'
            = (Ret h, s') →
            Pointer.to_bool (Pointer.of_index h) = true
            ∧ Pointer.arrow Index INDEXED_DEBUG kNodeAlignment c
                (Pointer.of_index h) s'
              = (Ret (slot Index (this s) h), s')
            ∧ Pointer.pointer_to Index INDEXED_DEBUG kNodeAlignment c
                (slot Index (this s) h) s'
              = (Ret (Pointer.of_index h), s')).
  { intros h s' Hh Hget Hto. split; [| split].
    - unfold Pointer.to_bool, Pointer.of_index. cbn.
      replace (h =? 0) with false by (symmetry; apply Z.eqb_neq; lia).
      reflexivity.
    - unfold Pointer.arrow, Pointer.of_index, SingleArenaConfig.getElement.
      cbn [Pointer.m_index].
      rewrite kOnStackFlag_eq, land_pow2_small by lia. exact Hget.
    - unfold Pointer.pointer_to, SingleArenaConfig.pointer_to.
      rewrite not_stack_window by (apply Hstack; exact Hh).
      unfold bind. rewrite Hto. reflexivity. }
  assert (H32 : ∀ h, 1 ≤ h ≤ m_capacity (this s) →
                     m_elementSizeInIndex (this s) * (h - 1) < 2 ^ 32).
  { intros h Hh.
    assert (m_elementSizeInIndex (this s) * (h - 1)
            ≤ m_elementSizeInIndex (this s) * (m_capacity (this s) - 1))
      by (apply Z.mul_le_mono_nonneg_l; lia).
    lia. }
  unfold Allocator.allocate, bind.
  change (1 =? 1) with true. rewrite indexed_assert_holds.
  rewrite allocate_locked by assumption. unfold allocate_spec.
  destruct (m_nextFree (this s) =? 0) eqn:Hnext; cbn [negb].
  - apply Z.eqb_eq in Hnext.
    destruct (m_usedCapacity (this s) <? m_capacity (this s)) eqn:Hfull;
      [| left; reflexivity].
    apply Z.ltb_lt in Hfull. right.
    set (s' := {| this := set_allocatedCount (m_allocatedCount (this s) + 1)
                            (set_usedCapacity (m_usedCapacity (this s) + 1)
                               (this s));
                  mem := mem s |}).
    assert (Hc' : consistent Index (this s'))
      by (constructor; cbn; lia).
    assert (Hb' : buffer_held Index (this s')) by exact Hb.
    destruct (pointer_to_getElement Index INDEXED_DEBUG s'
                (m_usedCapacity (this s) + 1) Hc' Hb')
      as [Hget Hto]; [cbn; lia | exact HE | apply H32; lia |].
    eexists _, s'. split; [reflexivity |].
    apply Hround; [lia | exact Hget | exact Hto].
  - apply Z.eqb_neq in Hnext. right.
    set (s' := {| this := set_allocatedCount (m_allocatedCount (this s) + 1)
                            (set_nextFree
                               (load Index (mem s)
                                  (slot Index (this s) (m_nextFree (this s))))
                               (this s));
                  mem := mem s |}).
    destruct (pointer_to_getElement Index INDEXED_DEBUG s
                (m_nextFree (this s)) Hc Hb)
      as [Hget Hto]; [lia | exact HE | apply H32; lia |].
    destruct (handle_functions_fields s s' (m_nextFree (this s))
                (slot Index (this s) (m_nextFree (this s)))
                (slot Index (this s) (m_nextFree (this s)))
                (m_nextFree (this s)))
      as [Hget' Hto']; try reflexivity.
    eexists _, s'. split; [reflexivity |].
    apply Hround; [lia | exact (Hget' Hget) | exact (Hto' Hto)].
Qed.

(** X24. The element count passed to [Allocator::allocate] is only
    asserted: with a count other than 1 a debug build aborts before it
    touches the arena, and a release build hands out one element, as
    for a count of 1. *)
Theorem allocator_allocate_array (s : state A) (sizeofType n : Z) :
  n ≠ 1 →
  Allocator.allocate Index INDEXED_DEBUG sizeofType n s
  = if INDEXED_DEBUG then (Abort, s)
    else Allocator.allocate Index INDEXED_DEBUG sizeofType 1 s.
Proof.
  intros Hn. unfold Allocator.allocate. unfold bind at 1 3.
  replace (n =? 1) with false by (symmetry; apply Z.eqb_neq; exact Hn).
  unfold indexed_assert, abort, ret.
  destruct INDEXED_DEBUG; reflexivity.
Qed.

End AllocatorUse.

(** ** The further properties at concrete arenas *)

(** Use a theorem at an instance, its statement taken up to
    computation. *)
Ltac at_instance t :=
  first [ refine t | refine (t _) | refine (t _ _) | refine (t _ _ _)
        | refine (t _ _ _ _) | refine (t _ _ _ _ _)
        | refine (t _ _ _ _ _ _) | refine (t _ _ _ _ _ _ _)
        | refine (t _ _ _ _ _ _ _ _) | refine (t _ _ _ _ _ _ _ _ _) ].

Lemma arena16_well_formed :
  FreeList.well_formed uint16_t Examples.arena16 [2].
Proof.
  constructor.
  - constructor; compute_Z.
  - compute_Z.
  - compute_Z.
  - compute_Z.
  - apply NoDup_singleton.
  - repeat constructor; compute_Z.
  - compute_Z.
Qed.

Lemma arenaMT16_in_use_ok :
  ArrayArenaMTInUse.in_use uint16_t
    (ArrayArenaMT.this MoreExamples.arenaMT16_in_use).
Proof. constructor; compute_Z. Qed.

Lemma arena16_off_stack (h : Z) :
  1 ≤ h ≤ 4 →
  ¬ (0 ≤ to_ptrdiff (SingleArenaConfig.stackTop Examples.config16
                      - ArrayArenaSpec.slot uint16_t
                          (ArrayArena.this Examples.arena16) h)
       < kMaxStackSize).
Proof.
  intros Hh.
  change (SingleArenaConfig.stackTop Examples.config16) with 0x7fffff00.
  change (ArrayArenaSpec.slot uint16_t (ArrayArena.this Examples.arena16) h)
    with (4096 + (h - 1) * 8).
  rewrite to_ptrdiff_small by lia.
  change kMaxStackSize with 2097152. lia.
Qed.


Lemma allocate_well_formed_witness :
  ∃ r s',
    ArrayArena.allocate uint16_t true 8 Examples.arena16 = (r, s')
    ∧ r = Ret 2 ∧ FreeList.well_formed uint16_t s' [].
Proof.
  exact (allocate_well_formed uint16_t true Examples.arena16 [2]
           arena16_well_formed).
Defined.

Lemma deallocate_well_formed_witness :
  ∃ s', ArrayArena.deallocate uint16_t true 3 8 Examples.arena16
        = (Ret tt, s')
        ∧ FreeList.well_formed uint16_t s' [3; 2].
Proof.
  at_instance (deallocate_well_formed uint16_t true Examples.arena16 [2] 3
           arena16_well_formed).
  - compute_Z.
  - intros Hin. inversion Hin as [| ? ? ? Hin']; subst; inversion Hin'.
  - compute_Z.
Defined.

Lemma deallocate_then_allocate_witness :
  ∃ s1 s2,
    ArrayArena.deallocate uint16_t true 3 8 Examples.arena16 = (Ret tt, s1)
    ∧ ArrayArena.allocate uint16_t true 8 s1 = (Ret 3, s2)
    ∧ ArrayArena.this s2 = ArrayArena.this Examples.arena16
    ∧ ArrayArena.mem s2
      = store uint16_t (ArrayArena.mem Examples.arena16) (4096 + 16) 2
    ∧ FreeList.well_formed uint16_t s2 [2].
Proof.
  at_instance (deallocate_then_allocate uint16_t true Examples.arena16 [2] 3
           arena16_well_formed).
  - compute_Z.
  - intros Hin. inversion Hin as [| ? ? ? Hin']; subst; inversion Hin'.
  - compute_Z.
  - reflexivity.
Defined.

Lemma pointer_to_getElement_small_buffer_witness :
  ∃ p, ArrayArena.getElement uint16_t true 3 Examples.arena16
       = (Ret p, Examples.arena16)
       ∧ ArrayArena.pointer_to uint16_t true p Examples.arena16
         = (Ret 3, Examples.arena16).
Proof.
  at_instance (pointer_to_getElement_small_buffer uint16_t true Examples.arena16 3).
  - constructor; compute_Z.
  - compute_Z.
  - compute_Z.
  - compute_Z.
  - compute_Z.
Defined.

Lemma pointer_to_getElement_uint16_witness :
  ArrayArena.pointer_to uint16_t true (4096 + 16) Examples.arena16
  = (Ret 3, Examples.arena16).
Proof.
  change (4096 + 16)
    with (ArrayArenaSpec.slot uint16_t (ArrayArena.this Examples.arena16) 3).
  apply (pointer_to_getElement_uint16 true Examples.arena16 3).
  - constructor; compute_Z.
  - compute_Z.
  - compute_Z.
  - compute_Z.
Defined.

Lemma slots_in_buffer_and_disjoint_witness :
  ∃ p p',
    ArrayArena.getElement uint16_t true 1 Examples.arena16
    = (Ret p, Examples.arena16)
    ∧ ArrayArena.getElement uint16_t true 3 Examples.arena16
      = (Ret p', Examples.arena16)
    ∧ 4096 ≤ p
    ∧ p + 8 ≤ 4096 + 32
    ∧ (p + 8 ≤ p' ∨ p' + 8 ≤ p).
Proof.
  at_instance (slots_in_buffer_and_disjoint uint16_t true Examples.arena16 1 3).
  - constructor; compute_Z.
  - compute_Z.
  - compute_Z.
  - compute_Z.
  - compute_Z.
  - discriminate.
Defined.

Lemma setCapacity_with_buffer_witness :
  ArrayArena.setCapacity uint16_t 10 Examples.arena16
  = (Throw runtime_error, Examples.arena16)
  ∧ ArrayArenaMT.setCapacity uint16_t (2 ^ 15) Examples.arenaMT16_nodelete
    = (Throw length_error, Examples.arenaMT16_nodelete).
Proof.
  split.
  - apply (proj1 (setCapacity_with_buffer uint16_t) Examples.arena16 10).
    discriminate.
  - apply (proj2 (setCapacity_with_buffer uint16_t)
             Examples.arenaMT16_nodelete (2 ^ 15)).
    discriminate.
Defined.

Lemma allocate_failed_acquisition_witness :
  ArrayArena.allocate uint16_t true 8 MoreExamples.sized16_small
  = (Throw bad_alloc, MoreExamples.sized16_small)
  ∧ ArrayArenaSpec.unlocked (ArrayArena.this MoreExamples.sized16_small).
Proof.
  destruct (allocate_failed_acquisition uint16_t true
              MoreExamples.sized16_small 8 bad_alloc (BufAlloc.make 4096 16))
    as (Hthrow & Hunlocked & _).
  - compute_Z.
  - discriminate.
  - reflexivity.
  - reflexivity.
  - split; [exact Hthrow | exact Hunlocked].
Defined.

Lemma freeMemory_then_setCapacity_witness :
  ∃ s', ArrayArena.freeMemory true Examples.arena16 = (Ret tt, s')
        ∧ ArrayArena.this s'
          = ArrayArena.mk (BufAlloc.make 4096 32) 4 0 true 0 0 0
        ∧ ArrayArena.mem s' = ArrayArena.mem Examples.arena16
        ∧ ArrayArenaSpec.unlocked (ArrayArena.this s')
        ∧ ArrayArena.setCapacity uint16_t 10 s'
          = (Ret tt,
             {| ArrayArena.this :=
                  ArrayArena.set_capacity 10 (ArrayArena.this s');
                ArrayArena.mem := ArrayArena.mem Examples.arena16 |}).
Proof.
  at_instance (freeMemory_then_setCapacity uint16_t true Examples.arena16 10).
  compute_Z.
Defined.

Lemma delete_disabled_never_recycles_witness :
  (∃ s', ArrayArena.deallocate uint16_t true 2 8 Examples.arena16_nodelete
         = (Ret tt, s')
         ∧ ArrayArena.m_doDelete (ArrayArena.this s') = false
         ∧ ArrayArena.m_nextFree (ArrayArena.this s') = 0
         ∧ ArrayArena.mem s' = ∅)
  ∧ (∃ r s', ArrayArena.allocate uint16_t true 8 Examples.arena16_nodelete
             = (r, s')
             ∧ ArrayArena.m_doDelete (ArrayArena.this s') = false
             ∧ ArrayArena.m_nextFree (ArrayArena.this s') = 0
             ∧ ArrayArena.mem s' = ∅
             ∧ r = Ret 4).
Proof.
  at_instance (delete_disabled_never_recycles uint16_t true
           Examples.arena16_nodelete 2 8).
  - constructor; compute_Z.
  - compute_Z.
  - reflexivity.
  - reflexivity.
Defined.

Lemma allocate_handle_range_witness :
  fst (ArrayArena.allocate uint16_t true 8 Examples.arena16)
  = Throw bad_alloc
  ∨ ∃ h, fst (ArrayArena.allocate uint16_t true 8 Examples.arena16) = Ret h
         ∧ 1 ≤ h ≤ 4
         ∧ Z.land h (kOnStackFlag uint16_t) = 0.
Proof.
  at_instance (allocate_handle_range uint16_t true Examples.arena16).
  - constructor; compute_Z.
  - compute_Z.
Defined.

Lemma allocate_over_BufAlloc_witness :
  fst (ArrayArena.allocate uint16_t true 8 Examples.sized16) = Ret 1
  ∧ ArrayArena.begin
      (ArrayArena.this
         (snd (ArrayArena.allocate uint16_t true 8 Examples.sized16)))
    = 4096
  ∧ ArrayArena.m_elementSizeInIndex
      (ArrayArena.this
         (snd (ArrayArena.allocate uint16_t true 8 Examples.sized16)))
    = 4.
Proof.
  at_instance (allocate_over_BufAlloc uint16_t true Examples.sized16 8).
  - compute_Z.
  - discriminate.
  - reflexivity.
Defined.

Lemma allocate_MT_empty_list_witness :
  ArrayArenaMT.allocate uint16_t true 1 8 MoreExamples.arenaMT16_in_use
  = (Ret 4,
     {| ArrayArenaMT.this :=
          ArrayArenaMT.set_usedCapacity 4
            (ArrayArenaMT.this MoreExamples.arenaMT16_in_use);
        ArrayArenaMT.mem := ∅ |}).
Proof.
  at_instance (allocate_MT_empty_list uint16_t true 0 MoreExamples.arenaMT16_in_use
           arenaMT16_in_use_ok).
  reflexivity.
Defined.

Lemma deallocate_then_allocate_MT_witness :
  ∃ s1 s2,
    ArrayArenaMT.deallocate uint16_t true 1 2 8 MoreExamples.arenaMT16_in_use
    = (Ret tt, s1)
    ∧ ArrayArenaMTInUse.head_index uint16_t (ArrayArenaMT.this s1) = 2
    ∧ ArrayArenaMT.allocate uint16_t true 1 8 s1 = (Ret 2, s2)
    ∧ ArrayArenaMT.this s2
      = ArrayArenaMT.set_freeList (2 * 2 ^ 16)
          (ArrayArenaMT.this MoreExamples.arenaMT16_in_use)
    ∧ ArrayArenaMT.mem s2 = store uint16_t ∅ (4096 + 8) 0.
Proof.
  at_instance (deallocate_then_allocate_MT uint16_t true 0 0
           MoreExamples.arenaMT16_in_use 2 arenaMT16_in_use_ok).
  - compute_Z.
  - reflexivity.
Defined.

Lemma pointer_to_getElement_MT_witness :
  ArrayArenaMT.getElement uint16_t true 3 MoreExamples.arenaMT16_in_use
  = (Ret (4096 + 16), MoreExamples.arenaMT16_in_use)
  ∧ ArrayArenaMT.pointer_to uint16_t true (4096 + 16)
      MoreExamples.arenaMT16_in_use
    = (Ret 3, MoreExamples.arenaMT16_in_use).
Proof.
  at_instance (pointer_to_getElement_MT uint16_t true MoreExamples.arenaMT16_in_use
           3 arenaMT16_in_use_ok); compute_Z.
Defined.

Lemma simple_stack_round_trip_witness :
  SingleArenaConfig.pointer_to uint16_t true 2 Examples.config16 0x7ffffef8
    Examples.arena16
  = (Ret 0x8004, Examples.arena16)
  ∧ SingleArenaConfig.getElement uint16_t true 2 Examples.config16 0x8004
      Examples.arena16
    = (Ret 0x7ffffef8, Examples.arena16).
Proof.
  at_instance (simple_stack_round_trip uint16_t true 2 Examples.config16 4
           0x7ffffef8 Examples.arena16); compute_Z.
Defined.

Lemma simple_arena_round_trip_witness :
  SingleArenaConfig.getElement uint16_t true 2 Examples.config16 3
    Examples.arena16
  = (Ret (4096 + 16), Examples.arena16)
  ∧ SingleArenaConfig.pointer_to uint16_t true 2 Examples.config16
      (4096 + 16) Examples.arena16
    = (Ret 3, Examples.arena16).
Proof.
  at_instance (simple_arena_round_trip uint16_t true 2 Examples.config16
           Examples.arena16 3).
  - constructor; compute_Z.
  - compute_Z.
  - compute_Z.
  - compute_Z.
  - compute_Z.
  - apply arena16_off_stack. lia.
Defined.

Lemma universal_stack_round_trip_witness :
  SingleArenaConfigUniversal.pointer_to uint16_t true 0 2 Examples.uconfig16
    0x7ffffef8 Examples.arena16
  = (Ret 0x8004, Examples.arena16)
  ∧ SingleArenaConfigUniversal.getElement uint16_t true 2 Examples.uconfig16
      0x8004 Examples.arena16
    = (Ret 0x7ffffef8, Examples.arena16).
Proof.
  at_instance (universal_stack_round_trip uint16_t true 2 0 Examples.uconfig16 4
           0x7ffffef8 Examples.arena16); try compute_Z.
  right. compute_Z. intros [_ Hlt]. discriminate Hlt.
Defined.

Lemma universal_container_round_trip_witness :
  SingleArenaConfigUniversal.pointer_to uint16_t true 64 2 Examples.uconfig16
    0x6008 Examples.arena16
  = (Ret 0x4008, Examples.arena16)
  ∧ SingleArenaConfigUniversal.getElement uint16_t true 2 Examples.uconfig16
      0x4008 Examples.arena16
    = (Ret 0x6008, Examples.arena16).
Proof.
  at_instance (universal_container_round_trip uint16_t true 2 64 Examples.uconfig16
           8 0x6008 Examples.arena16); try compute_Z.
  intros [_ Hlt]. discriminate Hlt.
Defined.

Lemma universal_arena_first_witness :
  SingleArenaConfigUniversal.getElement uint16_t true 2 Examples.uconfig16 1
    Examples.arena16_on_stack
  = (Ret 0x7ffffe00, Examples.arena16_on_stack)
  ∧ SingleArenaConfigUniversal.pointer_to uint16_t true 0 2
      Examples.uconfig16 0x7ffffe00 Examples.arena16_on_stack
    = (Ret 1, Examples.arena16_on_stack).
Proof.
  at_instance (universal_arena_first uint16_t true 2 0 Examples.uconfig16
           Examples.arena16_on_stack 1); compute_Z.
Defined.

Lemma allocator_allocate_pointer_witness :
  Allocator.allocate uint16_t true 8 1 Examples.arena16
  = (Throw bad_alloc, Examples.arena16)
  ∨ ∃ ptr s',
      Allocator.allocate uint16_t true 8 1 Examples.arena16 = (Ret ptr, s')
      ∧ Pointer.to_bool ptr = true
      ∧ Pointer.arrow uint16_t true 2 Examples.config16 ptr s'
        = (Ret (ArrayArenaSpec.slot uint16_t
                  (ArrayArena.this Examples.arena16) (Pointer.get ptr)), s')
      ∧ Pointer.pointer_to uint16_t true 2 Examples.config16
          (ArrayArenaSpec.slot uint16_t
             (ArrayArena.this Examples.arena16) (Pointer.get ptr)) s'
        = (Ret ptr, s').
Proof.
  at_instance (allocator_allocate_pointer uint16_t true 2 Examples.config16
           Examples.arena16).
  - constructor; compute_Z.
  - compute_Z.
  - compute_Z.
  - compute_Z.
  - exact arena16_off_stack.
Defined.

Lemma allocator_allocate_array_witness :
  Allocator.allocate uint16_t true 8 2 Examples.arena16
  = (Abort, Examples.arena16).
Proof.
  at_instance (allocator_allocate_array uint16_t true Examples.arena16 8 2).
  discriminate.
Defined.
